(** * fractal-tasks-core: ROI indexing and multiscale (pyramid) metadata

    A shallow embedding of the Python sources
      - [fractal_tasks_core/lib_zattrs_utils.py]
        ([extract_zyx_pixel_sizes], [rescale_datasets]),
      - [fractal_tasks_core/lib_ngff.py]
        (the pydantic models [Dataset], [Multiscale], [NgffImageMeta],
        [NgffWellMeta]),
      - [fractal_tasks_core/tasks/napari_workflows_wrapper.py]
        (the order of validation and region I/O, the scope checks, the
        relabeling),
      - [fractal_tasks_core/measurement.py]
        (the checks on the array shapes),
    together with the properties stated about them.

    Python [int] is [Z].  A finite Python [float] is the rational number
    that it stands for ([Qc], canonical fractions, so that equality is
    Leibniz equality).  The quotient that [coarsening_xy] rounds to an
    integer is rounded to a [float] first ([binary64], [float_div]), and
    is an infinity when it overflows.  The products of [rescale_datasets]
    are written [s * p] and are not rounded: what is stated of them reads
    the same with the product of two [float]s, and uses no law of
    arithmetic besides [x * 1 = x] and [x * 0 = 0].  The additions in place
    of the relabeling are taken in the dtype of an array and are left to
    the library ([iadd_label], [iadd_positive]).
    A raised exception is a value [Err e] of the [result] monad. *)

From Stdlib Require Import ZArith QArith Qcanon Qround Lia Lqa.
From stdpp Require Import numbers strings gmap fin_maps list.

Local Open Scope string_scope.
Local Open Scope Z_scope.

(** ** Python prelude: exceptions, indexing, [**], [round], [min] *)
Module Py.

Inductive exn_class :=
| KeyError | IndexError | TypeError | ValueError | ZeroDivisionError
| AttributeError | NotImplementedError | ValidationError | InvalidROIError
| Exception_ | OverflowError.

(** An exception: its class and (the head of) its message. *)
Inductive exn := Raise (cls : exn_class) (msg : string).

Definition class_of (e : exn) : exn_class := let 'Raise c _ := e in c.

Inductive result (A : Type) :=
| Ok (a : A)
| Err (e : exn).
Arguments Ok {A} a.
Arguments Err {A} e.

Definition raises {A} (r : result A) : Prop :=
  match r with Ok _ => False | Err _ => True end.

Definition raises_class {A} (c : exn_class) (r : result A) : Prop :=
  match r with Ok _ => False | Err e => class_of e = c end.

#[export] Instance result_ret : MRet result := λ A a, Ok a.
#[export] Instance result_bind : MBind result := λ A B f r,
  match r with Ok a => f a | Err e => Err e end.

(** [for x in l: ...] building a list, stopping at the first exception. *)
Fixpoint for_each {A B} (f : A → result B) (l : list A) : result (list B) :=
  match l with
  | [] => Ok []
  | x :: l' => y ← f x; ys ← for_each f l'; Ok (y :: ys)
  end.

(** [d[k]] on a dict. *)
Definition getitem_dict {V} (d : gmap string V) (k : string) : result V :=
  match d !! k with
  | Some v => Ok v
  | None => Err (Raise KeyError k)
  end.

(** [l[i]] on a list, with Python's negative indices. *)
Definition getitem {A} (l : list A) (i : Z) : result A :=
  let n := Z.of_nat (length l) in
  let j := if i <? 0 then i + n else i in
  if (j <? 0) || (n <=? j) then Err (Raise IndexError "list index out of range")
  else match l !! Z.to_nat j with
       | Some x => Ok x
       | None => Err (Raise IndexError "list index out of range")
       end.

(** [c ** l] for two [int]s: an [int] when [l >= 0], the reciprocal (a
    [float]) when [l < 0], and [ZeroDivisionError] for [0 ** negative]. *)
Definition pow (c l : Z) : result Qc :=
  if 0 <=? l then Ok (Qc_of_Z (c ^ l))
  else if c =? 0 then
    Err (Raise ZeroDivisionError "0.0 cannot be raised to a negative power")
  else Ok (/ Qc_of_Z (c ^ (- l)))%Qc.

(** [x / y], the exact quotient. *)
Definition truediv (x y : Qc) : result Qc :=
  if decide (y = 0)%Qc then Err (Raise ZeroDivisionError "float division by zero")
  else Ok (x / y)%Qc.

(** [round(x)]: nearest integer, ties to the even neighbour. *)
Definition round (x : Qc) : Z :=
  let f := Qfloor x in
  match (x - Qc_of_Z f ?= Q2Qc (1 # 2))%Qc with
  | Lt => f
  | Gt => f + 1
  | Eq => if Z.even f then f else f + 1
  end.

(** [2 ** e], for every integer [e]. *)
Definition pow2 (e : Z) : Qc :=
  if 0 <=? e then Qc_of_Z (2 ^ e) else (/ Qc_of_Z (2 ^ (- e)))%Qc.

(** The binary exponent of a positive rational [q]: the [e] with
    [2 ** e <= q < 2 ** (e + 1)]. *)
Definition exponent (q : Qc) : Z :=
  let e := Z.log2 (Qnum q) - Z.log2 (Zpos (Qden q)) in
  if decide (q < pow2 e)%Qc then e - 1 else e.

(** The [float] that a real result [q] is rounded to: the nearest number
    with 53 significant bits (and no bit below [2 ** -1074]), ties to the
    even significand.  [None] is an infinity: the rounded value is beyond
    the largest [float]. *)
Definition binary64 (q : Qc) : option Qc :=
  if decide (q = 0)%Qc then Some 0%Qc
  else
    let a := (if decide (q < 0)%Qc then - q else q)%Qc in
    let ulp := pow2 (Z.max (exponent a - 52) (-1074)) in
    let v := (Qc_of_Z (round (a / ulp)) * ulp)%Qc in
    if decide (pow2 1024 ≤ v)%Qc then None
    else Some (if decide (q < 0)%Qc then (- v)%Qc else v).

(** [x / y] on two [float]s: the quotient rounded to a [float], which is
    an infinity when it overflows. *)
Definition float_div (x y : Qc) : result (option Qc) :=
  if decide (y = 0)%Qc then Err (Raise ZeroDivisionError "float division by zero")
  else Ok (binary64 (x / y)).

(** [x * y] on two [float]s: the product rounded to a [float]. *)
Definition float_mul (x y : Qc) : option Qc := binary64 (x * y).

(** [round(x)] of a [float]. *)
Definition round_float (x : option Qc) : result Z :=
  match x with
  | Some v => Ok (round v)
  | None =>
      Err (Raise OverflowError "cannot convert float infinity to integer")
  end.

(** [min(l)] of a non-empty sequence. *)
Definition min_list (l : list Qc) : result Qc :=
  match l with
  | [] => Err (Raise ValueError "min() arg is an empty sequence")
  | x :: l' => Ok (foldl (λ m y, if decide (y < m)%Qc then y else m) x l')
  end.

(** [l.index(x)] *)
Fixpoint index (l : list string) (x : string) : result Z :=
  match l with
  | [] => Err (Raise ValueError "is not in list")
  | y :: l' => if decide (y = x) then Ok 0 else i ← index l' x; Ok (i + 1)
  end.

(** The literal [1e-9]. *)
Definition tiny : Qc := Q2Qc (1 # 1000000000).

End Py.
Export Py.

(** ** [lib_zattrs_utils.py] *)
Module LibZattrsUtils.

(** A coordinate transformation as parsed from [.zattrs]: a dict whose
    ["type"] entry (when present) is a string and whose other entries
    (["scale"], ["translation"], ...) are lists of numbers. *)
Record transformation := Transformation {
  type_ : option string;
  vectors : gmap string (list Qc)
}.

(** The value stored under a key of a dataset dict. *)
Inductive dval :=
| DStr (s : string)
| DTransformations (ts : list transformation).

(** [t["type"]] *)
Definition get_type (t : transformation) : result string :=
  match type_ t with
  | Some s => Ok s
  | None => Err (Raise KeyError "type")
  end.

Definition coordT : string := "coordinateTransformations".

(** The body of the loop over [old_transformations]. *)
Definition rescale_transformation (coarsening_xy reference_level : Z)
    (t : transformation) : result transformation :=
  ty ← get_type t;
  if decide (ty = "scale") then
    s0 ← (s ← getitem_dict (vectors t) "scale"; getitem s 0);
    s1 ← (s ← getitem_dict (vectors t) "scale"; getitem s 1);
    p1 ← pow coarsening_xy reference_level;
    s2 ← (s ← getitem_dict (vectors t) "scale"; getitem s 2);
    p2 ← pow coarsening_xy reference_level;
    Ok (Transformation (Some "scale")
          {[ "scale" := [s0; (s1 * p1)%Qc; (s2 * p2)%Qc] ]})
  else Ok t.

(** [for t in old_transformations]: a list of dicts is traversed; a string
    is traversed character by character, and subscripting a character with
    ["type"] is a [TypeError]. *)
Definition rescale_transformations (coarsening_xy reference_level : Z)
    (old_transformations : dval) : result (list transformation) :=
  match old_transformations with
  | DTransformations ts =>
      for_each (rescale_transformation coarsening_xy reference_level) ts
  | DStr s =>
      if decide (s = "") then Ok []
      else Err (Raise TypeError "string indices must be integers")
  end.

(** The body of the loop over [datasets]. *)
Definition rescale_dataset (coarsening_xy reference_level : Z)
    (ds : gmap string dval) : result (gmap string dval) :=
  (* Copy all keys that are not coordinateTransformations (e.g. path) *)
  let new_ds : gmap string dval := filter (λ kv, kv.1 ≠ coordT) ds in
  (* Update coordinateTransformations *)
  old_transformations ← getitem_dict ds coordT;
  new_transformations ←
    rescale_transformations coarsening_xy reference_level old_transformations;
  Ok (<[coordT := DTransformations new_transformations]> new_ds).

Definition rescale_datasets (datasets : list (gmap string dval))
    (coarsening_xy reference_level : Z) : result (list (gmap string dval)) :=
  for_each (rescale_dataset coarsening_xy reference_level) datasets.

(** A multiscale dict of [.zattrs], restricted to the two keys that the
    code reads; [None] is an absent key. *)
Record multiscale := Multiscale {
  ms_coordinateTransformations : option (list transformation);
  ms_datasets : option (list (gmap string dval))
}.

(** The parsed content of a [.zattrs] file, restricted to ["multiscales"]. *)
Record zattrs := Zattrs { multiscales : option (list multiscale) }.

Definition getkey {V} (k : string) (o : option V) : result V :=
  match o with
  | Some v => Ok v
  | None => Err (Raise KeyError k)
  end.

(** [for t in transformations], returning at the first ["scale"]. *)
Fixpoint first_scale (ts : list transformation) : result (list Qc) :=
  match ts with
  | [] => Err (Raise Exception_ "ERROR: no scale transformation found")
  | t :: ts' =>
      ty ← get_type t;
      if decide (ty = "scale") then
        pixel_sizes ← getitem_dict (vectors t) "scale";
        m ← min_list pixel_sizes;
        if decide (m < tiny)%Qc then Err (Raise Exception_ "ERROR: pixel_sizes")
        else Ok pixel_sizes
      else first_scale ts'
  end.

(** The body of the [try] block. *)
Definition extract_zyx_pixel_sizes_try (z : zattrs) (level : Z)
    : result (list Qc) :=
  (* Identify multiscales *)
  multiscales ← getkey "multiscales" (multiscales z);
  (* Check that there is a single multiscale *)
  if decide (1 < length multiscales)%nat then
    Err (Raise Exception_ "ERROR: There are multiscales")
  else
    (* Check that there are no datasets-global transformations *)
    m0 ← getitem multiscales 0;
    if decide (is_Some (ms_coordinateTransformations m0)) then
      Err (Raise NotImplementedError
             "global coordinateTransformations at the multiscales level")
    else
      m0' ← getitem multiscales 0;
      (* Identify all datasets (AKA pyramid levels) *)
      datasets ← getkey "datasets" (ms_datasets m0');
      ds ← getitem datasets level;
      transformations ← getitem_dict ds coordT;
      match transformations with
      | DTransformations ts => first_scale ts
      | DStr s =>
          if decide (s = "") then first_scale []
          else Err (Raise TypeError "string indices must be integers")
      end.

(** [except KeyError as e: raise KeyError(...)] *)
Definition except_KeyError {A} (r : result A) : result A :=
  match r with
  | Err (Raise KeyError _) =>
      Err (Raise KeyError "extract_zyx_pixel_sizes_from_zattrs failed")
  | Ok a => Ok a
  | Err e => Err e
  end.

Definition extract_zyx_pixel_sizes (z : zattrs) (level : Z)
    : result (list Qc) :=
  except_KeyError (extract_zyx_pixel_sizes_try z level).

End LibZattrsUtils.

(** ** [lib_ngff.py]: pydantic models of OME-NGFF 0.4 *)
Module LibNgff.

(** [Union[ScaleCoordinateTransformation,
          TranslationCoordinateTransformation]]; the [type] literal is the
    constructor. *)
Inductive CoordinateTransformation :=
| ScaleCoordinateTransformation (scale : list Qc)
| TranslationCoordinateTransformation (translation : list Qc).

#[global] Instance CoordinateTransformation_eq_dec :
  EqDecision CoordinateTransformation.
Proof. solve_decision. Defined.

Definition type_of (t : CoordinateTransformation) : string :=
  match t with
  | ScaleCoordinateTransformation _ => "scale"
  | TranslationCoordinateTransformation _ => "translation"
  end.

(** [t.scale] *)
Definition scale (t : CoordinateTransformation) : result (list Qc) :=
  match t with
  | ScaleCoordinateTransformation s => Ok s
  | TranslationCoordinateTransformation _ =>
      Err (Raise AttributeError "object has no attribute scale")
  end.

(** [Field(..., min_items=2)] of both transformation models. *)
Definition valid_transformation (t : CoordinateTransformation) : bool :=
  match t with
  | ScaleCoordinateTransformation l
  | TranslationCoordinateTransformation l => bool_decide (2 ≤ length l)%nat
  end.

Module Axis.
Record t := Build { name : string; type : option string }.
#[global] Instance eq_dec : EqDecision t.
Proof. solve_decision. Defined.
End Axis.

Module Dataset.
Record t := Build {
  path : string;
  CoordinateTransformations : list CoordinateTransformation
}.
#[global] Instance eq_dec : EqDecision t.
Proof. solve_decision. Defined.

(** Extract the unique scale transformation, or fail otherwise. *)
Definition scale_transformation (self : t) : result CoordinateTransformation :=
  let _transformations :=
    filter (λ t, type_of t = "scale") (CoordinateTransformations self) in
  if decide (length _transformations = 0)%nat then
    Err (Raise ValueError "Missing scale transformation in dataset.")
  else if decide (1 < length _transformations)%nat then
    Err (Raise ValueError "More than one scale transformation in dataset.")
  else getitem _transformations 0.

(** The field constraints: [min_items=1] and valid items. *)
Definition valid (self : t) : bool :=
  bool_decide (1 ≤ length (CoordinateTransformations self))%nat
  && forallb valid_transformation (CoordinateTransformations self).
End Dataset.

Module Multiscale.
Record t := Build {
  name : option string;
  datasets : list Dataset.t;
  version : option string;
  axes : list Axis.t;
  CoordinateTransformations : option (list CoordinateTransformation)
}.
#[global] Instance eq_dec : EqDecision t.
Proof. solve_decision. Defined.

(** Fail if Multiscale has a (global) CoordinateTransformations
    attribute. *)
Definition _no_global_CoordinateTransformations
    (v : option (list CoordinateTransformation))
    : result (option (list CoordinateTransformation)) :=
  match v with
  | Some _ =>
      Err (Raise NotImplementedError
             "Global CoordinateTransformations at the multiscales level")
  | None => Ok None
  end.

(** The field constraints: [datasets] has [min_items=1]; [axes] has
    [min_items=2], [max_items=5], [unique_items=True]. *)
Definition valid_fields (self : t) : bool :=
  bool_decide (1 ≤ length (datasets self))%nat
  && forallb Dataset.valid (datasets self)
  && bool_decide (2 ≤ length (axes self) ≤ 5)%nat
  && bool_decide (NoDup (axes self)).
End Multiscale.

Module NgffImageMeta.
(** The [omero] attribute plays no part in what follows and is left out. *)
Record t := Build { multiscales : list Multiscale.t }.

(** Return the single multiscale of the current image, fail otherwise. *)
Definition multiscale (self : t) : result Multiscale.t :=
  if decide (1 < length (multiscales self))%nat then
    Err (Raise NotImplementedError
           "Only images with one multiscale are supported")
  else getitem (multiscales self) 0.

Definition datasets (self : t) : result (list Dataset.t) :=
  m ← multiscale self; Ok (Multiscale.datasets m).

Definition num_levels (self : t) : result nat :=
  ds ← datasets self; Ok (length ds).

Definition axes (self : t) : result (list string) :=
  m ← multiscale self; Ok (Axis.name <$> Multiscale.axes m).

(** [try: self.axes.index("z") except ValueError: None] *)
Definition z_index_of (self : t) : result (option Z) :=
  ax ← axes self;
  match index ax "z" with
  | Ok i => Ok (Some i)
  | Err (Raise ValueError _) => Ok None
  | Err e => Err e
  end.

(** The body of [for level in range(self.num_levels)]. *)
Definition pixel_sizes_at (self : t) (x_index y_index : Z)
    (z_index : option Z) (level : nat) : result (Qc * Qc * Qc) :=
  ds ← datasets self;
  d ← getitem ds (Z.of_nat level);
  st ← Dataset.scale_transformation d;
  scale ← scale st;
  pixel_size_x ← getitem scale x_index;
  pixel_size_y ← getitem scale y_index;
  pixel_size_z ← match z_index with
                 | Some z_index => getitem scale z_index
                 | None => Ok 1%Qc
                 end;
  m ← min_list [pixel_size_z; pixel_size_y; pixel_size_x];
  if decide (m < tiny)%Qc then
    Err (Raise ValueError "Pixel sizes at level are too small")
  else Ok (pixel_size_z, pixel_size_y, pixel_size_x).

(** Pixel sizes extracted from scale transformations of datasets. *)
Definition pixel_sizes_zyx (self : t) : result (list (Qc * Qc * Qc)) :=
  x_index ← (ax ← axes self; index ax "x");
  y_index ← (ax ← axes self; index ax "y");
  z_index ← z_index_of self;
  n ← num_levels self;
  for_each (pixel_sizes_at self x_index y_index z_index) (seq 0 n).

Definition get_pixel_sizes_zyx (self : t) (level : Z)
    : result (Qc * Qc * Qc) :=
  ps ← pixel_sizes_zyx self; getitem ps level.

(** [self.pixel_sizes_zyx[i][k]]; the property is evaluated anew at each
    use. *)
Definition pixel_size (self : t) (i : Z) (k : Qc * Qc * Qc → Qc)
    : result Qc :=
  ps ← pixel_sizes_zyx self; p ← getitem ps i; Ok (k p).

Definition size_x (p : Qc * Qc * Qc) : Qc := p.2.
Definition size_y (p : Qc * Qc * Qc) : Qc := p.1.2.
Definition size_z (p : Qc * Qc * Qc) : Qc := p.1.1.

(** [round(self.pixel_sizes_zyx[ind][k] / self.pixel_sizes_zyx[ind-1][k])] *)
Definition ratio (self : t) (ind : Z) (k : Qc * Qc * Qc → Qc)
    : result Z :=
  a ← pixel_size self ind k;
  b ← pixel_size self (ind - 1) k;
  q ← float_div a b;
  round_float q.

(** The loop [for ind in range(1, self.num_levels)], threading
    [current_ratio]. *)
Fixpoint coarsening_loop (self : t) (inds : list nat)
    (current_ratio : option Z) : result (option Z) :=
  match inds with
  | [] => Ok current_ratio
  | ind :: inds' =>
      ratio_x ← ratio self (Z.of_nat ind) size_x;
      ratio_y ← ratio self (Z.of_nat ind) size_y;
      if decide (ratio_x ≠ ratio_y) then
        Err (Raise NotImplementedError
               "Inhomogeneous coarsening in X/Y directions is not supported.")
      else
        match current_ratio with
        | None => coarsening_loop self inds' (Some ratio_x)
        | Some r =>
            if decide (r ≠ ratio_x) then
              Err (Raise NotImplementedError
                     "Inhomogeneous coarsening across levels is not supported.")
            else coarsening_loop self inds' current_ratio
        end
  end.

(** Linear coarsening factor in the YX plane; [None] is Python's [None],
    the initial value of [current_ratio]. *)
Definition coarsening_xy (self : t) : result (option Z) :=
  n ← num_levels self;
  coarsening_loop self (seq 1 (n - 1)) None.

(** What constructing an [NgffImageMeta] does with attributes of the
    right shape: the validator of each [Multiscale] runs when its
    [CoordinateTransformations] field is well-formed and its exception
    propagates; violated field constraints ([min_items=1] and
    [unique_items=True] for [multiscales], and those of the nested models)
    are reported at the end as a [ValidationError]. *)
Fixpoint validate_multiscales (l : list Multiscale.t) : result bool :=
  match l with
  | [] => Ok true
  | m :: l' =>
      ok ← match Multiscale.CoordinateTransformations m with
           | Some v =>
               if forallb valid_transformation v then
                 _ ← Multiscale._no_global_CoordinateTransformations (Some v);
                 Ok true
               else Ok false
           | None =>
               _ ← Multiscale._no_global_CoordinateTransformations None;
               Ok (Multiscale.valid_fields m)
           end;
      ok' ← validate_multiscales l';
      Ok (ok && ok')
  end.

Definition validate (attrs : t) : result t :=
  ok ← validate_multiscales (multiscales attrs);
  if ok && bool_decide (1 ≤ length (multiscales attrs))%nat
        && bool_decide (NoDup (multiscales attrs))
  then Ok attrs
  else Err (Raise ValidationError "validation errors for NgffImageMeta").
End NgffImageMeta.

(** Load the attributes of a zarr group and cast them to [NgffImageMeta];
    the attributes read from the group are the argument. *)
Definition load_NgffImageMeta (zarr_attrs : NgffImageMeta.t)
    : result NgffImageMeta.t :=
  NgffImageMeta.validate zarr_attrs.

End LibNgff.

(** ** [roi.py]: ROI table to array indices

    The wrapper imports [convert_ROI_table_to_indices] and
    [check_valid_ROI_indices] from [fractal_tasks_core.roi]; that module is
    not among the sources, so both functions follow the specification. *)
Module Roi.

(** Modelled from the spec: the data model of [fractal_tasks_core/roi.py]
    is missing from the sources; one row of a ROI table, in physical units
    (section 3, ROIRow). *)
Record ROIRow := {
  x_micrometer : Qc;
  y_micrometer : Qc;
  z_micrometer : Qc;
  len_x_micrometer : Qc;
  len_y_micrometer : Qc;
  len_z_micrometer : Qc
}.

(** Modelled from the spec: the data model of [fractal_tasks_core/roi.py]
    is missing from the sources; the tuple
    [(start_z, end_z, start_y, end_y, start_x, end_x)], end-exclusive
    (section 3, ROIIndices). *)
Record ROIIndices := {
  start_z : Z; end_z : Z;
  start_y : Z; end_y : Z;
  start_x : Z; end_x : Z
}.

Definition extent_z (i : ROIIndices) : Z := end_z i - start_z i.
Definition extent_y (i : ROIIndices) : Z := end_y i - start_y i.
Definition extent_x (i : ROIIndices) : Z := end_x i - start_x i.

(** Modelled from the spec: [convert_ROI_table_to_indices] of
    [fractal_tasks_core/roi.py] is missing from the sources; step 2 of
    section 4.2, [round(position / full_res_pixel_size)]. *)
Definition to_pixel (position pixel_size : Qc) : result Z :=
  q ← truediv position pixel_size; Ok (round q).

(** Modelled from the spec: [convert_ROI_table_to_indices] of
    [fractal_tasks_core/roi.py] is missing from the sources; step 3 of
    section 4.2, a full-resolution index divided by
    [coarsening_xy ** level]; the quotient is rounded with the same [round]
    as in step 2. *)
Definition to_level (index coarsening_xy level : Z) : result Z :=
  p ← pow coarsening_xy level;
  q ← truediv (Qc_of_Z index) p;
  Ok (round q).

(** Modelled from the spec: [convert_ROI_table_to_indices] of
    [fractal_tasks_core/roi.py] is missing from the sources; this is the
    per-row algorithm of the specification (section 4.2, steps 1 to 4):
    subtract [origin_xyz], round to full-resolution pixel indices, divide
    the Y and X indices (never the Z indices) by
    [coarsening_xy ** level]. *)
Definition convert_ROI_row (level coarsening_xy : Z)
    (full_res_pxl_sizes_zyx : Qc * Qc * Qc) (origin_xyz : Qc * Qc * Qc)
    (row : ROIRow) : result ROIIndices :=
  let '(pxl_z, pxl_y, pxl_x) := full_res_pxl_sizes_zyx in
  let '(origin_x, origin_y, origin_z) := origin_xyz in
  (* 1. local physical origin *)
  let x := (x_micrometer row - origin_x)%Qc in
  let y := (y_micrometer row - origin_y)%Qc in
  let z := (z_micrometer row - origin_z)%Qc in
  (* 2. full-resolution pixel indices *)
  s_z ← to_pixel z pxl_z;
  e_z ← to_pixel (z + len_z_micrometer row)%Qc pxl_z;
  s_y ← to_pixel y pxl_y;
  e_y ← to_pixel (y + len_y_micrometer row)%Qc pxl_y;
  s_x ← to_pixel x pxl_x;
  e_x ← to_pixel (x + len_x_micrometer row)%Qc pxl_x;
  (* 3. scale down to the requested level, X and Y only *)
  s_y' ← to_level s_y coarsening_xy level;
  e_y' ← to_level e_y coarsening_xy level;
  s_x' ← to_level s_x coarsening_xy level;
  e_x' ← to_level e_x coarsening_xy level;
  (* 4. the resulting tuple *)
  Ok {| start_z := s_z; end_z := e_z;
        start_y := s_y'; end_y := e_y';
        start_x := s_x'; end_x := e_x' |}.

(** Modelled from the spec: [convert_ROI_table_to_indices] of
    [fractal_tasks_core/roi.py] is missing from the sources; one
    [ROIIndices] per row, in the order of the table. *)
Definition convert_ROI_table_to_indices (ROI_table : list ROIRow)
    (level coarsening_xy : Z) (full_res_pxl_sizes_zyx : Qc * Qc * Qc)
    (origin_xyz : Qc * Qc * Qc) : result (list ROIIndices) :=
  for_each
    (convert_ROI_row level coarsening_xy full_res_pxl_sizes_zyx origin_xyz)
    ROI_table.

(** Modelled from the spec: the invariant of ROIIndices (section 3),
    [end > start] on every axis; [fractal_tasks_core/roi.py] is missing
    from the sources. *)
Definition valid_indices (i : ROIIndices) : Prop :=
  start_z i < end_z i ∧ start_y i < end_y i ∧ start_x i < end_x i.

#[global] Instance valid_indices_dec i : Decision (valid_indices i).
Proof. unfold valid_indices. apply _. Defined.

(** Modelled from the spec: [check_valid_ROI_indices] of
    [fractal_tasks_core/roi.py] is missing from the sources; the
    validation pass of the specification (sections 4.2 and 7): it raises
    [InvalidROIError] at the first tuple with [end <= start] on some
    axis. *)
Fixpoint check_valid_ROI_indices (list_indices : list ROIIndices)
    (ROI_table_name : string) : result unit :=
  match list_indices with
  | [] => Ok tt
  | indices :: rest =>
      if decide (end_z indices <= start_z indices
                 ∨ end_y indices <= start_y indices
                 ∨ end_x indices <= start_x indices)
      then Err (Raise InvalidROIError ROI_table_name)
      else check_valid_ROI_indices rest ROI_table_name
  end.

End Roi.

(** ** [tasks/napari_workflows_wrapper.py]: validation before region I/O *)
Module NapariWorkflowsWrapper.
Import Roi.

(** The reads and writes of array regions, in the order they happen. *)
Inductive event :=
| load_region (input_name : string) (region : ROIIndices)
| to_zarr (output_name : string) (region : ROIIndices).

(** A computation that may raise and that appends to the trace of region
    I/O; the trace survives an exception. *)
Definition io (A : Type) : Type := list event → result A * list event.

#[export] Instance io_ret : MRet io := λ A a tr, (Ok a, tr).
#[export] Instance io_bind : MBind io := λ A B f m tr,
  match m tr with
  | (Ok a, tr') => f a tr'
  | (Err e, tr') => (Err e, tr')
  end.

Definition lift {A} (r : result A) : io A := λ tr, (r, tr).
Definition emit (e : event) : io unit := λ tr, (Ok tt, (tr ++ [e])%list).

Fixpoint io_iter {A} (f : A → io unit) (l : list A) : io unit :=
  match l with
  | [] => mret tt
  | x :: l' => _ ← f x; io_iter f l'
  end.

Inductive output_type := label | dataframe.

Section Wrapper.
(** Task arguments and the workflow engine, which is opaque:
    [mask_ndim i name] is [len(mask.shape)] of output [name] for the
    ROI number [i].  This module follows the order of the validation and
    of the region I/O; what the loop does with the values of an output
    (the checks on the labels, the relabeling) is in
    [NapariWorkflowsRelabeling] and is left out here. *)
Variable input_specs : list string.
Variable output_specs : list (string * output_type).
Variable expected_dimensions : Z.
Variable mask_ndim : nat → string → Z.
Variable input_ROI_table : string.

(** Set inputs: one [load_region] per input. *)
Definition set_inputs (region : ROIIndices) : io unit :=
  io_iter (λ input_name, emit (load_region input_name region)) input_specs.

(** The loop over label outputs of one ROI. *)
Definition write_labels (i_ROI : nat) (region : ROIIndices) : io unit :=
  io_iter (λ '(output_name, ty),
             match ty with
             | dataframe => mret tt
             | label =>
                 if decide (mask_ndim i_ROI output_name ≠ expected_dimensions)
                 then lift (Err (Raise ValueError "Output has shape"))
                 else emit (to_zarr output_name region)
             end) output_specs.

(** [for i_ROI, indices in enumerate(list_indices)] *)
Fixpoint roi_loop (i_ROI : nat) (list_indices : list ROIIndices) : io unit :=
  match list_indices with
  | [] => mret tt
  | region :: rest =>
      _ ← set_inputs region;
      _ ← write_labels i_ROI region;
      roi_loop (S i_ROI) rest
  end.

(** The part of the task from the creation of the index list to the end
    of the ROI loop.  The input and output preparation in between opens
    arrays lazily and creates groups; it touches no array region and is
    left out.  [label_pxl_sizes] is [Some] when there are label outputs,
    no image inputs and some label inputs: the indices are then rebuilt
    from the pixel sizes of the first input label and checked again. *)
Definition napari_workflows_wrapper (ROI_table : list ROIRow)
    (level coarsening_xy : Z) (full_res_pxl_sizes_zyx : Qc * Qc * Qc)
    (label_pxl_sizes : option (Qc * Qc * Qc)) : io unit :=
  let origin := (0, 0, 0)%Qc in
  list_indices ← lift (convert_ROI_table_to_indices ROI_table level
                         coarsening_xy full_res_pxl_sizes_zyx origin);
  _ ← lift (check_valid_ROI_indices list_indices input_ROI_table);
  list_indices ←
    match label_pxl_sizes with
    | Some full_res_pxl_sizes_zyx =>
        list_indices ← lift (convert_ROI_table_to_indices ROI_table level
                               coarsening_xy full_res_pxl_sizes_zyx origin);
        _ ← lift (check_valid_ROI_indices list_indices input_ROI_table);
        mret list_indices
    | None => mret list_indices
    end;
  roi_loop 0 list_indices.
End Wrapper.

End NapariWorkflowsWrapper.

(** ** [lib_ngff.py]: pydantic models of a NGFF well *)
Module LibNgffWell.

(** Model for the [images] attribute of a [Well] object. *)
Module Image.
Record t := Build { acquisition : option Z; path : string }.
#[global] Instance eq_dec : EqDecision t.
Proof. solve_decision. Defined.
End Image.

(** Model for the [well] attribute of a [NgffWellMeta] object. *)
Module Well.
Record t := Build { images : list Image.t; version : option string }.

(** The field constraints of [images]: [min_items=1] and
    [unique_items=True]. *)
Definition valid (self : t) : bool :=
  bool_decide (1 ≤ length (images self))%nat
  && bool_decide (NoDup (images self)).
End Well.

Module NgffWellMeta.
Record t := Build { well : option Well.t }.

(** The loop [for image in self.well.images], threading
    [acquisition_dict]. *)
Fixpoint acquisition_loop (images : list Image.t)
    (acquisition_dict : gmap Z string) : result (gmap Z string) :=
  match images with
  | [] => Ok acquisition_dict
  | image :: images' =>
      match Image.acquisition image with
      | None =>
          Err (Raise ValueError
                 "Cannot get acquisition paths for Zarr files without 'acquisition' metadata at the well level")
      | Some acquisition =>
          if decide (is_Some (acquisition_dict !! acquisition)) then
            Err (Raise NotImplementedError
                   "This task is not implemented for wells with multiple images of the same acquisition")
          else
            acquisition_loop images'
              (<[acquisition := Image.path image]> acquisition_dict)
      end
  end.

(** Create mapping from acquisition indices to corresponding paths;
    [self.well] is [None] when the attributes have no ["well"]. *)
Definition get_acquisition_paths (self : t) : result (gmap Z string) :=
  match well self with
  | None =>
      Err (Raise AttributeError
             "'NoneType' object has no attribute 'images'")
  | Some w => acquisition_loop (Well.images w) ∅
  end.
End NgffWellMeta.

End LibNgffWell.

(** ** [measurement.py]: the shapes of the image and of the label array *)
Module Measurement.

(** [a // b] on the entries of a shape, which are non-negative [int]s. *)
Definition floordiv (a b : nat) : result nat :=
  if decide (b = 0)%nat then
    Err (Raise ZeroDivisionError "integer division or modulo by zero")
  else Ok (a / b)%nat.

(** The shape of [np.repeat(a, repeats, axis=axis)], for [a] of shape
    [shape]; an axis that [a] does not have is an [AxisError], which is a
    [ValueError]. *)
Definition repeat_shape (shape : list nat) (repeats : nat) (axis : nat)
    : result (list nat) :=
  match shape !! axis with
  | Some n => Ok (<[axis := (n * repeats)%nat]> shape)
  | None => Err (Raise ValueError "axis is out of bounds for array")
  end.

(** The part of [measurement] from [img_shape = img.shape] to the check
    after upscaling: find [upscale_factor] for the labels array, compare
    the shapes, upscale the labels array along X and Y and compare
    again.  Only the shapes of the arrays are followed. *)
Definition find_upscale_factor (img_shape label_shape : list nat)
    : result nat :=
  (* Find upscale_factor for labels array *)
  upscale_factor ← (a ← getitem img_shape 1; b ← getitem label_shape 1;
                    floordiv a b);
  mismatch_z ← (a ← getitem img_shape 0; b ← getitem label_shape 0;
                Ok (bool_decide (a ≠ b)));
  if (mismatch_z : bool) then
    Err (Raise Exception_ "Error in dapi/label array shapes")
  else
    mismatch_y ← (a ← getitem label_shape 1; b ← getitem img_shape 1;
                  Ok (bool_decide ((a * upscale_factor)%nat ≠ b)));
    mismatch_yx ←
      (if (mismatch_y : bool) then Ok true
       else a ← getitem img_shape 2; b ← getitem label_shape 2;
            q ← floordiv a b; Ok (bool_decide (upscale_factor ≠ q)));
    if (mismatch_yx : bool) then
      Err (Raise Exception_ "Error in dapi/label array shapes")
    else
      (* Upscale labels array *)
      label_img_up_x ← repeat_shape label_shape upscale_factor 2;
      label_img_up ← repeat_shape label_img_up_x upscale_factor 1;
      if decide (label_img_up ≠ img_shape) then
        Err (Raise Exception_
               "Error in dapi/label array shapes (after upscaling)")
      else Ok upscale_factor.

End Measurement.

(** ** [tasks/napari_workflows_wrapper.py]: scope of the task *)
Module NapariWorkflowsScope.

(** [OutOfTaskScopeError], a subclass of [NotImplementedError]. *)
Definition OutOfTaskScopeError (msg : string) : exn :=
  Raise NotImplementedError msg.

(** [set(types) == {ty}] *)
Definition set_is (types : list string) (ty : string) : bool :=
  bool_decide (list_to_set types =@{gset string} {[ ty ]}).

(** [[(name, params) for (name, params) in specs.items()
      if params.type == ty]] *)
Definition of_type (specs : list (string * string)) (ty : string)
    : list (string * string) :=
  filter (λ item, item.2 = ty) specs.

Section Scope.
(** [wf.roots()]; the items [(name, type)] of [input_specs] and of
    [output_specs]; [level]; [input_paths]. *)
Variable roots : list string.
Variable input_specs : list (string * string).
Variable output_specs : list (string * string).
Variable level : Z.
Variable input_paths : list string.
(** What the task does between the checks, as far as exceptions go:
    reading the ROI table and the image metadata and building the ROI
    indices; opening the input arrays; re-building the ROI indices from
    the metadata of the first input label. *)
Variable load_metadata : result unit.
Variable prepare_inputs : result unit.
Variable reload_indices : result unit.

(** Output preparation, "label" type: the preliminary scope checks and
    the choice of the reference array. *)
Definition prepare_label_outputs (relabeling : bool) : result unit :=
  let image_inputs := of_type input_specs "image" in
  let label_inputs := of_type input_specs "label" in
  let label_outputs := of_type output_specs "label" in
  if bool_decide (label_outputs ≠ []) then
    (* Preliminary scope checks *)
    if bool_decide (1 < length label_outputs)%nat then
      Err (OutOfTaskScopeError
             "Multiple label outputs would break label-inputs-only workflows")
    else if bool_decide (1 < length label_outputs)%nat && relabeling then
      Err (OutOfTaskScopeError
             "Multiple label outputs would break relabeling in labeling+measurement workflows")
    else if bool_decide (image_inputs ≠ []) then Ok tt
    else if bool_decide (label_inputs ≠ []) then reload_indices
    else
      Err (OutOfTaskScopeError
             "Missing image_inputs and label_inputs, we cannot assign label output properties")
  else Ok tt.

(** The task up to the ROI loop; it returns the value of [relabeling]
    that the loop uses. *)
Definition check_scope (relabeling : bool) : result bool :=
  (* Validation of input/output specs *)
  if bool_decide (¬ (list_to_set roots ⊆@{gset string}
                       list_to_set (fst <$> input_specs))) then
    Err (Raise ValueError "Some item of wf.roots() is not part of input_specs")
  else
    (* Characterization of workflow and scope restriction *)
    let input_types := snd <$> input_specs in
    let output_types := snd <$> output_specs in
    let are_inputs_all_images := set_is input_types "image" in
    let are_outputs_all_labels := set_is output_types "label" in
    let are_outputs_all_dataframes := set_is output_types "dataframe" in
    let is_labeling_workflow :=
      are_inputs_all_images && are_outputs_all_labels in
    let is_measurement_only_workflow := are_outputs_all_dataframes in
    (* Level-related constraint *)
    if bool_decide (0 < level) && negb is_labeling_workflow then
      Err (OutOfTaskScopeError
             "level>0 is currently only accepted for labeling workflows")
    else
      (* Relabeling-related (soft) constraint *)
      let relabeling :=
        if is_measurement_only_workflow && relabeling then false
        else relabeling in
      (* Pre-processing of task inputs *)
      if bool_decide (1 < length input_paths)%nat then
        Err (Raise NotImplementedError
               "We currently only support a single input path")
      else
        _ ← getitem input_paths 0;
        _ ← load_metadata;
        _ ← prepare_inputs;
        _ ← prepare_label_outputs relabeling;
        Ok relabeling.
End Scope.

End NapariWorkflowsScope.

(** ** [tasks/napari_workflows_wrapper.py]: relabeling in the ROI loop *)
Module NapariWorkflowsRelabeling.
Import Roi.

(** A label array that the workflow returns: its shape and its values, in
    any fixed order. *)
Record mask := Mask { shape : list nat; values : list Z }.

(** What the ROI loop hands over: the ["label"] column of a dataframe
    appended to the list of a dataframe output, and the values of the
    array handed to [to_zarr] for a region of a label output. *)
Inductive write :=
| append_dataframe (i_ROI : nat) (output_name : string) (labels : list Z)
| to_zarr (i_ROI : nat) (output_name : string) (region : ROIIndices)
    (values : list Z).

(** [np.max(a)]; a zero-size array has no maximum. *)
Definition np_max (a : list Z) : result Z :=
  match a with
  | [] =>
      Err (Raise ValueError
             "zero-size array to reduction operation maximum which has no identity")
  | x :: a' => Ok (foldl Z.max x a')
  end.

(** [np.min(a)] *)
Definition np_min (a : list Z) : result Z :=
  match a with
  | [] =>
      Err (Raise ValueError
             "zero-size array to reduction operation minimum which has no identity")
  | x :: a' => Ok (foldl Z.min x a')
  end.

Section Loop.
(** [list_outputs] with the type of each output; the task arguments;
    the outputs of the workflow for the ROI number [i]: the ["label"]
    column of a dataframe output and the array of a label output. *)
Variable list_outputs : list (string * string).
Variable relabeling : bool.
Variable expected_dimensions : Z.
Variable dataframe_labels : nat → string → list Z.
Variable label_mask : nat → string → mask.
(** The two additions in place, on the outputs of the ROI number [i]:
    [iadd_label i name n] is the ["label"] column after
    [df["label"] += n], and [iadd_positive i name n] holds the values of
    the array after [mask[mask > 0] += n], or the exception.  The sums are
    taken in the dtype of the column and of the array, which need not hold
    them; what they give then is left to the library. *)
Variable iadd_label : nat → string → Z → result (list Z).
Variable iadd_positive : nat → string → Z → result (list Z).

(** Iterate first over dataframe outputs. *)
Fixpoint dataframe_outputs (i_ROI : nat) (max_label_for_relabeling : Z)
    (outputs : list (string * string)) : list write * result unit :=
  match outputs with
  | [] => ([], Ok tt)
  | (output_name, ty) :: rest =>
      if decide (ty ≠ "dataframe") then
        dataframe_outputs i_ROI max_label_for_relabeling rest
      else
        let df :=
          if relabeling then
            iadd_label i_ROI output_name max_label_for_relabeling
          else Ok (dataframe_labels i_ROI output_name) in
        match df with
        | Err e => ([], Err e)
        | Ok df =>
            (* Append the new-ROI dataframe to the all-ROIs list *)
            let '(ws, r) :=
              dataframe_outputs i_ROI max_label_for_relabeling rest in
            (append_dataframe i_ROI output_name df :: ws, r)
        end
  end.

(** After all dataframe outputs, iterate over label outputs; the result
    is the new [max_label_for_relabeling]. *)
Fixpoint label_outputs (i_ROI : nat) (region : ROIIndices)
    (max_label_for_relabeling : Z) (outputs : list (string * string))
    : list write * result Z :=
  match outputs with
  | [] => ([], Ok max_label_for_relabeling)
  | (output_name, ty) :: rest =>
      if decide (ty ≠ "label") then
        label_outputs i_ROI region max_label_for_relabeling rest
      else
        let mask := label_mask i_ROI output_name in
        (* Check dimensions *)
        if decide (Z.of_nat (length (shape mask)) ≠ expected_dimensions)
        then ([], Err (Raise ValueError "Output has shape"))
        else
          (* [np.expand_dims(mask, axis=0)] keeps the values *)
          (* Sanity check: issue warning for non-consecutive labels *)
          match np_min (values mask) with
          | Err e => ([], Err e)
          | Ok _ =>
              match np_max (values mask) with
              | Err e => ([], Err e)
              | Ok num_labels_in_this_ROI =>
                  let new_values :=
                    if relabeling then
                      iadd_positive i_ROI output_name max_label_for_relabeling
                    else Ok (values mask) in
                  match new_values with
                  | Err e => ([], Err e)
                  | Ok new_values =>
                      let max_label_for_relabeling :=
                        if relabeling then
                          max_label_for_relabeling + num_labels_in_this_ROI
                        else max_label_for_relabeling in
                      let '(ws, r) :=
                        label_outputs i_ROI region max_label_for_relabeling
                          rest in
                      (to_zarr i_ROI output_name region new_values :: ws, r)
                  end
              end
          end
  end.

(** [for i_ROI, indices in enumerate(list_indices)], threading
    [max_label_for_relabeling]; the writes of a ROI in which an
    exception is raised are kept. *)
Fixpoint roi_loop (i_ROI : nat) (list_indices : list ROIIndices)
    (max_label_for_relabeling : Z) : list write * result Z :=
  match list_indices with
  | [] => ([], Ok max_label_for_relabeling)
  | region :: rest =>
      match dataframe_outputs i_ROI max_label_for_relabeling list_outputs
      with
      | (dfs, Err e) => (dfs, Err e)
      | (dfs, Ok _) =>
          match
            label_outputs i_ROI region max_label_for_relabeling list_outputs
          with
          | (ws, Ok max_label_for_relabeling) =>
              let '(ws', r) :=
                roi_loop (S i_ROI) rest max_label_for_relabeling in
              ((dfs ++ ws ++ ws')%list, r)
          | (ws, Err e) => ((dfs ++ ws)%list, Err e)
          end
      end
  end.
End Loop.

End NapariWorkflowsRelabeling.

(** * Auxiliary definitions

    Predicates, specification functions and examples used in the statements
    below. *)

Section ZattrsDefinitions.
Import LibZattrsUtils.

(** The scale transformation with the given components. *)
Definition scale_dict (s : list Qc) : transformation :=
  Transformation (Some "scale") {[ "scale" := s ]}.

(** A dataset with a path and a list of transformations. *)
Definition dataset_dict (path : string) (ts : list transformation)
    : gmap string dval :=
  {[ "path" := DStr path; coordT := DTransformations ts ]}.

(** What the loop body does to a transformation, for a prefactor [p]:
    a ["scale"] with at least three components keeps the first, multiplies
    the second and the third and loses the others. *)
Definition rescaled (p : Qc) (t : transformation) : transformation :=
  match type_ t, vectors t !! "scale" with
  | Some "scale", Some (s0 :: s1 :: s2 :: _) =>
      scale_dict [s0; (s1 * p)%Qc; (s2 * p)%Qc]
  | _, _ => t
  end.

Definition rescaled_dataset (p : Qc) (ds : gmap string dval)
    : gmap string dval :=
  match ds !! coordT with
  | Some (DTransformations ts) =>
      <[coordT := DTransformations (rescaled p <$> ts)]> ds
  | _ => ds
  end.

(** Well-formed input: every transformation has a type, and a ["scale"]
    has (at least) three components. *)
Definition three_components (t : transformation) : Prop :=
  ∃ ty, type_ t = Some ty ∧
    (ty = "scale" → ∃ s0 s1 s2 rest, vectors t !! "scale" = Some (s0 :: s1 :: s2 :: rest)).

Definition well_formed (ds : gmap string dval) : Prop :=
  ∃ ts, ds !! coordT = Some (DTransformations ts) ∧ Forall three_components ts.

(** Applying [rescale_datasets] to its own result. *)
Definition rescale_twice (datasets : list (gmap string dval)) (c L : Z)
    : result (list (gmap string dval)) :=
  once ← rescale_datasets datasets c L; rescale_datasets once c L.

(** Input in the Z, Y, X layout: every transformation has a type, and a
    ["scale"] has exactly three components. *)
Definition zyx_transformation (t : transformation) : Prop :=
  ∃ ty, type_ t = Some ty ∧
    (ty = "scale" → ∃ s0 s1 s2, vectors t !! "scale" = Some [s0; s1; s2]).

Definition zyx_dataset (ds : gmap string dval) : Prop :=
  ∃ ts, ds !! coordT = Some (DTransformations ts) ∧ Forall zyx_transformation ts.

(** A level with C, Z, Y, X scale components [1, 1, 0.1625, 0.1625]. *)
Definition czyx_example : gmap string dval :=
  dataset_dict "0"
    [scale_dict [1%Qc; 1%Qc; Q2Qc (1625 # 10000); Q2Qc (1625 # 10000)]].

(** A level with Z, Y, X scale components [1, 0.1625, 0.1625] and a
    translation. *)
Definition zyx_example : gmap string dval :=
  dataset_dict "0"
    [scale_dict [1%Qc; Q2Qc (1625 # 10000); Q2Qc (1625 # 10000)];
     Transformation (Some "translation")
       {[ "translation" := [0%Qc; 0%Qc; 0%Qc] ]}].

(** Input in the Z, Y, X layout whose scales have no other entry than
    ["type"] and ["scale"]. *)
Definition plain_zyx_transformation (t : transformation) : Prop :=
  ∃ ty, type_ t = Some ty ∧
    (ty = "scale" → ∃ s0 s1 s2, t = scale_dict [s0; s1; s2]).

Definition plain_zyx_dataset (ds : gmap string dval) : Prop :=
  ∃ ts, ds !! coordT = Some (DTransformations ts)
        ∧ Forall plain_zyx_transformation ts.

(** A transformation whose type is not ["scale"]. *)
Definition not_scale (t : transformation) : Prop :=
  ∃ ty, type_ t = Some ty ∧ ty ≠ "scale".

End ZattrsDefinitions.

Section NgffDefinitions.
Import LibNgff.

(** The vectors of the scale transformations of a list, in order. *)
Definition scales_of (ts : list CoordinateTransformation) : list (list Qc) :=
  omap (λ t, match t with
             | ScaleCoordinateTransformation s => Some s
             | TranslationCoordinateTransformation _ => None
             end) ts.

(** The four exceptions of the single-multiscale and no-global-transformation
    checks (two per library). *)
Definition multiscale_exn (e : exn) : Prop :=
  e = Raise NotImplementedError "Only images with one multiscale are supported"
  ∨ e = Raise NotImplementedError
          "Global CoordinateTransformations at the multiscales level"
  ∨ e = Raise Exception_ "ERROR: There are multiscales"
  ∨ e = Raise NotImplementedError
          "global coordinateTransformations at the multiscales level".

(** [r] does not raise one of them. *)
Definition passes_multiscale_checks {A} (r : result A) : Prop :=
  ∀ e, r = Err e → ¬ multiscale_exn e.

(** A single level with axes c, z, y, x whose channel scale is [1e-10]. *)
Definition small_channel_example : NgffImageMeta.t :=
  NgffImageMeta.Build
    [Multiscale.Build None
       [Dataset.Build "0"
          [ScaleCoordinateTransformation
             [Q2Qc (1 # 10000000000); 1%Qc; 1%Qc; 1%Qc]]]
       None
       [Axis.Build "c" (Some "channel"); Axis.Build "z" (Some "space");
        Axis.Build "y" (Some "space"); Axis.Build "x" (Some "space")]
       None].

End NgffDefinitions.

Section NgffMetaDefinitions.
Import LibNgff.
Import NgffImageMeta.

Definition single_level_example : NgffImageMeta.t :=
  NgffImageMeta.Build
    [Multiscale.Build None
       [Dataset.Build "0"
          [ScaleCoordinateTransformation
             [1%Qc; 1%Qc; Q2Qc (1625 # 10000); Q2Qc (1625 # 10000)]]]
       None
       [Axis.Build "c" (Some "channel"); Axis.Build "z" (Some "space");
        Axis.Build "y" (Some "space"); Axis.Build "x" (Some "space")]
       None].

(** The rounded ratio of component [k] between the levels [i - 1] and [i]
    of a list of pixel sizes: the quotient as a [float], then [round]. *)
Definition level_ratio (k : Qc * Qc * Qc → Qc) (ps : list (Qc * Qc * Qc))
    (i : nat) : result Z :=
  match ps !! i, ps !! (i - 1)%nat with
  | Some a, Some b => round_float (binary64 (k a / k b))
  | _, _ => Ok 0
  end.

Definition too_small_exn : exn :=
  Raise ValueError "Pixel sizes at level are too small".

(** [r] does not raise [too_small_exn]. *)
Definition passes_floor {A} (r : result A) : Prop := r ≠ Err too_small_exn.

(** [v] is the component of the scale [s] at the position of the "z", "y"
    or "x" axis. *)
Definition zyx_component (self : NgffImageMeta.t) (s : list Qc) (v : Qc) : Prop :=
  ∃ name i ax, name ∈ ["z"; "y"; "x"] ∧ axes self = Ok ax ∧
    index ax name = Ok i ∧ getitem s i = Ok v.

(** Two levels with axes c, z, y, x and pixel sizes 0.1625 and 0.325. *)
Definition two_level_example : NgffImageMeta.t :=
  NgffImageMeta.Build
    [Multiscale.Build None
       [Dataset.Build "0"
          [ScaleCoordinateTransformation
             [1%Qc; 1%Qc; Q2Qc (1625 # 10000); Q2Qc (1625 # 10000)]];
        Dataset.Build "1"
          [ScaleCoordinateTransformation
             [1%Qc; 1%Qc; Q2Qc (325 # 1000); Q2Qc (325 # 1000)]]]
       None
       [Axis.Build "c" (Some "channel"); Axis.Build "z" (Some "space");
        Axis.Build "y" (Some "space"); Axis.Build "x" (Some "space")]
       None].

Definition two_level_pixel_sizes : list (Qc * Qc * Qc) :=
  [(1%Qc, Q2Qc (1625 # 10000), Q2Qc (1625 # 10000));
   (1%Qc, Q2Qc (325 # 1000), Q2Qc (325 # 1000))].

Definition zyx_axes : list Axis.t :=
  [Axis.Build "z" (Some "space"); Axis.Build "y" (Some "space");
   Axis.Build "x" (Some "space")].

(** Two levels with Y pixel sizes 1 and 3 and with the X pixel sizes
    [1 + 3 * 2**-52] and [2.5 + 2**-49]: the real quotient of the X sizes
    is above 2.5, the [float] quotient is 2.5. *)
Definition tie_example : NgffImageMeta.t :=
  NgffImageMeta.Build
    [Multiscale.Build None
       [Dataset.Build "0"
          [ScaleCoordinateTransformation
             [1%Qc; 1%Qc; (Qc_of_Z (2 ^ 52 + 3) / Qc_of_Z (2 ^ 52))%Qc]];
        Dataset.Build "1"
          [ScaleCoordinateTransformation
             [1%Qc; Qc_of_Z 3;
              (Qc_of_Z (5 * 2 ^ 48 + 1) / Qc_of_Z (2 ^ 49))%Qc]]]
       None zyx_axes None].



(** Two levels whose second level has the smaller pixels: Y and X pixel
    sizes 1 and 0.25. *)
Definition finer_second_level_example : NgffImageMeta.t :=
  NgffImageMeta.Build
    [Multiscale.Build None
       [Dataset.Build "0" [ScaleCoordinateTransformation [1%Qc; 1%Qc; 1%Qc]];
        Dataset.Build "1"
          [ScaleCoordinateTransformation
             [1%Qc; (/ Qc_of_Z 4)%Qc; (/ Qc_of_Z 4)%Qc]]]
       None zyx_axes None].

(** Two levels with Y and X pixel sizes [2**-29] and [2**1023]: the
    quotient is beyond the largest [float]. *)
Definition overflow_example : NgffImageMeta.t :=
  NgffImageMeta.Build
    [Multiscale.Build None
       [Dataset.Build "0"
          [ScaleCoordinateTransformation
             [1%Qc; (/ Qc_of_Z (2 ^ 29))%Qc; (/ Qc_of_Z (2 ^ 29))%Qc]];
        Dataset.Build "1"
          [ScaleCoordinateTransformation
             [1%Qc; Qc_of_Z (2 ^ 1023); Qc_of_Z (2 ^ 1023)]]]
       None zyx_axes None].

End NgffMetaDefinitions.

Section RoiDefinitions.
Import Roi.

(** The indices of a row, when nothing raises. *)
Definition row_indices (level c : Z) (pxl_z pxl_y pxl_x : Qc)
    (origin_x origin_y origin_z : Qc) (row : ROIRow) : ROIIndices :=
  let at_level i := round (Qc_of_Z i / Qc_of_Z (c ^ level)) in
  {| start_z := round ((z_micrometer row - origin_z) / pxl_z);
     end_z := round ((z_micrometer row - origin_z + len_z_micrometer row) / pxl_z);
     start_y := at_level (round ((y_micrometer row - origin_y) / pxl_y));
     end_y := at_level
                (round ((y_micrometer row - origin_y + len_y_micrometer row) / pxl_y));
     start_x := at_level (round ((x_micrometer row - origin_x) / pxl_x));
     end_x := at_level
                (round ((x_micrometer row - origin_x + len_x_micrometer row) / pxl_x))
  |}%Qc.

(** The relation between the indices of a row at two adjacent levels. *)
Definition adjacent_levels (c : Z) (lower upper : ROIIndices) : Prop :=
  start_z upper = start_z lower ∧ end_z upper = end_z lower
  ∧ extent_z upper = extent_z lower
  ∧ Z.abs (c * extent_y upper - extent_y lower) ≤ c + 1
  ∧ Z.abs (c * extent_x upper - extent_x lower) ≤ c + 1.

(** The scenario of the specification: pixel sizes (1.0, 0.1625, 0.1625),
    [coarsening_xy = 2], a ROI of 10 x 10 x 1 micrometers at the origin. *)
Definition scenario_pxl : Qc := Q2Qc (1625 # 10000).
Definition scenario_row : ROIRow :=
  {| x_micrometer := 0; y_micrometer := 0; z_micrometer := 0;
     len_x_micrometer := Qc_of_Z 10; len_y_micrometer := Qc_of_Z 10;
     len_z_micrometer := 1 |}%Qc.

End RoiDefinitions.

Section FurtherZattrsDefinitions.
Import LibZattrsUtils.

(** How [rescale_datasets] relates a transformation to its image. *)
Definition transformation_rescaled (c L : Z) (t t' : transformation) : Prop :=
  (type_ t ≠ Some "scale" ∧ t' = t)
  ∨ (type_ t = Some "scale"
     ∧ ∃ s0 s1 s2 rest p,
         vectors t !! "scale" = Some (s0 :: s1 :: s2 :: rest)
         ∧ pow c L = Ok p
         ∧ t' = scale_dict [s0; (s1 * p)%Qc; (s2 * p)%Qc]).

(** How [rescale_datasets], applied to its own result, relates a
    transformation to its second image: the Y and X components of a
    ["scale"] are multiplied by [p], and the products by [p] again. *)
Definition transformation_rescaled_twice (c L : Z) (t t'' : transformation)
    : Prop :=
  (type_ t ≠ Some "scale" ∧ t'' = t)
  ∨ (type_ t = Some "scale"
     ∧ ∃ s0 s1 s2 rest p,
         vectors t !! "scale" = Some (s0 :: s1 :: s2 :: rest)
         ∧ pow c L = Ok p
         ∧ t'' = scale_dict [s0; (s1 * p * p)%Qc; (s2 * p * p)%Qc]).

Definition dataset_rescaled_twice (c L : Z) (ds ds'' : gmap string dval)
    : Prop :=
  ∃ ts'', ds'' = <[coordT := DTransformations ts'']> ds
    ∧ ∀ ts, ds !! coordT = Some (DTransformations ts) →
        Forall2 (transformation_rescaled_twice c L) ts ts''.

(** The second multiplication by [p] changes neither the Y nor the X
    component of the ["scale"] [t]. *)
Definition second_product_idle (c L : Z) (t : transformation) : Prop :=
  type_ t = Some "scale" →
  ∀ s0 s1 s2 rest p,
    vectors t !! "scale" = Some (s0 :: s1 :: s2 :: rest) → pow c L = Ok p →
    (s1 * p * p = s1 * p)%Qc ∧ (s2 * p * p = s2 * p)%Qc.

Definition second_pass_idle (c L : Z) (ds : gmap string dval) : Prop :=
  ∀ ts, ds !! coordT = Some (DTransformations ts) →
    Forall (second_product_idle c L) ts.

(** The dataset has a transformation that the loop body cannot handle: no
    ["type"], or a ["scale"] type without a ["scale"] entry or with fewer
    than three components. *)
Definition malformed_transformation (t : transformation) : Prop :=
  type_ t = None
  ∨ (type_ t = Some "scale"
     ∧ ∀ s, vectors t !! "scale" = Some s → (length s < 3)%nat).

Definition malformed_dataset (ds : gmap string dval) : Prop :=
  ds !! coordT = None
  ∨ ∃ ts t, ds !! coordT = Some (DTransformations ts) ∧ t ∈ ts
            ∧ malformed_transformation t.

(** Datasets without any ["scale"]: every transformation has a type other
    than ["scale"]. *)
Definition scale_free (ds : gmap string dval) : Prop :=
  ∃ ts, ds !! coordT = Some (DTransformations ts) ∧ Forall not_scale ts.

Definition translation_only_example : gmap string dval :=
  dataset_dict "0"
    [Transformation (Some "translation")
       {[ "translation" := [0%Qc; 0%Qc; 0%Qc] ]}].

(** Some dataset of the list has a ["scale"]. *)
Definition has_scale (datasets : list (gmap string dval)) : Prop :=
  ∃ ds ts t, ds ∈ datasets ∧ ds !! coordT = Some (DTransformations ts)
             ∧ t ∈ ts ∧ type_ t = Some "scale".

Definition one_level_zattrs (ds : gmap string dval) : zattrs :=
  Zattrs (Some [Multiscale None (Some [ds])]).

(** A level with two scale transformations. *)
Definition two_scales_example : gmap string dval :=
  dataset_dict "0"
    [scale_dict [1%Qc; 1%Qc; 1%Qc];
     scale_dict [Qc_of_Z 2; Qc_of_Z 2; Qc_of_Z 2]].

(** The message of the [KeyError] that the [except] clause raises. *)
Definition failed_KeyError : exn :=
  Raise KeyError "extract_zyx_pixel_sizes_from_zattrs failed".

(** The ["multiscales"] attribute written for a label image: one
    multiscale, with the keys ["name"], ["version"], ["axes"] and
    ["datasets"], the latter holding the rescaled datasets. *)
Definition label_zattrs (new_datasets : list (gmap string dval)) : zattrs :=
  Zattrs (Some [Multiscale None (Some new_datasets)]).

End FurtherZattrsDefinitions.

Section FurtherNgffDefinitions.
Import LibNgff.
Import NgffImageMeta.

Definition yx_only_example : NgffImageMeta.t :=
  NgffImageMeta.Build
    [Multiscale.Build None
       [Dataset.Build "0" [ScaleCoordinateTransformation [1%Qc; 1%Qc]];
        Dataset.Build "1" [ScaleCoordinateTransformation [2%Qc; 2%Qc]]]
       None
       [Axis.Build "c" (Some "channel"); Axis.Build "y" (Some "space")]
       None].

(** [r] returns, or raises an exception of one of the classes [cs]. *)
Definition raises_within {A} (cs : list exn_class) (r : result A) : Prop :=
  match r with Ok _ => True | Err e => class_of e ∈ cs end.

(** The classes of the exceptions that the properties of an image raise. *)
Definition ngff_classes : list exn_class :=
  [NotImplementedError; IndexError; ValueError].

(** The multiscale passes its validator and its field constraints. *)
Definition accepted_multiscale (ms : Multiscale.t) : Prop :=
  Multiscale.CoordinateTransformations ms = None
  ∧ Multiscale.valid_fields ms = true.

(** The components of a transformation. *)
Definition components (t : CoordinateTransformation) : list Qc :=
  match t with
  | ScaleCoordinateTransformation l
  | TranslationCoordinateTransformation l => l
  end.

(** The size constraints of a multiscale: no global transformations, at
    least one dataset, in each dataset at least one transformation, in
    each transformation at least two components, and two to five axes. *)
Definition sized_multiscale (ms : Multiscale.t) : Prop :=
  Multiscale.CoordinateTransformations ms = None
  ∧ (1 ≤ length (Multiscale.datasets ms))%nat
  ∧ (∀ d, d ∈ Multiscale.datasets ms →
       (1 ≤ length (Dataset.CoordinateTransformations d))%nat
       ∧ ∀ t, t ∈ Dataset.CoordinateTransformations d →
           (2 ≤ length (components t))%nat)
  ∧ (2 ≤ length (Multiscale.axes ms) ≤ 5)%nat.

End FurtherNgffDefinitions.

Section WellDefinitions.
Import LibNgffWell.
Import NgffWellMeta.

(** The acquisitions of the images that have one, in order. *)
Definition acquisitions (images : list Image.t) : list Z :=
  omap Image.acquisition images.

(** The two exceptions of the loop. *)
Definition missing_acquisition {A} (r : result A) : Prop :=
  r = Err (Raise ValueError
             "Cannot get acquisition paths for Zarr files without 'acquisition' metadata at the well level").

Definition repeated_acquisition {A} (r : result A) : Prop :=
  r = Err (Raise NotImplementedError
             "This task is not implemented for wells with multiple images of the same acquisition").

End WellDefinitions.

Section RelabelingDefinitions.
Import Roi.
Import NapariWorkflowsRelabeling.

(** The positive labels that a write puts into a label array. *)
Definition positive_labels (w : write) : list Z :=
  match w with
  | to_zarr _ _ _ values => filter (λ v, 0 < v) values
  | append_dataframe _ _ _ => []
  end.

(** Every positive label of a write is smaller than every positive label
    of a later write. *)
Definition separated (ws : list write) : Prop :=
  ∀ i j w1 w2 v1 v2,
    (i < j)%nat → ws !! i = Some w1 → ws !! j = Some w2 →
    v1 ∈ positive_labels w1 → v2 ∈ positive_labels w2 → v1 < v2.

(** The positive labels of [ws] lie above [lo] / up to [hi]. *)
Definition labels_above (lo : Z) (ws : list write) : Prop :=
  ∀ w v, w ∈ ws → v ∈ positive_labels w → lo < v.

Definition labels_upto (hi : Z) (ws : list write) : Prop :=
  ∀ w v, w ∈ ws → v ∈ positive_labels w → v ≤ hi.

End RelabelingDefinitions.

Section OffsetDefinitions.
Import Roi.
Import NapariWorkflowsScope.
Import NapariWorkflowsRelabeling.

(** [int(np.max(mask))] of the label output [name] in the ROI number
    [j]. *)
Definition num_labels (label_mask : nat → string → mask) (name : string)
    (j : nat) : Z :=
  match np_max (values (label_mask j name)) with
  | Ok m => m
  | Err _ => 0
  end.

(** The sum of [num_labels] over the ROIs before the ROI number [i]. *)
Fixpoint roi_offset (label_mask : nat → string → mask) (name : string)
    (i : nat) : Z :=
  match i with
  | O => 0
  | S j => roi_offset label_mask name j + num_labels label_mask name j
  end.

(** The values of an array to whose positive values [n] was added, when
    every sum is the sum of integers (no sum leaves the dtype). *)
Definition add_to_positive (n : Z) (values : list Z) : list Z :=
  (λ v, if decide (0 < v) then v + n else v) <$> values.

(** The additions in place when every sum is the sum of integers. *)
Definition exact_iadd_label (dataframe_labels : nat → string → list Z)
    (i : nat) (name : string) (n : Z) : result (list Z) :=
  Ok ((λ l, l + n) <$> dataframe_labels i name).

Definition exact_iadd_positive (label_mask : nat → string → mask)
    (i : nat) (name : string) (n : Z) : result (list Z) :=
  Ok (add_to_positive n (values (label_mask i name))).

(** The addition to the positive values of a [uint8] array: the sums are
    taken modulo 256. *)
Definition uint8_iadd_positive (label_mask : nat → string → mask)
    (i : nat) (name : string) (n : Z) : result (list Z) :=
  Ok ((λ v, if decide (0 < v) then (v + n) mod 256 else v)
        <$> values (label_mask i name)).

(** What a write holds when nothing was added. *)
Definition not_relabeled (dataframe_labels : nat → string → list Z)
    (label_mask : nat → string → mask) (w : write) : Prop :=
  match w with
  | append_dataframe i output_name labels =>
      labels = dataframe_labels i output_name
  | to_zarr i output_name _ new_values =>
      new_values = values (label_mask i output_name)
  end.

(** The write belongs to the ROI number [i], with region [region]. *)
Definition in_roi (i : nat) (region : ROIIndices) (w : write) : Prop :=
  match w with
  | append_dataframe i' _ _ => i' = i
  | to_zarr i' _ region' _ => i' = i ∧ region' = region
  end.

(** What a write of the ROI loop holds when [offset i] was handed to the
    additions in the ROI number [i]. *)
Definition relabeled_by (iadd_label iadd_positive : nat → string → Z
                                                    → result (list Z))
    (offset : nat → Z) (w : write) : Prop :=
  match w with
  | append_dataframe i output_name labels =>
      iadd_label i output_name (offset i) = Ok labels
  | to_zarr i output_name _ new_values =>
      iadd_positive i output_name (offset i) = Ok new_values
  end.

(** The writes of one ROI when nothing is added: the dataframes of the
    dataframe outputs, then the arrays of the label outputs. *)
Definition plain_dataframes (dataframe_labels : nat → string → list Z)
    (i : nat) (outputs : list (string * string)) : list write :=
  omap (λ '(output_name, ty),
          if decide (ty = "dataframe") then
            Some (append_dataframe i output_name
                    (dataframe_labels i output_name))
          else None) outputs.

Definition plain_labels (label_mask : nat → string → mask) (i : nat)
    (region : ROIIndices) (outputs : list (string * string)) : list write :=
  omap (λ '(output_name, ty),
          if decide (ty = "label") then
            Some (to_zarr i output_name region
                    (values (label_mask i output_name)))
          else None) outputs.

Fixpoint plain_writes (dataframe_labels : nat → string → list Z)
    (label_mask : nat → string → mask) (outputs : list (string * string))
    (i : nat) (list_indices : list ROIIndices) : list write :=
  match list_indices with
  | [] => []
  | region :: rest =>
      (plain_dataframes dataframe_labels i outputs
       ++ plain_labels label_mask i region outputs
       ++ plain_writes dataframe_labels label_mask outputs (S i) rest)%list
  end.

(** The array of the label output [name] in the ROI number [i] has the
    expected number of dimensions and is not empty. *)
Definition passes_checks (label_mask : nat → string → mask)
    (expected_dimensions : Z) (i : nat) (name : string) : Prop :=
  Z.of_nat (length (shape (label_mask i name))) = expected_dimensions
  ∧ values (label_mask i name) ≠ [].

Definition label_outputs_pass (label_mask : nat → string → mask)
    (expected_dimensions : Z) (i : nat) (outputs : list (string * string))
    : Prop :=
  ∀ name, (name, "label") ∈ outputs →
    passes_checks label_mask expected_dimensions i name.

Definition example_region : ROIIndices :=
  {| start_z := 0; end_z := 1; start_y := 0; end_y := 1;
     start_x := 0; end_x := 2 |}.

(** In every ROI the workflow finds the background and one object. *)
Definition example_mask (i : nat) (name : string) : mask :=
  Mask [1; 1; 2]%nat [0; 1].

(** In every ROI the workflow finds the background and an object with the
    label 200. *)
Definition example_mask_200 (i : nat) (name : string) : mask :=
  Mask [1; 1; 2]%nat [0; 200].

Definition example_dataframe (i : nat) (name : string) : list Z := [1].

Definition example_outputs : list (string * string) :=
  [("out_1", "label"); ("out_2", "dataframe")].

End OffsetDefinitions.

(** * Properties *)

(** ** The [result] monad and [for_each] *)
Section ForEach.
Context {A B : Type}.
Implicit Types (f : A → result B) (l : list A).

Lemma for_each_map f (g : A → B) l :
  (∀ x, x ∈ l → f x = Ok (g x)) → for_each f l = Ok (g <$> l).
Proof.
  induction l as [|x l IH]; intros Hf; [done|].
  cbn. rewrite Hf by left. cbn. rewrite IH; [done|].
  intros y Hy. apply Hf. by right.
Qed.

Lemma for_each_Forall2 f l (ys : list B) :
  for_each f l = Ok ys → Forall2 (λ x y, f x = Ok y) l ys.
Proof.
  revert ys. induction l as [|x l IH]; intros ys'; cbn.
  - intros [= <-]. constructor.
  - destruct (f x) as [y|e] eqn:Hx; cbn; [|done].
    destruct (for_each f l) as [ys|e]; cbn; [|done].
    intros [= <-]. constructor; auto.
Qed.

Lemma for_each_length f l (ys : list B) :
  for_each f l = Ok ys → length ys = length l.
Proof. intros H. symmetry. eapply Forall2_length, for_each_Forall2, H. Qed.

Lemma for_each_raises f l x :
  x ∈ l → raises (f x) → raises (for_each f l).
Proof.
  induction l as [|y l IH]; intros Hin Hx; [by apply elem_of_nil in Hin|].
  cbn. apply elem_of_cons in Hin as [<-|Hin].
  - destruct (f x); done.
  - destruct (f y); cbn; [|done].
    specialize (IH Hin Hx). destruct (for_each f l); done.
Qed.

Lemma for_each_Err f l e :
  for_each f l = Err e → ∃ x, x ∈ l ∧ f x = Err e.
Proof.
  induction l as [|y l IH]; cbn; [done|].
  destruct (f y) as [b|e'] eqn:Hy; cbn.
  - destruct (for_each f l) as [bs|e'] eqn:Hl; cbn; [done|].
    intros [= ->]. destruct IH as (x & Hin & Hx); [done|].
    exists x. split; [by right|done].
  - intros [= ->]. exists y. split; [by left|done].
Qed.
End ForEach.

(** ** Indexing *)
Lemma getitem_nonneg {A} (l : list A) (i : Z) :
  0 ≤ i →
  getitem l i =
    if Z.of_nat (length l) <=? i
    then Err (Raise IndexError "list index out of range")
    else match l !! Z.to_nat i with
         | Some x => Ok x
         | None => Err (Raise IndexError "list index out of range")
         end.
Proof.
  intros Hi. assert ((i <? 0) = false) as Hneg by lia.
  unfold getitem. cbv zeta. rewrite Hneg. cbv iota. rewrite Hneg. reflexivity.
Qed.

Lemma getitem_lookup {A} (l : list A) (i : Z) (x : A) :
  0 ≤ i → l !! Z.to_nat i = Some x → getitem l i = Ok x.
Proof.
  intros Hi Hx. rewrite getitem_nonneg by done.
  pose proof (lookup_lt_Some _ _ _ Hx) as Hlt.
  assert ((Z.of_nat (length l) <=? i) = false) as -> by lia.
  by rewrite Hx.
Qed.

Lemma getitem_out_of_range {A} (l : list A) (i : Z) :
  Z.of_nat (length l) ≤ i → raises (getitem l i).
Proof.
  intros Hi. rewrite getitem_nonneg by lia.
  assert ((Z.of_nat (length l) <=? i) = true) as -> by lia.
  exact I.
Qed.

Lemma getitem_Ok_lookup {A} (l : list A) (i : Z) (x : A) :
  0 ≤ i → getitem l i = Ok x → l !! Z.to_nat i = Some x.
Proof.
  intros Hi. rewrite getitem_nonneg by done.
  destruct (_ <=? _); [done|].
  destruct (l !! Z.to_nat i); [|done]. by intros [= ->].
Qed.

(** ** [rescale_datasets] *)
Section Rescale.
Import LibZattrsUtils.

Lemma rescale_transformation_rescaled c L p t :
  pow c L = Ok p → three_components t →
  rescale_transformation c L t = Ok (rescaled p t).
Proof.
  intros Hp (ty & Hty & Hs). unfold rescale_transformation, rescaled, get_type.
  rewrite Hty. cbn. destruct (decide (ty = "scale")) as [->|Hne].
  - destruct (Hs eq_refl) as (s0 & s1 & s2 & rest & Hv).
    unfold getitem_dict. rewrite Hv, Hp. cbn.
    rewrite (getitem_lookup _ 0 s0), (getitem_lookup _ 1 s1),
      (getitem_lookup _ 2 s2) by (done || lia). reflexivity.
  - destruct ty as [|a ty]; [done|].
    destruct (vectors t !! "scale"); [|by repeat case_match].
    repeat case_match; simplify_eq; done.
Qed.

Lemma insert_filter_ne (ds : gmap string dval) v :
  <[coordT := v]> (filter (λ kv, kv.1 ≠ coordT) ds) = <[coordT := v]> ds.
Proof.
  apply map_eq. intros k. destruct (decide (k = coordT)) as [->|Hne].
  - by rewrite !lookup_insert_eq.
  - rewrite !lookup_insert_ne by done.
    destruct (ds !! k) as [x|] eqn:Hk.
    + apply map_lookup_filter_Some. done.
    + apply map_lookup_filter_None. left. done.
Qed.

Lemma rescale_dataset_rescaled c L p ds :
  pow c L = Ok p → well_formed ds →
  rescale_dataset c L ds = Ok (rescaled_dataset p ds).
Proof.
  intros Hp (ts & Hts & Hwf). unfold rescale_dataset, rescaled_dataset, getitem_dict.
  rewrite Hts. cbn.
  rewrite (for_each_map _ (rescaled p)).
  - cbn. by rewrite insert_filter_ne.
  - intros t Ht. apply rescale_transformation_rescaled; [done|].
    exact (proj1 (Forall_forall _ _) Hwf t Ht).
Qed.

Lemma rescale_datasets_rescaled c L p datasets :
  pow c L = Ok p → Forall well_formed datasets →
  rescale_datasets datasets c L = Ok (rescaled_dataset p <$> datasets).
Proof.
  intros Hp Hwf. apply for_each_map. intros ds Hds.
  apply rescale_dataset_rescaled; [done|].
  exact (proj1 (Forall_forall _ _) Hwf ds Hds).
Qed.

(** Every key other than ["coordinateTransformations"] is copied. *)
Lemma rescale_dataset_other_keys c L ds new_ds k :
  rescale_dataset c L ds = Ok new_ds → k ≠ coordT → new_ds !! k = ds !! k.
Proof.
  unfold rescale_dataset. destruct (getitem_dict ds coordT); cbn; [|done].
  destruct (rescale_transformations c L a); cbn; [|done].
  intros [= <-] Hk. rewrite insert_filter_ne. by rewrite lookup_insert_ne.
Qed.
End Rescale.

Section RescaleInversion.
Import LibZattrsUtils.

Lemma getitem_cons_0 {A} (x : A) l : getitem (x :: l) 0 = Ok x.
Proof. by apply getitem_lookup. Qed.

Lemma getitem_inv_3 {A} (s : list A) a b c :
  getitem s 0 = Ok a → getitem s 1 = Ok b → getitem s 2 = Ok c →
  ∃ rest, s = a :: b :: c :: rest.
Proof.
  intros H0 H1 H2.
  apply getitem_Ok_lookup in H0; [|lia]. apply getitem_Ok_lookup in H1; [|lia].
  apply getitem_Ok_lookup in H2; [|lia].
  change (Z.to_nat 0) with 0%nat in H0. change (Z.to_nat 1) with 1%nat in H1.
  change (Z.to_nat 2) with 2%nat in H2.
  destruct s as [|x [|y [|z rest]]]; try done.
  cbn in H0, H1, H2. exists rest. congruence.
Qed.

Lemma rescale_transformation_Ok c L t t' :
  rescale_transformation c L t = Ok t' → transformation_rescaled c L t t'.
Proof.
  unfold rescale_transformation, get_type.
  destruct (type_ t) as [ty|] eqn:Hty; [|done]. cbn [mbind result_bind].
  destruct (decide (ty = "scale")) as [->|Hne].
  - unfold getitem_dict. destruct (vectors t !! "scale") as [s|] eqn:Hs; [|done].
    cbn [mbind result_bind].
    destruct (getitem s 0) as [s0|] eqn:H0; [|done]. cbn [mbind result_bind].
    destruct (getitem s 1) as [s1|] eqn:H1; [|done]. cbn [mbind result_bind].
    destruct (pow c L) as [p|] eqn:Hp; [|done]. cbn [mbind result_bind].
    destruct (getitem s 2) as [s2|] eqn:H2; [|done]. cbn [mbind result_bind].
    intros Heq. right. split; [done|].
    destruct (getitem_inv_3 s s0 s1 s2 H0 H1 H2) as [rest ->].
    exists s0, s1, s2, rest, p. repeat split; try done.
    symmetry. assert (∀ x y : transformation, Ok x = Ok y → x = y) as Hinj
      by (by intros x y [=]). by apply Hinj.
  - intros Heq. left. split; [congruence|].
    assert (∀ x y : transformation, Ok x = Ok y → x = y) as Hinj
      by (by intros x y [=]). symmetry. by apply Hinj.
Qed.

Lemma rescale_dataset_Ok c L ds new_ds :
  rescale_dataset c L ds = Ok new_ds →
  ∃ old new_ts,
    ds !! coordT = Some old
    ∧ rescale_transformations c L old = Ok new_ts
    ∧ new_ds = <[coordT := DTransformations new_ts]> ds.
Proof.
  unfold rescale_dataset, getitem_dict.
  destruct (ds !! coordT) as [old|] eqn:Hold; [|done]. cbn [mbind result_bind].
  destruct (rescale_transformations c L old) as [new_ts|] eqn:Hnew; [|done].
  cbn [mbind result_bind]. rewrite insert_filter_ne. intros Heq.
  exists old, new_ts. repeat split; try done.
  assert (∀ x y : gmap string dval, Ok x = Ok y → x = y) as Hinj
    by (by intros x y [=]). symmetry. by apply Hinj.
Qed.
End RescaleInversion.

Section RescaleTwice.
Import LibZattrsUtils.

Lemma zyx_three_components t : zyx_transformation t → three_components t.
Proof.
  intros (ty & Hty & Hs). exists ty. split; [done|].
  intros Heq. destruct (Hs Heq) as (s0 & s1 & s2 & Hv). by exists s0, s1, s2, [].
Qed.

Lemma zyx_well_formed ds : zyx_dataset ds → well_formed ds.
Proof.
  intros (ts & Hts & Hall). exists ts. split; [done|].
  eapply Forall_impl; [exact Hall|]. apply zyx_three_components.
Qed.

Lemma scale_dict_lookup s : vectors (scale_dict s) !! "scale" = Some s.
Proof. apply lookup_singleton_eq. Qed.

Lemma rescaled_scale p t s0 s1 s2 rest :
  type_ t = Some "scale" → vectors t !! "scale" = Some (s0 :: s1 :: s2 :: rest) →
  rescaled p t = scale_dict [s0; (s1 * p)%Qc; (s2 * p)%Qc].
Proof. intros Hty Hv. unfold rescaled. by rewrite Hty, Hv. Qed.

Lemma rescaled_other p t ty :
  type_ t = Some ty → ty ≠ "scale" → rescaled p t = t.
Proof.
  intros Hty Hne. unfold rescaled. rewrite Hty.
  destruct (vectors t !! "scale"); repeat case_match; simplify_eq; done.
Qed.

Lemma rescaled_zyx p t : zyx_transformation t → zyx_transformation (rescaled p t).
Proof.
  intros (ty & Hty & Hs). destruct (decide (ty = "scale")) as [->|Hne].
  - destruct (Hs eq_refl) as (s0 & s1 & s2 & Hv).
    rewrite (rescaled_scale p t s0 s1 s2 []) by done.
    exists "scale". split; [done|]. intros _.
    exists s0, (s1 * p)%Qc, (s2 * p)%Qc. apply lookup_singleton_eq.
  - rewrite (rescaled_other p t ty) by done. by exists ty.
Qed.

Lemma rescaled_dataset_zyx p ds :
  zyx_dataset ds → zyx_dataset (rescaled_dataset p ds).
Proof.
  intros (ts & Hts & Hall). unfold rescaled_dataset. rewrite Hts.
  exists (rescaled p <$> ts). split; [apply lookup_insert_eq|].
  apply Forall_fmap. eapply Forall_impl; [exact Hall|].
  intros t. apply rescaled_zyx.
Qed.

Lemma Qc_of_Z_0 : Qc_of_Z 0 = 0%Qc.
Proof. by apply Qc_is_canon. Qed.

Lemma rescale_transformation_again c L t t' :
  rescale_transformation c L t = Ok t' →
  ∃ t'', rescale_transformation c L t' = Ok t''
    ∧ transformation_rescaled_twice c L t t''
    ∧ (t'' = t' ↔ second_product_idle c L t).
Proof.
  intros H. pose proof (rescale_transformation_Ok c L t t' H)
    as [[Hty ->]|(Hty & s0 & s1 & s2 & rest & p & Hv & Hp & ->)].
  - exists t. split; [done|]. split; [by left|]. split; [|done].
    intros _ Hs. by destruct Hty.
  - exists (scale_dict [s0; (s1 * p * p)%Qc; (s2 * p * p)%Qc]). split.
    { rewrite (rescale_transformation_rescaled c L p); [|done|].
      - by rewrite (rescaled_scale p _ s0 (s1 * p)%Qc (s2 * p)%Qc []);
          [|reflexivity|apply scale_dict_lookup].
      - exists "scale". split; [reflexivity|]. intros _.
        exists s0, (s1 * p)%Qc, (s2 * p)%Qc, []. apply scale_dict_lookup. }
    split; [right; split; [done|]; by exists s0, s1, s2, rest, p|]. split.
    + intros Heq _ s0' s1' s2' rest' p' Hv' Hp'.
      rewrite Hv in Hv'. rewrite Hp in Hp'.
      assert (s1' = s1 ∧ s2' = s2 ∧ p' = p) as (-> & -> & ->)
        by (split; [|split]; congruence).
      apply (f_equal (λ t, vectors t !! "scale")) in Heq.
      rewrite !scale_dict_lookup in Heq. split; congruence.
    + intros Hidle. by destruct (Hidle Hty s0 s1 s2 rest p Hv Hp) as [-> ->].
Qed.

(** Running a loop on its own result. *)
Lemma for_each_again {X} (f : X → result X) (R : X → X → Prop) (P : X → Prop)
    l l' :
  (∀ x x', f x = Ok x' → ∃ x'', f x' = Ok x'' ∧ R x x'' ∧ (x'' = x' ↔ P x)) →
  for_each f l = Ok l' →
  ∃ l'', for_each f l' = Ok l'' ∧ Forall2 R l l'' ∧ (l'' = l' ↔ Forall P l).
Proof.
  intros Hf. revert l'. induction l as [|x l IH]; intros l' H.
  - assert (l' = []) as -> by (cbn in H; congruence).
    exists []. by repeat split.
  - cbn in H. destruct (f x) as [x'|] eqn:Hx; [|done]. cbn in H.
    destruct (for_each f l) as [l1|] eqn:Hl; [|done]. cbn in H.
    assert (l' = x' :: l1) as -> by congruence.
    destruct (Hf x x' Hx) as (x'' & Hx' & HR & Hiff).
    destruct (IH l1 eq_refl) as (l'' & Hl' & HR' & Hiff').
    exists (x'' :: l''). cbn. rewrite Hx'. cbn. rewrite Hl'. cbn.
    split; [done|]. split; [by constructor|].
    rewrite Forall_cons, <- Hiff, <- Hiff'.
    split; [intros Heq; split; congruence|by intros [-> ->]].
Qed.

Lemma rescale_transformations_again c L old ts' :
  rescale_transformations c L old = Ok ts' →
  ∃ ts'', rescale_transformations c L (DTransformations ts') = Ok ts''
    ∧ (∀ ts, old = DTransformations ts →
         Forall2 (transformation_rescaled_twice c L) ts ts'')
    ∧ (ts'' = ts' ↔
       ∀ ts, old = DTransformations ts → Forall (second_product_idle c L) ts).
Proof.
  destruct old as [s|ts].
  - cbn. destruct (decide (s = "")); [|done]. intros Hnil.
    assert (ts' = []) as -> by congruence. exists []. by repeat split.
  - intros H.
    destruct (for_each_again _ _ _ ts ts' (rescale_transformation_again c L) H)
      as (ts'' & H1 & H2 & H3).
    exists ts''. split; [done|]. split; [by intros ? [= <-]|]. rewrite H3.
    split; [by intros ? ? [= <-]|intros Hall; by apply Hall].
Qed.

Lemma rescale_dataset_again c L ds ds' :
  rescale_dataset c L ds = Ok ds' →
  ∃ ds'', rescale_dataset c L ds' = Ok ds''
    ∧ dataset_rescaled_twice c L ds ds''
    ∧ (ds'' = ds' ↔ second_pass_idle c L ds).
Proof.
  intros H. apply rescale_dataset_Ok in H as (old & ts' & Hold & Hts' & ->).
  destruct (rescale_transformations_again c L old ts' Hts')
    as (ts'' & H1 & H2 & H3).
  exists (<[coordT := DTransformations ts'']> ds). split; [|split].
  - unfold rescale_dataset, getitem_dict. rewrite lookup_insert_eq.
    cbn [mbind result_bind]. rewrite H1. cbn [mbind result_bind].
    by rewrite insert_filter_ne, insert_insert_eq.
  - exists ts''. split; [done|]. intros ts Hts. apply H2. congruence.
  - unfold second_pass_idle. split.
    + intros Heq ts Hts. apply H3; [|congruence].
      apply (f_equal (.!! coordT)) in Heq.
      rewrite !lookup_insert_eq in Heq. congruence.
    + intros Hidle. assert (ts'' = ts') as ->; [|done].
      apply H3. intros ts ->. by apply Hidle.
Qed.

Lemma rescale_datasets_again datasets c L once :
  rescale_datasets datasets c L = Ok once →
  ∃ twice, rescale_datasets once c L = Ok twice
    ∧ Forall2 (dataset_rescaled_twice c L) datasets twice
    ∧ (twice = once ↔ Forall (second_pass_idle c L) datasets).
Proof. apply for_each_again, rescale_dataset_again. Qed.

(** A prefactor 0 or 1: the second multiplication changes nothing. *)
Lemma second_pass_idle_factor c L p datasets :
  pow c L = Ok p → p = 0%Qc ∨ p = 1%Qc →
  Forall (second_pass_idle c L) datasets.
Proof.
  intros Hp Hp01. apply Forall_forall. intros ds _ ts _.
  apply Forall_forall. intros t _ _ s0 s1 s2 rest p' _ Hp'.
  assert (p' = p) as -> by congruence.
  destruct Hp01 as [-> | ->].
  - by rewrite !Qcmult_0_r.
  - by rewrite !Qcmult_1_r.
Qed.
End RescaleTwice.

Section RescaleClaims.
Import LibZattrsUtils.

Lemma Qc_eq_bool (a b : Qc) : Qeq_bool a b = true → a = b.
Proof. intros H. by apply Qc_is_canon, Qeq_bool_iff. Qed.

Lemma Qc_neq_bool (a b : Qc) : Qeq_bool a b = false → a ≠ b.
Proof.
  intros H ->. assert (Qeq_bool b b = true) as Hb by (by apply Qeq_bool_iff).
  congruence.
Qed.

Lemma dataset_dict_lookup path ts :
  dataset_dict path ts !! coordT = Some (DTransformations ts).
Proof.
  unfold dataset_dict. rewrite lookup_insert_ne by done.
  apply lookup_singleton_eq.
Qed.

Lemma rescaled_dataset_dict p path ts :
  rescaled_dataset p (dataset_dict path ts) =
    dataset_dict path (rescaled p <$> ts).
Proof.
  unfold rescaled_dataset. rewrite dataset_dict_lookup. unfold dataset_dict.
  apply map_eq. intros k.
  destruct (decide (k = coordT)) as [->|Hk].
  - rewrite lookup_insert_eq, lookup_insert_ne by done.
    by rewrite lookup_singleton_eq.
  - rewrite lookup_insert_ne by done.
    destruct (decide (k = "path")) as [->|Hp].
    + by rewrite !lookup_insert_eq.
    + by rewrite !lookup_insert_ne, !lookup_singleton_ne by done.
Qed.

Lemma scale_dict_three_components s0 s1 s2 rest :
  three_components (scale_dict (s0 :: s1 :: s2 :: rest)).
Proof.
  exists "scale". split; [done|]. intros _.
  exists s0, s1, s2, rest. apply scale_dict_lookup.
Qed.

(** What [rescale_datasets] returns on a single dataset with a single
    scale of at least three components. *)
Lemma rescale_datasets_scale_dict c L p path s0 s1 s2 rest :
  pow c L = Ok p →
  rescale_datasets [dataset_dict path [scale_dict (s0 :: s1 :: s2 :: rest)]] c L
  = Ok [dataset_dict path [scale_dict [s0; (s1 * p)%Qc; (s2 * p)%Qc]]].
Proof.
  intros Hp. rewrite (rescale_datasets_rescaled c L p); [|done|].
  - cbn [fmap list_fmap]. rewrite rescaled_dataset_dict. cbn [fmap list_fmap].
    by rewrite (rescaled_scale p _ s0 s1 s2 rest)
      by (done || apply scale_dict_lookup).
  - repeat constructor. eexists. split; [apply dataset_dict_lookup|].
    repeat constructor. apply scale_dict_three_components.
Qed.

(** C1. On a dataset whose scale has a leading channel component,
    [rescale_datasets] with [coarsening_xy = 2] and [reference_level = 1]
    returns the scale [1, 2, 0.325]: the channel component is kept, the Z
    component (second position) and the Y component (third position) are
    doubled, and the X component (fourth position) is lost.  The components
    that are multiplied are those at positions 1 and 2, not those of the
    "y" and "x" axes. *)
Theorem rescale_datasets_leading_channel_axis :
  rescale_datasets [czyx_example] 2 1 =
    Ok [dataset_dict "0"
          [scale_dict [1%Qc; Qc_of_Z 2; Q2Qc (325 # 1000)]]].
Proof.
  unfold czyx_example.
  rewrite (rescale_datasets_scale_dict 2 1 (Qc_of_Z 2)) by reflexivity.
  assert ((1 * Qc_of_Z 2)%Qc = Qc_of_Z 2) as ->
    by (apply Qc_eq_bool; reflexivity).
  assert ((Q2Qc (1625 # 10000) * Qc_of_Z 2)%Qc = Q2Qc (325 # 1000)) as ->
    by (apply Qc_eq_bool; reflexivity).
  reflexivity.
Qed.

(** C8. On the same dataset, [rescale_datasets] with [reference_level = 0]
    does not return its input: the scale [1, 1, 0.1625, 0.1625] becomes
    [1, 1, 0.1625], the fourth component is lost. *)
Theorem rescale_datasets_level_0_leading_channel_axis :
  rescale_datasets [czyx_example] 2 0 =
    Ok [dataset_dict "0" [scale_dict [1%Qc; 1%Qc; Q2Qc (1625 # 10000)]]]
  ∧ rescale_datasets [czyx_example] 2 0 ≠ Ok [czyx_example].
Proof.
  assert (rescale_datasets [czyx_example] 2 0 =
    Ok [dataset_dict "0" [scale_dict [1%Qc; 1%Qc; Q2Qc (1625 # 10000)]]]) as H.
  { unfold czyx_example.
    rewrite (rescale_datasets_scale_dict 2 0 (Qc_of_Z 1)) by reflexivity.
    by rewrite Z2Qc_inj_1, !Qcmult_1_r. }
  split; [exact H|]. rewrite H. unfold czyx_example. intros Heq.
  assert (∀ x y : gmap string dval, Ok [x] = Ok [y] → x = y) as Hinj
    by (by intros x y [=]).
  apply Hinj in Heq.
  apply (f_equal (.!! coordT)) in Heq. rewrite !dataset_dict_lookup in Heq.
  assert (∀ x y : transformation,
            Some (DTransformations [x]) = Some (DTransformations [y]) → x = y)
    as Hinj' by (by intros x y [=]).
  apply Hinj' in Heq.
  apply (f_equal (λ t, length <$> vectors t !! "scale")) in Heq.
  rewrite !scale_dict_lookup in Heq. discriminate Heq.
Qed.
End RescaleClaims.

Section RescaleIdentity.
Import LibZattrsUtils.

Lemma plain_zyx_three_components t :
  plain_zyx_transformation t → three_components t.
Proof.
  intros (ty & Hty & Hs). exists ty. split; [done|]. intros Heq.
  destruct (Hs Heq) as (s0 & s1 & s2 & ->).
  exists s0, s1, s2, []. apply scale_dict_lookup.
Qed.

Lemma rescaled_one t : plain_zyx_transformation t → rescaled 1%Qc t = t.
Proof.
  intros (ty & Hty & Hs). destruct (decide (ty = "scale")) as [->|Hne].
  - destruct (Hs eq_refl) as (s0 & s1 & s2 & ->).
    rewrite (rescaled_scale _ _ s0 s1 s2 []) by (done || apply scale_dict_lookup).
    by rewrite !Qcmult_1_r.
  - by apply rescaled_other with ty.
Qed.

Lemma fmap_fixed {X} (f : X → X) (l : list X) :
  Forall (λ x, f x = x) l → f <$> l = l.
Proof. induction 1 as [|x l Hx _ IH]; cbn; [done|]. by rewrite Hx, IH. Qed.

(** On such input, [reference_level = 0] changes nothing. *)
Lemma rescale_datasets_level_0_zyx datasets c :
  Forall plain_zyx_dataset datasets →
  rescale_datasets datasets c 0 = Ok datasets.
Proof.
  intros Hall. rewrite (rescale_datasets_rescaled c 0 1%Qc).
  - f_equal. apply fmap_fixed. eapply Forall_impl; [exact Hall|].
    intros ds (ts & Hts & Hplain). unfold rescaled_dataset. rewrite Hts.
    apply insert_id. rewrite Hts. do 2 f_equal. symmetry.
    apply fmap_fixed. eapply Forall_impl; [exact Hplain|].
    intros t. apply rescaled_one.
  - unfold pow. change (0 <=? 0) with true. cbv iota.
    by rewrite Z.pow_0_r, Z2Qc_inj_1.
  - eapply Forall_impl; [exact Hall|]. intros ds (ts & Hts & Hplain).
    exists ts. split; [done|]. eapply Forall_impl; [exact Hplain|].
    apply plain_zyx_three_components.
Qed.
End RescaleIdentity.

Section RescaleTwiceClaims.
Import LibZattrsUtils.

Lemma zyx_example_zyx : Forall zyx_dataset [zyx_example].
Proof.
  repeat constructor. eexists. split; [apply dataset_dict_lookup|].
  repeat constructor.
  - exists "scale". split; [reflexivity|]. intros _.
    eexists _, _, _. apply scale_dict_lookup.
  - exists "translation". split; [reflexivity|]. intros [=].
Qed.

Lemma rescale_datasets_zyx_example c L p :
  pow c L = Ok p →
  rescale_datasets [zyx_example] c L = Ok [rescaled_dataset p zyx_example].
Proof.
  intros Hp. apply (rescale_datasets_rescaled c L p [zyx_example] Hp).
  eapply Forall_impl; [exact zyx_example_zyx|apply zyx_well_formed].
Qed.

(** C9 (as stated) fails for [c = 0], a factor that [coarsening_xy] can
    return: [0 ** 1 = 0] is not 1, yet rescaling the level [zyx_example]
    twice gives what rescaling it once gives, with Y and X components 0. *)
Lemma rescale_twice_zero_factor :
  pow 0 1 = Ok (Qc_of_Z 0) ∧ Qc_of_Z 0 ≠ 1%Qc
  ∧ rescale_datasets [zyx_example] 0 1
    = Ok [rescaled_dataset (Qc_of_Z 0) zyx_example]
  ∧ rescale_twice [zyx_example] 0 1
    = Ok [rescaled_dataset (Qc_of_Z 0) zyx_example].
Proof.
  split; [reflexivity|]. split; [apply Qc_neq_bool; reflexivity|].
  pose proof (rescale_datasets_zyx_example 0 1 _ eq_refl) as Honce.
  split; [exact Honce|]. unfold rescale_twice. rewrite Honce.
  destruct (rescale_datasets_again _ _ _ _ Honce) as (twice & H1 & _ & H3).
  cbn [mbind result_bind]. rewrite H1. f_equal. apply H3.
  apply (second_pass_idle_factor 0 1 (Qc_of_Z 0)); [reflexivity|].
  left. apply Qc_of_Z_0.
Qed.

(** C9 (amended). Whenever [rescale_datasets] returns, applying it to its
    result with the same parameters returns as well; the second pass
    multiplies the Y and X components once more by [p = c ** L], so that a
    ["scale"] [[s0, s1, s2, ...]] of the original list ends as
    [[s0, (s1 * p) * p, (s2 * p) * p]], the other transformations and the
    other keys being kept.  The result of the two passes is equal to the
    result of one pass exactly when the second multiplication changes no Y
    or X component; this is the case when [p] is 0 or 1. *)
Theorem rescale_twice_compounds datasets c L once :
  rescale_datasets datasets c L = Ok once →
  ∃ twice,
    rescale_twice datasets c L = Ok twice
    ∧ Forall2 (dataset_rescaled_twice c L) datasets twice
    ∧ (twice = once ↔ Forall (second_pass_idle c L) datasets)
    ∧ (∀ p, pow c L = Ok p → p = 0%Qc ∨ p = 1%Qc → twice = once).
Proof.
  intros H.
  destruct (for_each_again _ _ _ datasets once (rescale_dataset_again c L) H)
    as (twice & H1 & H2 & H3).
  exists twice. split; [|split; [exact H2|split; [exact H3|]]].
  - unfold rescale_twice. rewrite H. exact H1.
  - intros p Hp Hp01. apply H3. by apply second_pass_idle_factor with p.
Qed.

(** Why the two products are kept apart: on [float]s two multiplications
    by 3 are not one multiplication by 9.  For the [float] [0.1], the
    product [(0.1 * 3) * 3] is 0.9000000000000001 and [0.1 * 9] is 0.9. *)
Example float_products_do_not_compose :
  match binary64 (Q2Qc (1 # 10)) with
  | Some x =>
      match float_mul x (Qc_of_Z 3), float_mul x (Qc_of_Z 9) with
      | Some y, Some nine_x =>
          match float_mul y (Qc_of_Z 3) with
          | Some z => Qeq_bool z nine_x
          | None => true
          end
      | _, _ => true
      end
  | None => true
  end = false.
Proof. vm_compute. reflexivity. Qed.

Lemma rescale_twice_compounds_witness :
  ∃ twice,
    rescale_twice [zyx_example] 2 1 = Ok twice
    ∧ Forall2 (dataset_rescaled_twice 2 1) [zyx_example] twice
    ∧ twice ≠ [rescaled_dataset (Qc_of_Z 2) zyx_example].
Proof.
  destruct (rescale_twice_compounds [zyx_example] 2 1
              [rescaled_dataset (Qc_of_Z 2) zyx_example]
              (rescale_datasets_zyx_example 2 1 _ eq_refl))
    as (twice & H1 & H2 & H3 & _).
  exists twice. split; [exact H1|]. split; [exact H2|].
  intros Heq. apply H3 in Heq. apply Forall_cons in Heq as [Hidle _].
  specialize (Hidle _ (dataset_dict_lookup _ _)).
  apply Forall_cons in Hidle as [Hidle _].
  destruct (Hidle eq_refl _ _ _ [] _ (scale_dict_lookup _) eq_refl) as [Hy _].
  revert Hy. apply Qc_neq_bool. reflexivity.
Defined.
End RescaleTwiceClaims.

(** ** [lib_ngff.py] *)
Section NgffMultiscale.
Import LibNgff.
Import NgffImageMeta.

Lemma multiscale_single self ms : multiscales self = [ms] → multiscale self = Ok ms.
Proof. intros H. unfold multiscale. rewrite H. reflexivity. Qed.

Lemma multiscale_many self :
  (1 < length (multiscales self))%nat →
  multiscale self =
    Err (Raise NotImplementedError "Only images with one multiscale are supported").
Proof. intros H. unfold multiscale. by rewrite decide_True. Qed.

(** C10. With a single multiscale that has a single dataset, the loop of
    [coarsening_xy] runs over the empty [range(1, 1)] and the initial
    [current_ratio], [None], is returned. *)
Theorem coarsening_xy_single_level self ms d :
  multiscales self = [ms] → Multiscale.datasets ms = [d] →
  coarsening_xy self = Ok None.
Proof.
  intros Hms Hd. unfold coarsening_xy, num_levels, datasets.
  rewrite (multiscale_single self ms Hms). cbn. rewrite Hd. reflexivity.
Qed.

Lemma coarsening_xy_single_level_witness :
  coarsening_xy single_level_example = Ok None.
Proof.
  eapply (coarsening_xy_single_level single_level_example); reflexivity.
Defined.
End NgffMultiscale.

(** ** The multiscale checks come first *)
Section MultiscaleChecks.
Import LibNgff.

Ltac not_ms := let H := fresh in intros [H|[H|[H|H]]]; discriminate H.

Lemma passes_Ok {A} (a : A) : passes_multiscale_checks (Ok a).
Proof. intros e [=]. Qed.

Lemma passes_Err {A} c msg :
  ¬ multiscale_exn (Raise c msg) → passes_multiscale_checks (@Err A (Raise c msg)).
Proof. intros H e [= <-]. exact H. Qed.

Lemma passes_bind {A B} (r : result A) (f : A → result B) :
  passes_multiscale_checks r → (∀ a, r = Ok a → passes_multiscale_checks (f a)) →
  passes_multiscale_checks (r ≫= f).
Proof.
  intros Hr Hf. destruct r as [a|e]; cbn; [by apply Hf|].
  intros e' [= <-]. by apply Hr.
Qed.

Lemma passes_getitem {A} (l : list A) i : passes_multiscale_checks (getitem l i).
Proof.
  unfold getitem. repeat case_match; try apply passes_Ok;
    apply passes_Err; not_ms.
Qed.

Lemma passes_getitem_dict {V} (d : gmap string V) k :
  passes_multiscale_checks (getitem_dict d k).
Proof.
  unfold getitem_dict. case_match; [apply passes_Ok|].
  apply passes_Err. not_ms.
Qed.

Lemma passes_index l x : passes_multiscale_checks (index l x).
Proof.
  induction l as [|y l IH]; cbn.
  - apply passes_Err. not_ms.
  - case_decide; [apply passes_Ok|].
    apply passes_bind; [done|]. intros; apply passes_Ok.
Qed.

Lemma passes_min_list l : passes_multiscale_checks (min_list l).
Proof.
  destruct l; cbn; [|apply passes_Ok].
  apply passes_Err. not_ms.
Qed.

Lemma passes_float_div x y : passes_multiscale_checks (float_div x y).
Proof.
  unfold float_div. case_decide; [|apply passes_Ok].
  apply passes_Err. not_ms.
Qed.

Lemma passes_for_each {A B} (f : A → result B) l :
  (∀ x, passes_multiscale_checks (f x)) → passes_multiscale_checks (for_each f l).
Proof.
  intros Hf e He. apply for_each_Err in He as (x & _ & Hx). by eapply Hf.
Qed.

Lemma passes_scale_transformation d :
  passes_multiscale_checks (Dataset.scale_transformation d).
Proof.
  unfold Dataset.scale_transformation.
  repeat case_decide; try apply passes_getitem;
    apply passes_Err; not_ms.
Qed.

Lemma passes_scale t : passes_multiscale_checks (scale t).
Proof.
  destruct t; cbn; [apply passes_Ok|].
  apply passes_Err. not_ms.
Qed.

Import NgffImageMeta.

Section Single.
Context (self : NgffImageMeta.t) (ms : Multiscale.t).
Hypothesis Hms : multiscale self = Ok ms.

Lemma passes_pixel_sizes_at xi yi zi level :
  passes_multiscale_checks (pixel_sizes_at self xi yi zi level).
Proof using Hms.
  unfold pixel_sizes_at, datasets. rewrite Hms. cbn.
  apply passes_bind; [apply passes_getitem|intros d _].
  apply passes_bind; [apply passes_scale_transformation|intros st _].
  apply passes_bind; [apply passes_scale|intros s _].
  apply passes_bind; [apply passes_getitem|intros px _].
  apply passes_bind; [apply passes_getitem|intros py _].
  apply passes_bind;
    [destruct zi; [apply passes_getitem|apply passes_Ok]|intros pz _].
  cbn.
  match goal with
  | |- passes_multiscale_checks (if ?c then _ else _) => destruct c
  end; [|apply passes_Ok].
  apply passes_Err. not_ms.
Qed.

Lemma passes_pixel_sizes_zyx : passes_multiscale_checks (pixel_sizes_zyx self).
Proof using Hms.
  unfold pixel_sizes_zyx, z_index_of, num_levels, datasets, axes.
  rewrite Hms. cbn.
  apply passes_bind; [apply passes_index|intros xi _].
  apply passes_bind; [apply passes_index|intros yi _].
  apply passes_bind.
  { pose proof (passes_index (Axis.name <$> Multiscale.axes ms) "z") as Hz.
    destruct (index _ "z") as [|[c msg]]; [apply passes_Ok|].
    destruct c; try apply passes_Ok;
      (intros e' [= <-]; apply (Hz _ eq_refl)). }
  intros zi _. apply passes_for_each. intros level.
  apply passes_pixel_sizes_at.
Qed.

Lemma passes_pixel_size i k : passes_multiscale_checks (pixel_size self i k).
Proof using Hms.
  unfold pixel_size.
  apply passes_bind; [apply passes_pixel_sizes_zyx|intros ps _].
  apply passes_bind; [apply passes_getitem|intros; apply passes_Ok].
Qed.

Lemma passes_ratio i k : passes_multiscale_checks (ratio self i k).
Proof using Hms.
  unfold ratio.
  apply passes_bind; [apply passes_pixel_size|intros a _].
  apply passes_bind; [apply passes_pixel_size|intros b _].
  apply passes_bind; [apply passes_float_div|intros q _].
  destruct q; [apply passes_Ok|apply passes_Err; not_ms].
Qed.

Lemma passes_coarsening_loop inds cur :
  passes_multiscale_checks (coarsening_loop self inds cur).
Proof using Hms.
  revert cur. induction inds as [|ind inds IH]; intros cur; cbn;
    [apply passes_Ok|].
  apply passes_bind; [apply passes_ratio|intros rx _].
  apply passes_bind; [apply passes_ratio|intros ry _].
  case_decide; [apply passes_Err; not_ms|].
  destruct cur; [|apply IH].
  case_decide; [apply passes_Err; not_ms|].
  apply IH.
Qed.

Lemma passes_coarsening_xy : passes_multiscale_checks (coarsening_xy self).
Proof using Hms.
  unfold coarsening_xy, num_levels, datasets. rewrite Hms. cbn.
  apply passes_coarsening_loop.
Qed.
End Single.
End MultiscaleChecks.

Section MultiscaleClaim.
Import LibNgff.

Lemma validate_multiscales_global l ms :
  ms ∈ l → is_Some (Multiscale.CoordinateTransformations ms) →
  NgffImageMeta.validate_multiscales l = Ok false
  ∨ raises (NgffImageMeta.validate_multiscales l).
Proof.
  induction l as [|m l IH]; intros Hin Hsome; [by apply elem_of_nil in Hin|].
  cbn. apply elem_of_cons in Hin as [<-|Hin].
  - destruct Hsome as [v ->].
    destruct (forallb valid_transformation v); cbn; [by right|].
    destruct (NgffImageMeta.validate_multiscales l); cbn; [by left|by right].
  - destruct (Multiscale.CoordinateTransformations m) as [v|]; cbn.
    + destruct (forallb valid_transformation v); cbn; [by right|].
      destruct (IH Hin Hsome) as [->|Hr]; cbn; [by left|].
      destruct (NgffImageMeta.validate_multiscales l); cbn; [done|by right].
    + destruct (IH Hin Hsome) as [->|Hr]; cbn.
      * left. by rewrite andb_false_r.
      * destruct (NgffImageMeta.validate_multiscales l); cbn; [done|by right].
Qed.

Lemma load_global_raises attrs ms :
  ms ∈ NgffImageMeta.multiscales attrs →
  is_Some (Multiscale.CoordinateTransformations ms) →
  raises (load_NgffImageMeta attrs).
Proof.
  intros Hin Hsome. unfold load_NgffImageMeta, NgffImageMeta.validate.
  destruct (validate_multiscales_global _ _ Hin Hsome) as [->|Hr]; cbn; [done|].
  destruct (NgffImageMeta.validate_multiscales _); done.
Qed.

Import LibZattrsUtils.

Ltac not_ms := let H := fresh in intros [H|[H|[H|H]]]; discriminate H.

Lemma passes_get_type t : passes_multiscale_checks (get_type t).
Proof.
  unfold get_type. case_match; [apply passes_Ok|].
  apply passes_Err. not_ms.
Qed.

Lemma passes_first_scale ts : passes_multiscale_checks (first_scale ts).
Proof.
  induction ts as [|t ts IH]; cbn.
  - apply passes_Err. not_ms.
  - apply passes_bind; [apply passes_get_type|intros ty _].
    case_decide; [|exact IH].
    apply passes_bind; [apply passes_getitem_dict|intros s _].
    apply passes_bind; [apply passes_min_list|intros m _].
    case_decide; [|apply passes_Ok].
    apply passes_Err. not_ms.
Qed.

Lemma passes_except_KeyError {A} (r : result A) :
  passes_multiscale_checks r → passes_multiscale_checks (except_KeyError r).
Proof.
  intros Hr. destruct r as [|[[] msg]]; try exact Hr.
  apply passes_Err. not_ms.
Qed.

(** C5. Both libraries check the multiscale blocks before they look at any
    dataset.
    - [lib_ngff]: with more than one multiscale, [pixel_sizes_zyx],
      [get_pixel_sizes_zyx] and [coarsening_xy] raise the
      [NotImplementedError] of [multiscale], whatever the datasets are; with
      a global [CoordinateTransformations] on some multiscale, building the
      [NgffImageMeta] raises, so that no operation can run.
    - [lib_zattrs_utils]: [extract_zyx_pixel_sizes] raises with more than
      one multiscale and with a global ["coordinateTransformations"] key.
    - With exactly one multiscale and no global transformation, none of
      these exceptions is raised. *)
Theorem multiscale_checks_first :
  (∀ self level, (1 < length (NgffImageMeta.multiscales self))%nat →
     let e := Raise NotImplementedError
                "Only images with one multiscale are supported" in
     NgffImageMeta.pixel_sizes_zyx self = Err e
     ∧ NgffImageMeta.get_pixel_sizes_zyx self level = Err e
     ∧ NgffImageMeta.coarsening_xy self = Err e)
  ∧ (∀ attrs ms, ms ∈ NgffImageMeta.multiscales attrs →
       is_Some (Multiscale.CoordinateTransformations ms) →
       raises (load_NgffImageMeta attrs))
  ∧ (∀ v, raises_class NotImplementedError
            (Multiscale._no_global_CoordinateTransformations (Some v)))
  ∧ (∀ z l level, multiscales z = Some l → (1 < length l)%nat →
       extract_zyx_pixel_sizes z level =
         Err (Raise Exception_ "ERROR: There are multiscales"))
  ∧ (∀ z m level, multiscales z = Some [m] →
       is_Some (ms_coordinateTransformations m) →
       extract_zyx_pixel_sizes z level =
         Err (Raise NotImplementedError
                "global coordinateTransformations at the multiscales level"))
  ∧ (∀ self ms, NgffImageMeta.multiscales self = [ms] →
       Multiscale.CoordinateTransformations ms = None →
       NgffImageMeta.multiscale self = Ok ms
       ∧ Multiscale._no_global_CoordinateTransformations
           (Multiscale.CoordinateTransformations ms) = Ok None
       ∧ passes_multiscale_checks (NgffImageMeta.pixel_sizes_zyx self)
       ∧ passes_multiscale_checks (NgffImageMeta.coarsening_xy self))
  ∧ (∀ z m level, multiscales z = Some [m] →
       ms_coordinateTransformations m = None →
       passes_multiscale_checks (extract_zyx_pixel_sizes z level)).
Proof.
  split; [|split; [|split; [|split; [|split; [|split]]]]].
  - intros self level Hlen. cbv zeta.
    pose proof (multiscale_many self Hlen) as Hm.
    unfold NgffImageMeta.get_pixel_sizes_zyx, NgffImageMeta.coarsening_xy,
      NgffImageMeta.num_levels, NgffImageMeta.datasets,
      NgffImageMeta.pixel_sizes_zyx, NgffImageMeta.axes.
    rewrite Hm. done.
  - apply load_global_raises.
  - intros v. reflexivity.
  - intros z l level Hz Hlen.
    unfold extract_zyx_pixel_sizes, extract_zyx_pixel_sizes_try.
    rewrite Hz. cbn. by rewrite decide_True.
  - intros z m level Hz Hsome.
    unfold extract_zyx_pixel_sizes, extract_zyx_pixel_sizes_try.
    rewrite Hz. cbn. rewrite decide_False by lia.
    change (getitem [m] 0) with (Ok m). cbn. by rewrite decide_True.
  - intros self ms Hms Hnone. pose proof (multiscale_single self ms Hms) as Hm.
    split; [done|]. split; [by rewrite Hnone|].
    split; [by apply passes_pixel_sizes_zyx with ms
           |by apply passes_coarsening_xy with ms].
  - intros z m level Hz Hnone.
    unfold extract_zyx_pixel_sizes. apply passes_except_KeyError.
    unfold extract_zyx_pixel_sizes_try. rewrite Hz. cbn.
    rewrite decide_False by lia.
    change (getitem [m] 0) with (Ok m). cbn.
    rewrite decide_False by (rewrite Hnone; by intros [? [=]]).
    cbn.
    apply passes_bind.
    { destruct (ms_datasets m); [apply passes_Ok|].
      apply passes_Err. not_ms. }
    intros datasets _.
    apply passes_bind; [apply passes_getitem|intros ds _].
    apply passes_bind; [apply passes_getitem_dict|intros tr _].
    destruct tr as [s|ts]; [|apply passes_first_scale].
    case_decide; [apply (passes_first_scale [])|].
    apply passes_Err. not_ms.
Qed.
End MultiscaleClaim.

(** ** Pixel sizes and the coarsening factor *)
Section PixelSizes.
Import LibNgff.
Import NgffImageMeta.

Lemma tiny_pos : (0 < tiny)%Qc.
Proof. reflexivity. Qed.

Lemma min_list_3 a b c m :
  min_list [a; b; c] = Ok m →
  (m ≤ a ∧ m ≤ b ∧ m ≤ c)%Qc ∧ (m = a ∨ m = b ∨ m = c).
Proof.
  cbn. intros [= <-].
  destruct (decide (b < a)%Qc) as [Hba|Hba];
    [apply Qclt_le_weak in Hba|apply Qcnot_lt_le in Hba];
    (destruct (decide (c < _)%Qc) as [Hc|Hc];
      [apply Qclt_le_weak in Hc|apply Qcnot_lt_le in Hc]);
    repeat split; eauto using Qcle_refl, Qcle_trans.
Qed.

Ltac inv_bind H :=
  repeat match type of H with
    | (?r ≫= _) = Ok _ =>
        let E := fresh "E" in
        destruct r eqn:E; cbn [mbind result_bind] in H; [|discriminate H]
    end.

Lemma pixel_sizes_at_Ok self xi yi zi level p :
  pixel_sizes_at self xi yi zi level = Ok p →
  (tiny ≤ size_z p ∧ tiny ≤ size_y p ∧ tiny ≤ size_x p)%Qc.
Proof.
  unfold pixel_sizes_at. intros H. inv_bind H.
  case_decide as Hm; [discriminate H|]. injection H as <-.
  apply Qcnot_lt_le in Hm.
  match goal with E : min_list _ = Ok _ |- _ =>
    apply min_list_3 in E as [(? & ? & ?) _] end.
  unfold size_x, size_y, size_z. cbn.
  repeat split; eapply Qcle_trans; eassumption.
Qed.

Lemma pixel_sizes_zyx_Ok self ps :
  pixel_sizes_zyx self = Ok ps →
  num_levels self = Ok (length ps)
  ∧ Forall (λ p, (tiny ≤ size_z p ∧ tiny ≤ size_y p ∧ tiny ≤ size_x p)%Qc) ps.
Proof.
  unfold pixel_sizes_zyx. intros H. inv_bind H.
  match goal with E : num_levels self = Ok ?n |- _ => rename E into En end.
  split.
  - f_equal. apply for_each_length in H.
    by rewrite H, length_seq.
  - apply for_each_Forall2 in H. apply Forall_forall. intros p Hp.
    apply list_elem_of_lookup in Hp as [i Hi].
    destruct (Forall2_lookup_r _ _ _ _ _ H Hi) as (level & _ & Hl).
    by apply pixel_sizes_at_Ok in Hl.
Qed.

Section Loop.
Context (self : NgffImageMeta.t) (ps : list (Qc * Qc * Qc)).
Hypothesis Hps : pixel_sizes_zyx self = Ok ps.

Lemma pixel_size_Ok (i : nat) k p :
  ps !! i = Some p → pixel_size self (Z.of_nat i) k = Ok (k p).
Proof using Hps.
  intros Hi. unfold pixel_size. rewrite Hps. cbn.
  rewrite (getitem_lookup ps _ p) by (lia || by rewrite Nat2Z.id). done.
Qed.

Lemma ratio_level_ratio (i : nat) k :
  (k = size_x ∨ k = size_y) → (1 ≤ i < length ps)%nat →
  ratio self (Z.of_nat i) k = level_ratio k ps i.
Proof using Hps.
  intros Hk Hi.
  destruct (lookup_lt_is_Some_2 ps i) as [a Ha]; [lia|].
  destruct (lookup_lt_is_Some_2 ps (i - 1)) as [b Hb]; [lia|].
  unfold ratio, level_ratio. rewrite Ha, Hb.
  rewrite (pixel_size_Ok i k a Ha). cbn [mbind result_bind].
  replace (Z.of_nat i - 1) with (Z.of_nat (i - 1)) by lia.
  rewrite (pixel_size_Ok (i - 1) k b Hb). cbn [mbind result_bind].
  unfold float_div. rewrite decide_False; [done|].
  destruct (pixel_sizes_zyx_Ok self ps Hps) as [_ Hall].
  apply (Forall_lookup_1 _ _ _ _ Hall) in Hb as (Hz & Hy & Hx).
  intros H0. assert (tiny ≤ 0)%Qc as Hle
    by (destruct Hk as [->| ->]; by rewrite <- H0).
  exact (Qcle_not_lt _ _ Hle tiny_pos).
Qed.


(** The loop over the levels [inds], entered with [current_ratio = r0]. *)
Lemma coarsening_loop_returns inds r0 :
  Forall (λ i, 1 ≤ i < length ps)%nat inds →
  Forall (λ i, level_ratio size_x ps i = Ok r0
               ∧ level_ratio size_y ps i = Ok r0) inds →
  coarsening_loop self inds (Some r0) = Ok (Some r0).
Proof using Hps.
  induction inds as [|i inds IH]; intros Hrange Hall; [done|].
  apply Forall_cons in Hrange as [Hi Hrange].
  apply Forall_cons in Hall as [[Hx Hy] Hall].
  cbn [coarsening_loop]. rewrite !ratio_level_ratio by (auto || done).
  rewrite Hx, Hy. cbn [mbind result_bind].
  rewrite !decide_False by (intros Hn; by apply Hn). by apply IH.
Qed.


Lemma seq_range (a n i : nat) : i ∈ seq a n → (a ≤ i < a + n)%nat.
Proof. intros H. apply elem_of_seq in H. lia. Qed.

Lemma coarsening_xy_first :
  (2 ≤ length ps)%nat →
  coarsening_xy self =
    (ratio_x ← level_ratio size_x ps 1;
     ratio_y ← level_ratio size_y ps 1;
     if decide (ratio_x ≠ ratio_y) then
       Err (Raise NotImplementedError
              "Inhomogeneous coarsening in X/Y directions is not supported.")
     else coarsening_loop self (seq 2 (length ps - 2)) (Some ratio_x)).
Proof using Hps.
  intros Hlen. destruct (pixel_sizes_zyx_Ok self ps Hps) as [Hn _].
  unfold coarsening_xy. rewrite Hn. cbn [mbind result_bind].
  replace (length ps - 1)%nat with (S (length ps - 2)) by lia.
  cbn [seq coarsening_loop].
  rewrite !ratio_level_ratio by (auto || lia). reflexivity.
Qed.

Lemma coarsening_xy_loop_range :
  Forall (λ i, 1 ≤ i < length ps)%nat (seq 2 (length ps - 2)).
Proof. apply Forall_forall. intros j Hj. apply seq_range in Hj. lia. Qed.

Lemma coarsening_xy_Ok r :
  (2 ≤ length ps)%nat →
  (∀ i, (1 ≤ i < length ps)%nat →
     level_ratio size_x ps i = Ok r ∧ level_ratio size_y ps i = Ok r) →
  coarsening_xy self = Ok (Some r).
Proof using Hps.
  intros Hlen Hall. rewrite coarsening_xy_first by done.
  destruct (Hall 1%nat) as [Hx Hy]; [lia|]. rewrite Hx, Hy.
  cbn [mbind result_bind]. rewrite decide_False by (intros Hn; by apply Hn).
  apply coarsening_loop_returns; [apply coarsening_xy_loop_range|].
  apply Forall_forall. intros j Hj. apply seq_range in Hj. apply Hall. lia.
Qed.


End Loop.
End PixelSizes.

(** ** The floor on pixel sizes *)
Section TooSmall.
Import LibNgff.
Import NgffImageMeta.

Lemma floor_Ok {A} (a : A) : passes_floor (Ok a).
Proof. intros [=]. Qed.

Lemma floor_bind {A B} (r : result A) (f : A → result B) :
  passes_floor r → (∀ a, r = Ok a → passes_floor (f a)) → passes_floor (r ≫= f).
Proof.
  intros Hr Hf. destruct r as [a|e]; cbn; [by apply Hf|].
  intros [= ->]. by apply Hr.
Qed.

Lemma floor_getitem {A} (l : list A) i : passes_floor (getitem l i).
Proof. unfold getitem. repeat case_match; intros [=]. Qed.

Lemma floor_index l x : passes_floor (index l x).
Proof.
  induction l as [|y l IH]; cbn; [intros [=]|].
  case_decide; [apply floor_Ok|].
  apply floor_bind; [done|]. intros; apply floor_Ok.
Qed.

Lemma floor_multiscale self : passes_floor (multiscale self).
Proof. unfold multiscale. case_decide; [intros [=]|apply floor_getitem]. Qed.

Lemma floor_scale_transformation d :
  passes_floor (Dataset.scale_transformation d).
Proof.
  unfold Dataset.scale_transformation.
  repeat case_decide; try apply floor_getitem; intros [=].
Qed.

Lemma floor_scale t : passes_floor (scale t).
Proof. destruct t; cbn; [apply floor_Ok|intros [=]]. Qed.

Lemma floor_for_each {A B} (f : A → result B) l :
  (∀ x, passes_floor (f x)) → passes_floor (for_each f l).
Proof.
  intros Hf He. apply for_each_Err in He as (x & _ & Hx). by eapply Hf.
Qed.

(** [min] is one of the elements and below all of them. *)
Lemma foldl_min (l : list Qc) (x : Qc) :
  let m := foldl (λ m y, if decide (y < m)%Qc then y else m) x l in
  m ∈ x :: l ∧ Forall (λ y, m ≤ y)%Qc (x :: l).
Proof.
  revert x. induction l as [|y l IH]; intros x; cbn.
  - split; [by left|]. repeat constructor. apply Qcle_refl.
  - destruct (IH (if decide (y < x)%Qc then y else x)) as [Hin Hall].
    cbn in Hin, Hall. apply Forall_cons in Hall as [Hacc Hall].
    split.
    + apply elem_of_cons in Hin as [Hin|Hin]; [|by do 2 right].
      rewrite Hin. case_decide; [right; left|left]; done.
    + case_decide as Hyx.
      * constructor; [|by constructor].
        eapply Qcle_trans; [exact Hacc|by apply Qclt_le_weak].
      * constructor; [done|]. constructor; [|done].
        eapply Qcle_trans; [exact Hacc|by apply Qcnot_lt_le].
Qed.

Lemma min_list_spec l m :
  min_list l = Ok m → m ∈ l ∧ Forall (λ y, m ≤ y)%Qc l.
Proof.
  destruct l as [|x l]; cbn; [done|]. intros [= <-]. apply foldl_min.
Qed.

Lemma min_list_below l v m :
  min_list l = Ok m → v ∈ l → (v < tiny)%Qc → (m < tiny)%Qc.
Proof.
  intros Hm Hv Hlt. apply min_list_spec in Hm as [_ Hall].
  eapply Qcle_lt_trans; [|exact Hlt].
  exact (proj1 (Forall_forall _ _) Hall v Hv).
Qed.

Lemma min_list_above l m :
  min_list l = Ok m → Forall (λ y, tiny ≤ y)%Qc l → ¬ (m < tiny)%Qc.
Proof.
  intros Hm Hall. apply min_list_spec in Hm as [Hin _].
  apply Qcle_not_lt. exact (proj1 (Forall_forall _ _) Hall m Hin).
Qed.

Lemma getitem_elem_of {A} (l : list A) i x : getitem l i = Ok x → x ∈ l.
Proof.
  unfold getitem. destruct (_ || _); [done|].
  destruct (l !! _) eqn:E; [|done]. intros [= <-].
  by eapply list_elem_of_lookup_2.
Qed.
End TooSmall.

Section TooSmallClaim.
Import LibNgff.
Import NgffImageMeta.

Lemma one_above_tiny : (tiny ≤ 1)%Qc.
Proof. apply Qclt_le_weak. reflexivity. Qed.

Lemma pixel_sizes_zyx_raises self ms (level : nat) d s v :
  multiscales self = [ms] → Multiscale.datasets ms !! level = Some d →
  Dataset.scale_transformation d = Ok (ScaleCoordinateTransformation s) →
  zyx_component self s v → (v < tiny)%Qc → raises (pixel_sizes_zyx self).
Proof.
  intros Hms Hd Hst (name & i & ax & Hname & Hax & Hidx & Hget) Hlt.
  pose proof (multiscale_single self ms Hms) as Hm.
  unfold pixel_sizes_zyx, z_index_of. rewrite Hax. cbn [mbind result_bind].
  destruct (index ax "x") as [xi|] eqn:Ex; [|done].
  destruct (index ax "y") as [yi|] eqn:Ey; [|done].
  assert (∀ zi : option Z,
            (name = "z" → zi = Some i) →
            raises (for_each (pixel_sizes_at self xi yi zi)
                      (seq 0 (length (Multiscale.datasets ms))))) as Hloop.
  { intros zi Hzi. apply for_each_raises with level.
    { apply elem_of_seq. apply lookup_lt_Some in Hd. lia. }
    unfold pixel_sizes_at, datasets. rewrite Hm. cbn [mbind result_bind].
    rewrite (getitem_lookup _ _ d) by (lia || by rewrite Nat2Z.id).
    cbn [mbind result_bind]. rewrite Hst. cbn [mbind result_bind scale].
    destruct (getitem s xi) as [vx|] eqn:Hx; [|done].
    destruct (getitem s yi) as [vy|] eqn:Hy; [|done].
    cbn [mbind result_bind].
    assert (∀ vz, (name = "z" → vz = v) →
              raises (min_list [vz; vy; vx] ≫= λ m,
                        if decide (m < tiny)%Qc
                        then Err (Raise ValueError "Pixel sizes at level are too small")
                        else Ok (vz, vy, vx))) as Hmin.
    { intros vz Hvz. destruct (min_list [vz; vy; vx]) as [m|] eqn:Em; [|done].
      cbn [mbind result_bind]. rewrite decide_True; [done|].
      apply (min_list_below _ v _ Em); [|done].
      apply elem_of_cons in Hname as [->|Hname]; [rewrite Hvz by done; by left|].
      apply elem_of_cons in Hname as [->|Hname].
      - assert (i = yi) as -> by congruence.
        assert (vy = v) as -> by congruence. right; by left.
      - apply list_elem_of_singleton in Hname as ->.
        assert (i = xi) as -> by congruence.
        assert (vx = v) as -> by congruence. do 2 right; by left. }
    destruct zi as [zi|].
    - destruct (getitem s zi) as [vz|] eqn:Hz; [|done].
      cbn [mbind result_bind]. apply Hmin. intros Hn.
      specialize (Hzi Hn). congruence.
    - cbn [mbind result_bind]. apply Hmin. intros Hn. by specialize (Hzi Hn). }
  destruct (index ax "z") as [zi|[c msg]] eqn:Ez.
  - cbn [mbind result_bind]. unfold num_levels, datasets. rewrite Hm.
    cbn [mbind result_bind]. apply Hloop. intros ->. congruence.
  - destruct c; try done.
    cbn [mbind result_bind]. unfold num_levels, datasets. rewrite Hm.
    cbn [mbind result_bind]. apply Hloop. intros ->. congruence.
Qed.

Lemma pixel_sizes_at_floor self xi yi zi level :
  (∀ ms d s, multiscale self = Ok ms → d ∈ Multiscale.datasets ms →
     Dataset.scale_transformation d = Ok (ScaleCoordinateTransformation s) →
     Forall (λ v, tiny ≤ v)%Qc s) →
  passes_floor (pixel_sizes_at self xi yi zi level).
Proof.
  intros Hall. unfold pixel_sizes_at.
  apply floor_bind.
  { unfold datasets. apply floor_bind; [apply floor_multiscale|].
    intros; apply floor_Ok. }
  intros ds Hds. apply floor_bind; [apply floor_getitem|intros d Hd].
  apply floor_bind; [apply floor_scale_transformation|intros st Hst].
  apply floor_bind; [apply floor_scale|intros s Hs].
  apply floor_bind; [apply floor_getitem|intros vx Hx].
  apply floor_bind; [apply floor_getitem|intros vy Hy].
  apply floor_bind;
    [destruct zi; [apply floor_getitem|apply floor_Ok]|intros vz Hz].
  destruct (min_list [vz; vy; vx]) as [m|] eqn:Em; [|done].
  cbn [mbind result_bind]. rewrite decide_False; [apply floor_Ok|].
  apply (min_list_above _ _ Em).
  assert (Forall (λ v, tiny ≤ v)%Qc s) as Hs'.
  { unfold datasets in Hds. destruct (multiscale self) as [ms|] eqn:Hm; [|done].
    cbn in Hds. injection Hds as <-.
    destruct st as [s'|]; [|done]. cbn in Hs. injection Hs as ->.
    apply (Hall ms d s eq_refl); [|done]. by eapply getitem_elem_of. }
  pose proof (proj1 (Forall_forall _ _) Hs') as Hin.
  repeat constructor; try (apply Hin; by eapply getitem_elem_of).
  destruct zi as [zi|]; [apply Hin; by eapply getitem_elem_of|].
  injection Hz as <-. apply one_above_tiny.
Qed.

Lemma pixel_sizes_zyx_floor self :
  (∀ ms d s, multiscale self = Ok ms → d ∈ Multiscale.datasets ms →
     Dataset.scale_transformation d = Ok (ScaleCoordinateTransformation s) →
     Forall (λ v, tiny ≤ v)%Qc s) →
  passes_floor (pixel_sizes_zyx self).
Proof.
  intros Hall. unfold pixel_sizes_zyx.
  assert (passes_floor (axes self)) as Hax.
  { unfold axes. apply floor_bind; [apply floor_multiscale|].
    intros; apply floor_Ok. }
  apply floor_bind.
  { apply floor_bind; [done|]. intros; apply floor_index. }
  intros xi _. apply floor_bind.
  { apply floor_bind; [done|]. intros; apply floor_index. }
  intros yi _. apply floor_bind.
  { unfold z_index_of. apply floor_bind; [done|]. intros ax _.
    pose proof (floor_index ax "z") as Hz.
    destruct (index ax "z") as [|[c msg]]; [apply floor_Ok|].
    destruct c; try apply floor_Ok; intros [=]. }
  intros zi _. apply floor_bind.
  { unfold num_levels, datasets.
    apply floor_bind; [|intros; apply floor_Ok].
    apply floor_bind; [apply floor_multiscale|intros; apply floor_Ok]. }
  intros n _. apply floor_for_each. intros level.
  by apply pixel_sizes_at_floor.
Qed.
End TooSmallClaim.

Section TooSmallZattrs.
Import LibZattrsUtils.

Lemma first_scale_app pre t post l :
  Forall not_scale pre → type_ t = Some "scale" →
  vectors t !! "scale" = Some l →
  first_scale (pre ++ t :: post)%list =
    (m ← min_list l;
     if decide (m < tiny)%Qc then Err (Raise Exception_ "ERROR: pixel_sizes")
     else Ok l).
Proof.
  intros Hpre Hty Hl. induction Hpre as [|t' pre (ty & Hty' & Hne) _ IH]; cbn.
  - unfold get_type, getitem_dict. rewrite Hty, Hl. cbn.
    by rewrite decide_True.
  - unfold get_type. rewrite Hty'. cbn. by rewrite decide_False.
Qed.

Lemma extract_zyx_pixel_sizes_single z m datasets level ds ts :
  multiscales z = Some [m] → ms_coordinateTransformations m = None →
  ms_datasets m = Some datasets → getitem datasets level = Ok ds →
  ds !! coordT = Some (DTransformations ts) →
  extract_zyx_pixel_sizes z level = except_KeyError (first_scale ts).
Proof.
  intros Hz Hnone Hds Hlevel Hts.
  unfold extract_zyx_pixel_sizes, extract_zyx_pixel_sizes_try.
  rewrite Hz. cbn [getkey mbind result_bind].
  rewrite decide_False by (cbn; lia).
  change (getitem [m] 0) with (Ok m). cbn [mbind result_bind].
  rewrite decide_False by (rewrite Hnone; by intros [? [=]]).
  cbn [mbind result_bind]. rewrite Hds. cbn [getkey mbind result_bind].
  rewrite Hlevel. cbn [mbind result_bind]. unfold getitem_dict at 1.
  rewrite Hts. reflexivity.
Qed.

Lemma extract_zyx_pixel_sizes_floor z m datasets level ds pre t post l :
  multiscales z = Some [m] → ms_coordinateTransformations m = None →
  ms_datasets m = Some datasets → getitem datasets level = Ok ds →
  ds !! coordT = Some (DTransformations (pre ++ t :: post)%list) →
  Forall not_scale pre → type_ t = Some "scale" →
  vectors t !! "scale" = Some l →
  ((∃ v, v ∈ l ∧ (v < tiny)%Qc) →
     extract_zyx_pixel_sizes z level = Err (Raise Exception_ "ERROR: pixel_sizes"))
  ∧ (l ≠ [] → Forall (λ v, tiny ≤ v)%Qc l →
     extract_zyx_pixel_sizes z level = Ok l).
Proof.
  intros Hz Hnone Hds Hlevel Hts Hpre Hty Hl.
  rewrite (extract_zyx_pixel_sizes_single z m datasets level ds _
             Hz Hnone Hds Hlevel Hts).
  rewrite (first_scale_app pre t post l Hpre Hty Hl).
  split.
  - intros (v & Hv & Hlt). destruct (min_list l) as [mn|] eqn:Em.
    + cbn. rewrite decide_True; [done|]. by apply (min_list_below l v).
    + destruct l; [by apply elem_of_nil in Hv|done].
  - intros Hne Hall. destruct (min_list l) as [mn|] eqn:Em.
    + cbn. rewrite decide_False; [done|]. by apply (min_list_above l).
    + destruct l; done.
Qed.
End TooSmallZattrs.

(** ** The scale transformation of a level *)
Section ScaleTransformation.
Import LibNgff.

Lemma filter_scales_of ts :
  filter (λ t, type_of t = "scale") ts
  = ScaleCoordinateTransformation <$> scales_of ts.
Proof.
  induction ts as [|[s|tr] ts IH]; [done| |].
  - rewrite filter_cons_True by done. cbn. by rewrite IH.
  - rewrite filter_cons_False by done. by rewrite IH.
Qed.

Lemma first_scale_not_scale ts :
  Forall not_scale ts →
  LibZattrsUtils.first_scale ts
  = Err (Raise Exception_ "ERROR: no scale transformation found").
Proof.
  induction 1 as [|t ts (ty & Hty & Hne) _ IH]; [done|]. cbn.
  unfold LibZattrsUtils.get_type. rewrite Hty. cbn. by rewrite decide_False.
Qed.

(** With two scale transformations, [extract_zyx_pixel_sizes] returns the
    first one, where [Dataset.scale_transformation] raises. *)
Lemma extract_zyx_pixel_sizes_two_scales :
  LibZattrsUtils.extract_zyx_pixel_sizes
    (one_level_zattrs two_scales_example) 0
  = Ok [1%Qc; 1%Qc; 1%Qc]
  ∧ Dataset.scale_transformation
      (Dataset.Build "0"
         [ScaleCoordinateTransformation [1%Qc; 1%Qc; 1%Qc];
          ScaleCoordinateTransformation [Qc_of_Z 2; Qc_of_Z 2; Qc_of_Z 2]])
    = Err (Raise ValueError "More than one scale transformation in dataset.").
Proof.
  split; [|reflexivity].
  refine (proj2 (extract_zyx_pixel_sizes_floor
            (one_level_zattrs two_scales_example)
            _ [two_scales_example] 0 two_scales_example [] _ _ _
            eq_refl eq_refl eq_refl eq_refl (dataset_dict_lookup _ _)
            (Forall_nil_2 _) eq_refl (scale_dict_lookup _)) _ _); [done|].
  rewrite !Forall_cons, Forall_nil. repeat split; by apply Qle_bool_imp_le.
Qed.

(** C6 (amended). [Dataset.scale_transformation] raises a [ValueError]
    when the dataset has no scale transformation and when it has more than
    one, and returns the scale transformation when there is exactly one; a
    translation in the list changes nothing.  The loop of
    [extract_zyx_pixel_sizes] over the transformations of a level raises
    (an [Exception]) when none of them is a scale; otherwise it stops at
    the first scale, whatever follows it (translations or further scales),
    and returns its components when they are not empty and all at least
    [1e-9]. *)
Theorem scale_transformation_unique_or_first :
  (∀ d : Dataset.t,
     let ts := Dataset.CoordinateTransformations d in
     (scales_of ts = [] →
        Dataset.scale_transformation d
        = Err (Raise ValueError "Missing scale transformation in dataset."))
     ∧ ((1 < length (scales_of ts))%nat →
        Dataset.scale_transformation d
        = Err (Raise ValueError
                 "More than one scale transformation in dataset."))
     ∧ (∀ s, scales_of ts = [s] →
        Dataset.scale_transformation d = Ok (ScaleCoordinateTransformation s))
     ∧ (∀ pre post tr,
        ts = (pre ++ TranslationCoordinateTransformation tr :: post)%list →
        Dataset.scale_transformation d =
          Dataset.scale_transformation
            (Dataset.Build (Dataset.path d) (pre ++ post)%list)))
  ∧ (∀ z m datasets level ds ts,
       LibZattrsUtils.multiscales z = Some [m] →
       LibZattrsUtils.ms_coordinateTransformations m = None →
       LibZattrsUtils.ms_datasets m = Some datasets →
       getitem datasets level = Ok ds →
       ds !! LibZattrsUtils.coordT = Some (LibZattrsUtils.DTransformations ts) →
       (Forall not_scale ts →
          LibZattrsUtils.extract_zyx_pixel_sizes z level
          = Err (Raise Exception_ "ERROR: no scale transformation found"))
       ∧ (∀ pre t post l,
          ts = (pre ++ t :: post)%list → Forall not_scale pre →
          LibZattrsUtils.type_ t = Some "scale" →
          LibZattrsUtils.vectors t !! "scale" = Some l →
          l ≠ [] → Forall (λ v, tiny ≤ v)%Qc l →
          LibZattrsUtils.extract_zyx_pixel_sizes z level = Ok l)).
Proof.
  split.
  - intros d. cbv zeta. unfold Dataset.scale_transformation.
    split; [|split; [|split]].
    + intros H. rewrite filter_scales_of, H. reflexivity.
    + intros H. rewrite filter_scales_of, length_fmap.
      rewrite decide_False by lia. by rewrite decide_True.
    + intros s H. rewrite filter_scales_of, H. reflexivity.
    + intros pre post tr Hd. rewrite Hd. cbn.
      rewrite !filter_app, filter_cons_False by done. reflexivity.
  - intros z m datasets level ds ts Hz Hnone Hds Hlevel Hts. split.
    + intros Hall.
      rewrite (extract_zyx_pixel_sizes_single z m datasets level ds ts
                 Hz Hnone Hds Hlevel Hts).
      by rewrite (first_scale_not_scale ts Hall).
    + intros pre t post l -> Hpre Hty Hl Hne Hall.
      by apply (extract_zyx_pixel_sizes_floor z m datasets level ds pre t
                  post l Hz Hnone Hds Hlevel Hts Hpre Hty Hl).
Qed.

Lemma scale_transformation_unique_or_first_witness :
  Dataset.scale_transformation
    (Dataset.Build "0"
       [ScaleCoordinateTransformation [1%Qc; 1%Qc; 1%Qc];
        TranslationCoordinateTransformation [0%Qc; 0%Qc; 0%Qc]])
  = Ok (ScaleCoordinateTransformation [1%Qc; 1%Qc; 1%Qc])
  ∧ LibZattrsUtils.extract_zyx_pixel_sizes (one_level_zattrs zyx_example) 0
    = Ok [1%Qc; Q2Qc (1625 # 10000); Q2Qc (1625 # 10000)].
Proof.
  destruct scale_transformation_unique_or_first as [Hd Hz]. split.
  - by apply (Hd (Dataset.Build "0"
                    [ScaleCoordinateTransformation [1%Qc; 1%Qc; 1%Qc];
                     TranslationCoordinateTransformation [0%Qc; 0%Qc; 0%Qc]])).
  - destruct (Hz (one_level_zattrs zyx_example) _ [zyx_example] 0 zyx_example
                _ eq_refl eq_refl eq_refl eq_refl (dataset_dict_lookup _ _))
      as [_ H].
    apply (H [] _ _ _ eq_refl (Forall_nil_2 _) eq_refl (scale_dict_lookup _)).
    + done.
    + rewrite !Forall_cons, Forall_nil.
      repeat split; by apply Qle_bool_imp_le.
Defined.
End ScaleTransformation.

Section TooSmallTheorem.
Import LibNgff.

(** C7 (as stated) fails: the channel component [1e-10] of the scale is
    smaller than [1e-9], and [pixel_sizes_zyx] returns the pixel sizes
    [(1, 1, 1)]. *)
Lemma pixel_sizes_zyx_small_channel_scale :
  (Q2Qc (1 # 10000000000) < tiny)%Qc
  ∧ NgffImageMeta.pixel_sizes_zyx small_channel_example
    = Ok [(1%Qc, 1%Qc, 1%Qc)].
Proof. split; reflexivity. Qed.

(** C7 (amended).
    - [NgffImageMeta.pixel_sizes_zyx] raises whenever, at some level, the
      component of the scale at the position of the "z", "y" or "x" axis
      is smaller than [1e-9];
    - it does not raise the too-small error when all the components of the
      scale of every level are at least [1e-9];
    - [extract_zyx_pixel_sizes] raises whenever any component of the first
      scale of the level is smaller than [1e-9], and returns the (non-empty)
      scale when all its components are at least [1e-9]. *)
Theorem pixel_sizes_floor :
  (∀ self ms (level : nat) d s v,
     NgffImageMeta.multiscales self = [ms] →
     Multiscale.datasets ms !! level = Some d →
     Dataset.scale_transformation d = Ok (ScaleCoordinateTransformation s) →
     zyx_component self s v → (v < tiny)%Qc →
     raises (NgffImageMeta.pixel_sizes_zyx self))
  ∧ (∀ self,
       (∀ ms d s, NgffImageMeta.multiscale self = Ok ms →
          d ∈ Multiscale.datasets ms →
          Dataset.scale_transformation d = Ok (ScaleCoordinateTransformation s) →
          Forall (λ v, tiny ≤ v)%Qc s) →
       passes_floor (NgffImageMeta.pixel_sizes_zyx self))
  ∧ (∀ z m datasets level ds pre t post l,
       LibZattrsUtils.multiscales z = Some [m] →
       LibZattrsUtils.ms_coordinateTransformations m = None →
       LibZattrsUtils.ms_datasets m = Some datasets →
       getitem datasets level = Ok ds →
       ds !! LibZattrsUtils.coordT =
         Some (LibZattrsUtils.DTransformations (pre ++ t :: post)%list) →
       Forall not_scale pre → LibZattrsUtils.type_ t = Some "scale" →
       LibZattrsUtils.vectors t !! "scale" = Some l →
       ((∃ v, v ∈ l ∧ (v < tiny)%Qc) →
          LibZattrsUtils.extract_zyx_pixel_sizes z level =
            Err (Raise Exception_ "ERROR: pixel_sizes"))
       ∧ (l ≠ [] → Forall (λ v, tiny ≤ v)%Qc l →
          LibZattrsUtils.extract_zyx_pixel_sizes z level = Ok l)).
Proof.
  split; [exact pixel_sizes_zyx_raises|].
  split; [exact pixel_sizes_zyx_floor|exact extract_zyx_pixel_sizes_floor].
Qed.
End TooSmallTheorem.

(** ** ROI indices at adjacent pyramid levels *)
Section Rounding.
Lemma this_minus (x y : Qc) : (this (x - y)%Qc == this x - this y)%Q.
Proof.
unfold Qcminus, Qcplus, Qcopp, Q2Qc. cbn [this].
rewrite !Qred_correct. reflexivity.
Qed.

Lemma round_bounds (x : Qc) :
(inject_Z (round x) - (1 # 2) <= this x <= inject_Z (round x) + (1 # 2))%Q.
Proof.
unfold round.
pose proof (Qfloor_le x) as Hlo. pose proof (Qlt_floor x) as Hhi.
rewrite inject_Z_plus in Hhi. change (inject_Z 1) with 1%Q in Hhi.
set (f := Qfloor x) in *. clearbody f.
assert (this (Q2Qc (1 # 2)) == 1 # 2)%Q as Hhalf by reflexivity.
pose proof (this_minus x (Qc_of_Z f)) as Hd. cbn [this Qc_of_Z] in Hd.
destruct (x - Qc_of_Z f ?= Q2Qc (1 # 2))%Qc eqn:C; unfold Qccompare in C.
- apply Qeq_alt in C. rewrite Hd, Hhalf in C.
  destruct (Z.even f); rewrite ?inject_Z_plus; change (inject_Z 1) with 1%Q; lra.
- apply Qlt_alt in C. rewrite Hd, Hhalf in C. lra.
- apply Qgt_alt in C. rewrite Hd, Hhalf in C. rewrite inject_Z_plus.
  change (inject_Z 1) with 1%Q. lra.
Qed.

Lemma this_div (x y : Qc) : (this (x / y)%Qc == this x / this y)%Q.
Proof.
unfold Qcdiv, Qcmult, Qcinv, Q2Qc. cbn [this].
rewrite !Qred_correct. reflexivity.
Qed.

Lemma round_div_bound (s p : Z) :
0 < p →
2 * p * round (Qc_of_Z s / Qc_of_Z p) - p ≤ 2 * s
∧ 2 * s ≤ 2 * p * round (Qc_of_Z s / Qc_of_Z p) + p.
Proof.
intros Hp. pose proof (round_bounds (Qc_of_Z s / Qc_of_Z p)) as [Hlo Hhi].
rewrite this_div in Hlo, Hhi. cbn [this Qc_of_Z] in Hlo, Hhi.
set (r := round (Qc_of_Z s / Qc_of_Z p)) in *. clearbody r.
assert (0 < inject_Z p)%Q as HP by (change 0%Q with (inject_Z 0); by rewrite <- Zlt_Qlt).
assert (inject_Z s / inject_Z p * inject_Z p == inject_Z s)%Q as Hs
  by (field; lra).
apply (Qmult_le_compat_r _ _ (inject_Z p)) in Hlo; [|lra].
apply (Qmult_le_compat_r _ _ (inject_Z p)) in Hhi; [|lra].
rewrite Hs in Hlo, Hhi.
clear Hs. ring_simplify in Hlo. ring_simplify in Hhi.
split; rewrite Zle_Qle; unfold Z.sub;
  rewrite ?inject_Z_plus, ?inject_Z_opp, ?inject_Z_mult;
  change (inject_Z 2) with 2%Q; lra.
Qed.

(** Consecutive levels. *)
Lemma round_levels (s p c : Z) :
0 < p → 0 < c →
Z.abs (2 * (c * round (Qc_of_Z s / Qc_of_Z (p * c))
            - round (Qc_of_Z s / Qc_of_Z p))) ≤ c + 1.
Proof.
intros Hp Hc.
pose proof (round_div_bound s p Hp) as [H1 H2].
pose proof (round_div_bound s (p * c) ltac:(nia)) as [H3 H4].
set (r := round (Qc_of_Z s / Qc_of_Z p)) in *.
set (r' := round (Qc_of_Z s / Qc_of_Z (p * c))) in *.
clearbody r r'. apply Z.abs_le. split; nia.
Qed.
End Rounding.

Section RoiLevels.
Import Roi.

Lemma to_pixel_Ok position pixel_size :
  pixel_size ≠ 0%Qc →
  to_pixel position pixel_size = Ok (round (position / pixel_size)).
Proof. intros H. unfold to_pixel, truediv. by rewrite decide_False. Qed.

Lemma to_level_Ok index c L :
  1 ≤ c → 0 ≤ L →
  to_level index c L = Ok (round (Qc_of_Z index / Qc_of_Z (c ^ L))).
Proof.
  intros Hc HL. unfold to_level, pow, truediv.
  assert ((0 <=? L) = true) as -> by lia. cbn [mbind result_bind].
  rewrite decide_False; [done|].
  rewrite <- Z2Qc_inj_0. intros H%Z2Qc_inj.
  assert (0 < c ^ L) by (apply Z.pow_pos_nonneg; lia). lia.
Qed.

Lemma convert_ROI_row_Ok level c pxl_z pxl_y pxl_x ox oy oz row :
  1 ≤ c → 0 ≤ level → pxl_z ≠ 0%Qc → pxl_y ≠ 0%Qc → pxl_x ≠ 0%Qc →
  convert_ROI_row level c (pxl_z, pxl_y, pxl_x) (ox, oy, oz) row =
    Ok (row_indices level c pxl_z pxl_y pxl_x ox oy oz row).
Proof.
  intros Hc HL Hz Hy Hx. unfold convert_ROI_row.
  rewrite !to_pixel_Ok by done. cbn [mbind result_bind].
  rewrite !to_level_Ok by done. reflexivity.
Qed.

Lemma convert_ROI_table_Ok table level c pxl_z pxl_y pxl_x ox oy oz :
  1 ≤ c → 0 ≤ level → pxl_z ≠ 0%Qc → pxl_y ≠ 0%Qc → pxl_x ≠ 0%Qc →
  convert_ROI_table_to_indices table level c (pxl_z, pxl_y, pxl_x) (ox, oy, oz)
  = Ok (row_indices level c pxl_z pxl_y pxl_x ox oy oz <$> table).
Proof.
  intros. apply for_each_map. intros row _. by apply convert_ROI_row_Ok.
Qed.

Lemma row_indices_adjacent L c pxl_z pxl_y pxl_x ox oy oz row :
  1 ≤ c → 0 ≤ L →
  adjacent_levels c (row_indices L c pxl_z pxl_y pxl_x ox oy oz row)
    (row_indices (L + 1) c pxl_z pxl_y pxl_x ox oy oz row).
Proof.
  intros Hc HL. unfold adjacent_levels, extent_z, extent_y, extent_x.
  cbn [row_indices start_z end_z start_y end_y start_x end_x].
  assert (0 < c ^ L) as Hp by (apply Z.pow_pos_nonneg; lia).
  replace (c ^ (L + 1)) with (c ^ L * c)
    by (rewrite Z.pow_add_r, Z.pow_1_r by lia; done).
  repeat split; try done.
  - match goal with
    | |- context [Z.abs (c * (round (Qc_of_Z ?e / _) - round (Qc_of_Z ?s / _)) - _)] =>
        pose proof (round_levels e (c ^ L) c Hp ltac:(lia));
        pose proof (round_levels s (c ^ L) c Hp ltac:(lia))
    end. lia.
  - match goal with
    | |- context [Z.abs (c * (round (Qc_of_Z ?e / _) - round (Qc_of_Z ?s / _)) - _)] =>
        pose proof (round_levels e (c ^ L) c Hp ltac:(lia));
        pose proof (round_levels s (c ^ L) c Hp ltac:(lia))
    end. lia.
Qed.

(** C2. For a coarsening factor [c >= 1], a level [L >= 0] and non-zero
    pixel sizes, [convert_ROI_table_to_indices] returns at the levels [L]
    and [L + 1], and row by row: the Z indices (hence the Z extent) are the
    same at both levels, and [c] times the Y (X) extent at level [L + 1]
    differs from the Y (X) extent at level [L] by at most [c + 1], that
    is, the extent at level [L + 1] is within [1 + 1/c] of the extent at
    level [L] divided by [c]. *)
Theorem convert_ROI_table_adjacent_levels table L c pxl_z pxl_y pxl_x ox oy oz :
  1 ≤ c → 0 ≤ L → pxl_z ≠ 0%Qc → pxl_y ≠ 0%Qc → pxl_x ≠ 0%Qc →
  ∃ lower upper,
    convert_ROI_table_to_indices table L c (pxl_z, pxl_y, pxl_x) (ox, oy, oz)
      = Ok lower
    ∧ convert_ROI_table_to_indices table (L + 1) c (pxl_z, pxl_y, pxl_x)
        (ox, oy, oz) = Ok upper
    ∧ length lower = length table
    ∧ Forall2 (adjacent_levels c) lower upper.
Proof.
  intros Hc HL Hz Hy Hx.
  exists (row_indices L c pxl_z pxl_y pxl_x ox oy oz <$> table),
         (row_indices (L + 1) c pxl_z pxl_y pxl_x ox oy oz <$> table).
  split; [by apply convert_ROI_table_Ok|].
  split; [apply convert_ROI_table_Ok; (done || lia)|].
  split; [apply length_fmap|].
  apply Forall2_fmap. induction table as [|row table IH]; constructor; [|done].
  by apply row_indices_adjacent.
Qed.

Example scenario_level_0 :
  convert_ROI_table_to_indices [scenario_row] 0 2
    (1%Qc, scenario_pxl, scenario_pxl) (0, 0, 0)%Qc
  = Ok [{| start_z := 0; end_z := 1; start_y := 0; end_y := 62;
           start_x := 0; end_x := 62 |}].
Proof. reflexivity. Qed.

Example scenario_level_1 :
  convert_ROI_table_to_indices [scenario_row] 1 2
    (1%Qc, scenario_pxl, scenario_pxl) (0, 0, 0)%Qc
  = Ok [{| start_z := 0; end_z := 1; start_y := 0; end_y := 31;
           start_x := 0; end_x := 31 |}].
Proof. reflexivity. Qed.

Lemma convert_ROI_table_adjacent_levels_witness :
  ∃ lower upper,
    convert_ROI_table_to_indices [scenario_row] 0 2
      (1%Qc, scenario_pxl, scenario_pxl) (0, 0, 0)%Qc = Ok lower
    ∧ convert_ROI_table_to_indices [scenario_row] (0 + 1) 2
        (1%Qc, scenario_pxl, scenario_pxl) (0, 0, 0)%Qc = Ok upper
    ∧ length lower = length [scenario_row]
    ∧ Forall2 (adjacent_levels 2) lower upper.
Proof.
  apply (convert_ROI_table_adjacent_levels [scenario_row] 0 2);
    try lia; apply Qc_neq_bool; reflexivity.
Defined.
End RoiLevels.

(** ** Validation of the ROI indices *)
Section RoiValidation.
Import Roi.
Import NapariWorkflowsWrapper.

Lemma check_valid_ROI_indices_raises list_indices name :
  Exists (λ i, ¬ valid_indices i) list_indices →
  check_valid_ROI_indices list_indices name = Err (Raise InvalidROIError name).
Proof.
  induction list_indices as [|i l IH]; intros Hex; [by apply Exists_nil in Hex|].
  cbn. case_decide as Hi; [done|].
  apply Exists_cons in Hex as [Hbad|Hex]; [|by apply IH].
  exfalso. apply Hbad. unfold valid_indices. lia.
Qed.

Lemma check_valid_ROI_indices_Ok list_indices name :
  Forall valid_indices list_indices →
  check_valid_ROI_indices list_indices name = Ok tt.
Proof.
  induction 1 as [|i l Hi _ IH]; [done|]. cbn.
  rewrite decide_False; [done|]. unfold valid_indices in Hi. lia.
Qed.

(** C4. [check_valid_ROI_indices] raises as soon as some tuple has
    [end <= start] on some axis and returns when [end > start] holds on
    every axis of every tuple.  In the task, when the check fails (on the
    indices built from the image, or on those rebuilt from the input
    label), the error is what the task raises and the trace of region
    reads and writes is the one the task started with: nothing was read or
    written. *)
Theorem check_valid_ROI_indices_first :
  (∀ list_indices name,
     Exists (λ i, ¬ valid_indices i) list_indices →
     check_valid_ROI_indices list_indices name =
       Err (Raise InvalidROIError name))
  ∧ (∀ list_indices name,
       Forall valid_indices list_indices →
       check_valid_ROI_indices list_indices name = Ok tt)
  ∧ (∀ input_specs output_specs expected_dimensions mask_ndim name
       ROI_table level c pxl label_pxl list_indices trace,
       convert_ROI_table_to_indices ROI_table level c pxl (0, 0, 0)%Qc
         = Ok list_indices →
       Exists (λ i, ¬ valid_indices i) list_indices →
       napari_workflows_wrapper input_specs output_specs expected_dimensions
         mask_ndim name ROI_table level c pxl label_pxl trace
       = (Err (Raise InvalidROIError name), trace))
  ∧ (∀ input_specs output_specs expected_dimensions mask_ndim name
       ROI_table level c pxl pxl' list_indices list_indices' trace,
       convert_ROI_table_to_indices ROI_table level c pxl (0, 0, 0)%Qc
         = Ok list_indices →
       Forall valid_indices list_indices →
       convert_ROI_table_to_indices ROI_table level c pxl' (0, 0, 0)%Qc
         = Ok list_indices' →
       Exists (λ i, ¬ valid_indices i) list_indices' →
       napari_workflows_wrapper input_specs output_specs expected_dimensions
         mask_ndim name ROI_table level c pxl (Some pxl') trace
       = (Err (Raise InvalidROIError name), trace)).
Proof.
  split; [exact check_valid_ROI_indices_raises|].
  split; [exact check_valid_ROI_indices_Ok|]. split.
  - intros ????? ROI_table level c pxl label_pxl l trace Hconv Hex.
    unfold napari_workflows_wrapper, mbind, io_bind, lift.
    rewrite Hconv. by rewrite check_valid_ROI_indices_raises.
  - intros ????? ROI_table level c pxl pxl' l l' trace Hconv Hall Hconv' Hex.
    unfold napari_workflows_wrapper, mbind, io_bind, lift.
    rewrite Hconv. rewrite check_valid_ROI_indices_Ok by done.
    rewrite Hconv'. by rewrite check_valid_ROI_indices_raises.
Qed.
End RoiValidation.

Section CoarseningWitness.
Import LibNgff.
Import NgffImageMeta.



(** The ratio is the rounded [float] quotient: the X ratio of
    [tie_example] is [round(2.5) = 2] although the real quotient rounds to
    3, and it differs from the Y ratio 3. *)
Example coarsening_xy_rounds_float_quotient :
  round (Qc_of_Z (5 * 2 ^ 48 + 1) / Qc_of_Z (2 ^ 49)
         / (Qc_of_Z (2 ^ 52 + 3) / Qc_of_Z (2 ^ 52)))%Qc = 3
  ∧ ratio tie_example 1 size_x = Ok 2
  ∧ ratio tie_example 1 size_y = Ok 3
  ∧ coarsening_xy tie_example
    = Err (Raise NotImplementedError
             "Inhomogeneous coarsening in X/Y directions is not supported.").
Proof. repeat split; vm_compute; reflexivity. Qed.

(** A coarsening factor 0: the ratio 0.25 is rounded to 0. *)
Example coarsening_xy_zero :
  load_NgffImageMeta finer_second_level_example
  = Ok finer_second_level_example
  ∧ coarsening_xy finer_second_level_example = Ok (Some 0).
Proof. split; vm_compute; reflexivity. Qed.

(** An infinite quotient: [round] raises an [OverflowError]. *)
Example coarsening_xy_overflow :
  coarsening_xy overflow_example
  = Err (Raise OverflowError "cannot convert float infinity to integer").
Proof. vm_compute. reflexivity. Qed.
End CoarseningWitness.

(** ** The statements at work on small inputs *)
Section Examples.
Import LibNgff.
Import Roi.
Import NapariWorkflowsWrapper.

(** A dataset with two scales has no unique scale transformation. *)
Example two_scales_raise :
  Dataset.scale_transformation
    (Dataset.Build "0"
       [ScaleCoordinateTransformation [1%Qc; 1%Qc; 1%Qc];
        TranslationCoordinateTransformation [0%Qc; 0%Qc; 0%Qc];
        ScaleCoordinateTransformation [1%Qc; 2%Qc; 2%Qc]])
  = Err (Raise ValueError "More than one scale transformation in dataset.").
Proof. reflexivity. Qed.

(** Two multiscale blocks: the pixel sizes are never looked at. *)
Example two_multiscales_raise :
  let ms := Multiscale.Build None [] None [] None in
  NgffImageMeta.pixel_sizes_zyx (NgffImageMeta.Build [ms; ms])
  = Err (Raise NotImplementedError
           "Only images with one multiscale are supported").
Proof. reflexivity. Qed.

(** An X pixel size of [1e-10] is refused. *)
Example small_x_raises :
  NgffImageMeta.pixel_sizes_zyx
    (NgffImageMeta.Build
       [Multiscale.Build None
          [Dataset.Build "0"
             [ScaleCoordinateTransformation
                [1%Qc; 1%Qc; Q2Qc (1 # 10000000000)]]]
          None
          [Axis.Build "z" (Some "space"); Axis.Build "y" (Some "space");
           Axis.Build "x" (Some "space")]
          None])
  = Err too_small_exn.
Proof. reflexivity. Qed.

(** A ROI of zero length along X: the task stops at the validation and
    touches no region. *)
Example zero_extent_stops_task :
  let row := {| x_micrometer := 0; y_micrometer := 0; z_micrometer := 0;
                len_x_micrometer := 0; len_y_micrometer := Qc_of_Z 10;
                len_z_micrometer := 1 |}%Qc in
  napari_workflows_wrapper ["in_1"] [("out_1", label)] 3 (λ _ _, 3)
    "FOV_ROI_table" [row] 0 2 (1%Qc, scenario_pxl, scenario_pxl) None []
  = (Err (Raise InvalidROIError "FOV_ROI_table"), []).
Proof. reflexivity. Qed.

(** The ROI of the scenario: one read and one write of its region. *)
Example scenario_task :
  let region := {| start_z := 0; end_z := 1; start_y := 0; end_y := 62;
                   start_x := 0; end_x := 62 |} in
  napari_workflows_wrapper ["in_1"] [("out_1", label)] 3 (λ _ _, 3)
    "FOV_ROI_table" [scenario_row] 0 2 (1%Qc, scenario_pxl, scenario_pxl)
    None []
  = (Ok tt, [load_region "in_1" region; to_zarr "out_1" region]).
Proof. reflexivity. Qed.
End Examples.

(** * Further properties *)

(** ** [rescale_datasets]: shape of the result *)
Section RescaleShape.
Import LibZattrsUtils.

(** X1. When [rescale_datasets] returns, it returns as many datasets as it
    was given, and each new dataset has the keys of the old one at the
    same position: every key other than ["coordinateTransformations"]
    keeps its value, and ["coordinateTransformations"] holds a list of
    transformations. *)
Theorem rescale_datasets_keys datasets c L new_datasets :
  rescale_datasets datasets c L = Ok new_datasets →
  length new_datasets = length datasets
  ∧ ∀ i ds new_ds,
      datasets !! i = Some ds → new_datasets !! i = Some new_ds →
      dom new_ds = dom ds
      ∧ (∀ k, k ≠ coordT → new_ds !! k = ds !! k)
      ∧ ∃ new_ts, new_ds !! coordT = Some (DTransformations new_ts).
Proof.
  intros H. split; [by eapply for_each_length|].
  apply for_each_Forall2 in H. intros i ds new_ds Hi Hi'.
  pose proof (Forall2_lookup_lr _ _ _ _ _ _ H Hi Hi') as Hds.
  apply rescale_dataset_Ok in Hds as (old & new_ts & Hold & _ & ->).
  split; [|split].
  - rewrite dom_insert_L. apply elem_of_dom_2 in Hold. set_solver.
  - intros k Hk. by rewrite lookup_insert_ne.
  - exists new_ts. by rewrite lookup_insert_eq.
Qed.

Lemma rescale_datasets_Forall2 datasets c L new_datasets i ds ts :
  rescale_datasets datasets c L = Ok new_datasets →
  datasets !! i = Some ds → ds !! coordT = Some (DTransformations ts) →
  ∃ new_ds new_ts,
    new_datasets !! i = Some new_ds
    ∧ new_ds !! coordT = Some (DTransformations new_ts)
    ∧ Forall2 (transformation_rescaled c L) ts new_ts.
Proof.
  intros H Hi Hts. apply for_each_Forall2 in H.
  destruct (Forall2_lookup_l _ _ _ _ _ H Hi) as (new_ds & Hi' & Hds).
  apply rescale_dataset_Ok in Hds as (old & new_ts & Hold & Hnew & ->).
  exists (<[coordT := DTransformations new_ts]> ds), new_ts.
  split; [done|]. split; [by rewrite lookup_insert_eq|].
  rewrite Hts in Hold. assert (old = DTransformations ts) as -> by congruence.
  cbn in Hnew. apply for_each_Forall2 in Hnew.
  eapply Forall2_impl; [exact Hnew|]. intros t t'.
  apply rescale_transformation_Ok.
Qed.

(** X2. When [rescale_datasets] returns, the transformations of each new
    dataset correspond one to one, in order, to those of the old dataset:
    a transformation whose type is not ["scale"] is kept as it is, and a
    ["scale"] with components [s0, s1, s2, ...] becomes the dict with
    ["type"] ["scale"] and ["scale"] [[s0, s1 * p, s2 * p]], where
    [p = coarsening_xy ** reference_level]; further components and further
    keys of the old ["scale"] dict are dropped. *)
Theorem rescale_datasets_transformations datasets c L new_datasets :
  rescale_datasets datasets c L = Ok new_datasets →
  ∀ i ds ts,
    datasets !! i = Some ds → ds !! coordT = Some (DTransformations ts) →
    ∃ new_ds new_ts,
      new_datasets !! i = Some new_ds
      ∧ new_ds !! coordT = Some (DTransformations new_ts)
      ∧ Forall2 (transformation_rescaled c L) ts new_ts.
Proof.
  intros H i ds ts Hi Hts. apply for_each_Forall2 in H.
  destruct (Forall2_lookup_l _ _ _ _ _ H Hi) as (new_ds & Hi' & Hds).
  apply rescale_dataset_Ok in Hds as (old & new_ts & Hold & Hnew & ->).
  exists (<[coordT := DTransformations new_ts]> ds), new_ts.
  split; [done|]. split; [by rewrite lookup_insert_eq|].
  rewrite Hts in Hold. assert (old = DTransformations ts) as -> by congruence.
  cbn in Hnew. apply for_each_Forall2 in Hnew.
  eapply Forall2_impl; [exact Hnew|]. intros t t'.
  apply rescale_transformation_Ok.
Qed.

Lemma rescale_datasets_keys_witness :
  dom (rescaled_dataset (Qc_of_Z 2) zyx_example) = dom zyx_example.
Proof.
  destruct (rescale_datasets_keys [zyx_example] 2 1
              [rescaled_dataset (Qc_of_Z 2) zyx_example]) as [_ H].
  - apply (rescale_datasets_rescaled 2 1 (Qc_of_Z 2) [zyx_example]);
      [reflexivity|].
    eapply Forall_impl; [exact zyx_example_zyx|apply zyx_well_formed].
  - destruct (H 0%nat zyx_example _ eq_refl eq_refl) as [Hd _]. exact Hd.
Defined.

Lemma rescale_datasets_transformations_witness :
  ∃ new_ds new_ts,
    [rescaled_dataset (Qc_of_Z 2) zyx_example] !! 0%nat = Some new_ds
    ∧ new_ds !! coordT = Some (DTransformations new_ts)
    ∧ Forall2 (transformation_rescaled 2 1)
        [scale_dict [1%Qc; Q2Qc (1625 # 10000); Q2Qc (1625 # 10000)];
         Transformation (Some "translation")
           {[ "translation" := [0%Qc; 0%Qc; 0%Qc] ]}]
        new_ts.
Proof.
  apply (rescale_datasets_transformations [zyx_example] 2 1
           [rescaled_dataset (Qc_of_Z 2) zyx_example]) with zyx_example.
  - apply (rescale_datasets_rescaled 2 1 (Qc_of_Z 2) [zyx_example]);
      [reflexivity|].
    eapply Forall_impl; [exact zyx_example_zyx|apply zyx_well_formed].
  - reflexivity.
  - apply dataset_dict_lookup.
Defined.
End RescaleShape.

(** ** [rescale_datasets]: malformed input, special arguments *)
Section RescaleEdges.
Import LibZattrsUtils.

Lemma getitem_short {A} (s : list A) (i : Z) :
  Z.of_nat (length s) ≤ i → ∃ e, getitem s i = Err e.
Proof.
  intros H. pose proof (getitem_out_of_range s i H) as Hr.
  destruct (getitem s i); [done|by eexists].
Qed.

Lemma rescale_transformation_malformed c L t :
  malformed_transformation t → raises (rescale_transformation c L t).
Proof.
  intros [Hty|[Hty Hs]]; unfold rescale_transformation, get_type; rewrite Hty;
    [done|]. cbn [mbind result_bind]. rewrite decide_True by done.
  unfold getitem_dict. destruct (vectors t !! "scale") as [s|] eqn:Hv; [|done].
  cbn [mbind result_bind]. specialize (Hs s eq_refl).
  destruct (getitem s 0) as [s0|]; [|done]. cbn [mbind result_bind].
  destruct (getitem s 1) as [s1|]; [|done]. cbn [mbind result_bind].
  destruct (pow c L) as [p|]; [|done]. cbn [mbind result_bind].
  destruct (getitem_short s 2) as [e ->]; [lia|]. done.
Qed.

(** X3. [rescale_datasets] raises as soon as one dataset of the list is
    malformed, wherever it stands and whatever the other datasets are: a
    dataset without the key ["coordinateTransformations"], or with a
    transformation that has no ["type"], or with a ["scale"] transformation
    that has no ["scale"] entry or fewer than three components. *)
Theorem rescale_datasets_malformed datasets c L ds :
  ds ∈ datasets → malformed_dataset ds →
  raises (rescale_datasets datasets c L).
Proof.
  intros Hin Hbad. apply for_each_raises with ds; [done|].
  unfold rescale_dataset, getitem_dict.
  destruct Hbad as [->|(ts & t & -> & Ht & Hbad)]; [done|].
  cbn [mbind result_bind rescale_transformations].
  pose proof (for_each_raises (rescale_transformation c L) ts t Ht
                (rescale_transformation_malformed c L t Hbad)) as Hr.
  destruct (for_each _ ts); done.
Qed.

Lemma rescale_datasets_malformed_witness :
  raises (rescale_datasets [dataset_dict "0" [scale_dict [1%Qc; 1%Qc]]] 2 1).
Proof.
  apply (rescale_datasets_malformed _ 2 1
           (dataset_dict "0" [scale_dict [1%Qc; 1%Qc]])); [by left|].
  right. exists [scale_dict [1%Qc; 1%Qc]], (scale_dict [1%Qc; 1%Qc]).
  split; [apply dataset_dict_lookup|]. split; [by left|].
  right. split; [done|]. intros s Hs. rewrite scale_dict_lookup in Hs.
  assert (s = [1%Qc; 1%Qc]) as -> by congruence. cbn. lia.
Defined.

(** X4. When no transformation of any dataset has the type ["scale"],
    [rescale_datasets] returns the datasets it was given, for every
    [coarsening_xy] and every [reference_level]; the power
    [coarsening_xy ** reference_level] is then never computed, so that not
    even [0 ** -1] raises. *)
Theorem rescale_datasets_scale_free datasets c L :
  Forall scale_free datasets → rescale_datasets datasets c L = Ok datasets.
Proof.
  intros Hall. unfold rescale_datasets.
  rewrite (for_each_map _ id); [by rewrite list_fmap_id|].
  intros ds Hds. apply (proj1 (Forall_forall _ _) Hall) in Hds as (ts & Hts & Hns).
  unfold rescale_dataset, getitem_dict. rewrite Hts.
  cbn [mbind result_bind rescale_transformations].
  rewrite (for_each_map _ id).
  - rewrite list_fmap_id. cbn [mbind result_bind].
    rewrite insert_filter_ne. unfold id. f_equal. by apply insert_id.
  - intros t Ht. apply (proj1 (Forall_forall _ _) Hns) in Ht as (ty & Hty & Hne).
    unfold rescale_transformation, get_type. rewrite Hty.
    cbn [mbind result_bind]. by rewrite decide_False.
Qed.

Lemma rescale_datasets_scale_free_witness :
  rescale_datasets [translation_only_example] 0 (-1)
  = Ok [translation_only_example].
Proof.
  apply rescale_datasets_scale_free. repeat constructor.
  eexists. split; [apply dataset_dict_lookup|]. repeat constructor.
  exists "translation". split; [reflexivity|]. intros [=].
Defined.

Lemma pow_zero_negative L : L < 0 → ∃ msg, pow 0 L = Err (Raise ZeroDivisionError msg).
Proof.
  intros HL. unfold pow. assert ((0 <=? L) = false) as -> by lia.
  cbn. by eexists.
Qed.

Lemma for_each_first_class {A B} (f : A → result B) l cls x :
  (∀ y, y ∈ l → raises_class cls (f y) ∨ ∃ b, f y = Ok b) →
  x ∈ l → raises_class cls (f x) → raises_class cls (for_each f l).
Proof.
  induction l as [|y l IH]; intros Hall Hin Hx; [by apply elem_of_nil in Hin|].
  cbn. destruct (Hall y) as [Hy|[b Hy]]; [by left| |].
  - destruct (f y); done.
  - rewrite Hy. cbn [mbind result_bind].
    apply elem_of_cons in Hin as [->|Hin].
    + rewrite Hy in Hx. done.
    + assert (raises_class cls (for_each f l)) as Hr.
      { apply IH; [|done|done]. intros z Hz. apply Hall. by right. }
      destruct (for_each f l); done.
Qed.

Lemma rescale_transformation_zero L t :
  L < 0 → three_components t →
  (type_ t = Some "scale" →
     raises_class ZeroDivisionError (rescale_transformation 0 L t))
  ∧ (type_ t ≠ Some "scale" → rescale_transformation 0 L t = Ok t).
Proof.
  intros HL (ty & Hty & Hs). unfold rescale_transformation, get_type.
  rewrite Hty. cbn [mbind result_bind]. split.
  - intros [= ->]. rewrite decide_True by done.
    destruct (Hs eq_refl) as (s0 & s1 & s2 & rest & Hv).
    unfold getitem_dict. rewrite Hv. cbn [mbind result_bind].
    rewrite (getitem_lookup _ 0 s0), (getitem_lookup _ 1 s1) by (done || lia).
    cbn [mbind result_bind].
    destruct (pow_zero_negative L HL) as [msg ->]. done.
  - intros Hne. rewrite decide_False; [done|]. intros ->. done.
Qed.

(** X5. With [coarsening_xy = 0] and a negative [reference_level],
    [rescale_datasets] raises a [ZeroDivisionError] on well-formed datasets
    as soon as one of them has a ["scale"] transformation. *)
Theorem rescale_datasets_zero_division datasets L :
  L < 0 → Forall well_formed datasets → has_scale datasets →
  raises_class ZeroDivisionError (rescale_datasets datasets 0 L).
Proof.
  intros HL Hwf (ds & ts & t & Hds & Hts & Ht & Hty).
  assert (∀ ds', well_formed ds' →
            raises_class ZeroDivisionError (rescale_dataset 0 L ds')
            ∨ ∃ b, rescale_dataset 0 L ds' = Ok b) as Hstep.
  { intros ds' (ts' & Hts' & Hall). unfold rescale_dataset, getitem_dict.
    rewrite Hts'. cbn [mbind result_bind rescale_transformations].
    destruct (for_each (rescale_transformation 0 L) ts') as [new_ts|e] eqn:Hfe.
    - right. by eexists.
    - left. apply for_each_Err in Hfe as (t' & Ht' & He).
      apply (proj1 (Forall_forall _ _) Hall) in Ht'.
      destruct (rescale_transformation_zero L t' HL Ht') as [H1 H2].
      destruct (decide (type_ t' = Some "scale")) as [Hsc|Hsc].
      + specialize (H1 Hsc). rewrite He in H1. exact H1.
      + rewrite (H2 Hsc) in He. done. }
  apply for_each_first_class with ds; [|done|].
  - intros ds' Hds'. apply Hstep. exact (proj1 (Forall_forall _ _) Hwf ds' Hds').
  - pose proof (proj1 (Forall_forall _ _) Hwf ds Hds) as (ts' & Hts' & Hall).
    assert (ts' = ts) as -> by congruence.
    unfold rescale_dataset, getitem_dict. rewrite Hts.
    cbn [mbind result_bind rescale_transformations].
    assert (raises_class ZeroDivisionError
              (for_each (rescale_transformation 0 L) ts)) as Hr.
    { apply for_each_first_class with t; [|done|].
      - intros t' Ht'. apply (proj1 (Forall_forall _ _) Hall) in Ht'.
        destruct (rescale_transformation_zero L t' HL Ht') as [H1 H2].
        destruct (decide (type_ t' = Some "scale")) as [Hsc|Hsc];
          [left; by apply H1|right; eexists; by apply H2].
      - apply (proj1 (Forall_forall _ _) Hall) in Ht.
        by apply (rescale_transformation_zero L t HL Ht). }
    destruct (for_each _ ts); done.
Qed.

Lemma rescale_datasets_zero_division_witness :
  raises_class ZeroDivisionError (rescale_datasets [zyx_example] 0 (-1)).
Proof.
  apply rescale_datasets_zero_division; [lia| |].
  - eapply Forall_impl; [exact zyx_example_zyx|apply zyx_well_formed].
  - eexists zyx_example, _, _. split; [by left|].
    split; [apply dataset_dict_lookup|]. split; [by left|reflexivity].
Defined.
End RescaleEdges.

(** ** [extract_zyx_pixel_sizes]: result, errors, levels *)
Section ExtractZyx.
Import LibZattrsUtils.

Lemma getitem_wrap {A} (l : list A) (i : Z) :
  - Z.of_nat (length l) ≤ i < 0 →
  getitem l i = getitem l (i + Z.of_nat (length l)).
Proof.
  intros Hi. rewrite (getitem_nonneg l (i + _)) by lia.
  unfold getitem. cbv zeta.
  assert ((i <? 0) = true) as -> by lia. cbv iota.
  assert ((i + Z.of_nat (length l) <? 0) = false) as -> by lia.
  by rewrite orb_false_l.
Qed.

Lemma getitem_IndexError {A} (l : list A) (i : Z) :
  Z.of_nat (length l) ≤ i ∨ i < - Z.of_nat (length l) →
  getitem l i = Err (Raise IndexError "list index out of range").
Proof.
  intros Hi. unfold getitem. cbv zeta.
  destruct (i <? 0) eqn:Hneg.
  - assert ((i + Z.of_nat (length l) <? 0) = true) as -> by lia. done.
  - assert ((i <? 0) = false) as -> by lia.
    assert ((Z.of_nat (length l) <=? i) = true) as -> by lia. cbn. done.
Qed.

Lemma getitem_same_length {A B} (l : list A) (l' : list B) i x :
  getitem l i = Ok x → length l' = length l →
  ∃ j, l !! j = Some x ∧ ∀ y, l' !! j = Some y → getitem l' i = Ok y.
Proof.
  intros Hx Hlen. unfold getitem in *. cbv zeta in *. rewrite Hlen.
  destruct (_ || _); [done|].
  destruct (l !! _) as [x'|] eqn:E; [|done].
  assert (x' = x) as -> by congruence.
  eexists. split; [exact E|]. intros y Hy. by rewrite Hy.
Qed.

Lemma first_scale_Ok ts l :
  first_scale ts = Ok l →
  ∃ pre t post,
    ts = (pre ++ t :: post)%list ∧ Forall not_scale pre
    ∧ type_ t = Some "scale" ∧ vectors t !! "scale" = Some l
    ∧ l ≠ [] ∧ Forall (λ v, tiny ≤ v)%Qc l.
Proof.
  induction ts as [|t ts IH]; cbn; [done|].
  unfold get_type. destruct (type_ t) as [ty|] eqn:Hty; [|done].
  cbn [mbind result_bind]. destruct (decide (ty = "scale")) as [->|Hne].
  - unfold getitem_dict.
    destruct (vectors t !! "scale") as [s|] eqn:Hs; [|done].
    cbn [mbind result_bind].
    destruct (min_list s) as [m|] eqn:Hm; [|done]. cbn [mbind result_bind].
    case_decide as Hlt; [done|]. intros Heq.
    assert (s = l) as -> by congruence.
    exists [], t, ts. repeat split; try done.
    + intros ->. done.
    + apply min_list_spec in Hm as [_ Hall].
      eapply Forall_impl; [exact Hall|]. intros v Hv. cbn beta in Hv.
      eapply Qcle_trans; [|exact Hv]. by apply Qcnot_lt_le.
  - intros H. destruct (IH H) as (pre & t' & post & -> & Hpre & Hrest).
    exists (t :: pre), t', post. split; [done|]. split; [|done].
    constructor; [|done]. by exists ty.
Qed.

Lemma extract_zyx_pixel_sizes_try_Ok z level l :
  extract_zyx_pixel_sizes_try z level = Ok l →
  ∃ m datasets ds ts,
    multiscales z = Some [m] ∧ ms_coordinateTransformations m = None
    ∧ ms_datasets m = Some datasets ∧ getitem datasets level = Ok ds
    ∧ ds !! coordT = Some (DTransformations ts) ∧ first_scale ts = Ok l.
Proof.
  unfold extract_zyx_pixel_sizes_try.
  destruct (multiscales z) as [ms|] eqn:Hz; [|done].
  cbn [getkey mbind result_bind]. case_decide as Hlen; [done|].
  destruct ms as [|m ms]; [done|].
  destruct ms as [|m' ms]; [|cbn in Hlen; lia].
  change (getitem [m] 0) with (Ok m). cbn [mbind result_bind].
  case_decide as Hg; [done|]. cbn [mbind result_bind].
  destruct (ms_datasets m) as [datasets|] eqn:Hds; [|done].
  cbn [getkey mbind result_bind].
  destruct (getitem datasets level) as [ds|] eqn:Hlevel; [|done].
  cbn [mbind result_bind]. unfold getitem_dict.
  destruct (ds !! coordT) as [tr|] eqn:Htr; [|done]. cbn [mbind result_bind].
  destruct tr as [s|ts]; [by case_decide|].
  intros H. exists m, datasets, ds, ts. repeat split; try done.
  destruct (ms_coordinateTransformations m); [|done].
  exfalso. apply Hg. by eexists.
Qed.

Lemma except_KeyError_Ok {A} (r : result A) a :
  except_KeyError r = Ok a → r = Ok a.
Proof. destruct r as [|[[] ?]]; done. Qed.

Lemma extract_zyx_pixel_sizes_inv z level l :
  extract_zyx_pixel_sizes z level = Ok l →
  ∃ m datasets ds pre t post,
    multiscales z = Some [m] ∧ ms_coordinateTransformations m = None
    ∧ ms_datasets m = Some datasets ∧ getitem datasets level = Ok ds
    ∧ ds !! coordT = Some (DTransformations (pre ++ t :: post)%list)
    ∧ Forall not_scale pre ∧ type_ t = Some "scale"
    ∧ vectors t !! "scale" = Some l
    ∧ l ≠ [] ∧ Forall (λ v, tiny ≤ v)%Qc l.
Proof.
  intros H. apply except_KeyError_Ok in H.
  apply extract_zyx_pixel_sizes_try_Ok in H
    as (m & datasets & ds & ts & Hz & Hg & Hds & Hlevel & Hts & Hfs).
  apply first_scale_Ok in Hfs as (pre & t & post & -> & Hrest).
  by exists m, datasets, ds, pre, t, post.
Qed.

(** X7. When [extract_zyx_pixel_sizes] returns a list, the attributes
    have exactly one multiscale, without global transformations, the
    dataset at index [level] (a Python index) has a list of
    transformations, and the list returned is the ["scale"] entry of the
    first transformation of type ["scale"]; it is not empty and none of
    its components is below [1e-9]. *)
Theorem extract_zyx_pixel_sizes_Ok z level l :
  extract_zyx_pixel_sizes z level = Ok l →
  ∃ m datasets ds pre t post,
    multiscales z = Some [m] ∧ ms_coordinateTransformations m = None
    ∧ ms_datasets m = Some datasets ∧ getitem datasets level = Ok ds
    ∧ ds !! coordT = Some (DTransformations (pre ++ t :: post)%list)
    ∧ Forall not_scale pre ∧ type_ t = Some "scale"
    ∧ vectors t !! "scale" = Some l
    ∧ l ≠ [] ∧ Forall (λ v, tiny ≤ v)%Qc l.
Proof.
  intros H. apply except_KeyError_Ok in H.
  apply extract_zyx_pixel_sizes_try_Ok in H
    as (m & datasets & ds & ts & Hz & Hg & Hds & Hlevel & Hts & Hfs).
  apply first_scale_Ok in Hfs as (pre & t & post & -> & Hrest).
  by exists m, datasets, ds, pre, t, post.
Qed.

Lemma extract_zyx_example :
  extract_zyx_pixel_sizes (one_level_zattrs zyx_example) 0
  = Ok [1%Qc; Q2Qc (1625 # 10000); Q2Qc (1625 # 10000)].
Proof.
  refine (proj2 (extract_zyx_pixel_sizes_floor (one_level_zattrs zyx_example)
            _ [zyx_example] 0 zyx_example [] _ _ _
            eq_refl eq_refl eq_refl eq_refl (dataset_dict_lookup _ _)
            (Forall_nil_2 _) eq_refl (scale_dict_lookup _)) _ _); [done|].
  rewrite !Forall_cons, Forall_nil. repeat split; by apply Qle_bool_imp_le.
Qed.

Lemma extract_zyx_pixel_sizes_Ok_witness :
  ∃ m datasets ds pre t post,
    multiscales (one_level_zattrs zyx_example) = Some [m]
    ∧ ms_coordinateTransformations m = None
    ∧ ms_datasets m = Some datasets ∧ getitem datasets 0 = Ok ds
    ∧ ds !! coordT = Some (DTransformations (pre ++ t :: post)%list)
    ∧ Forall not_scale pre ∧ type_ t = Some "scale"
    ∧ vectors t !! "scale"
      = Some [1%Qc; Q2Qc (1625 # 10000); Q2Qc (1625 # 10000)]
    ∧ [1%Qc; Q2Qc (1625 # 10000); Q2Qc (1625 # 10000)] ≠ []
    ∧ Forall (λ v, tiny ≤ v)%Qc
        [1%Qc; Q2Qc (1625 # 10000); Q2Qc (1625 # 10000)].
Proof.
  apply (extract_zyx_pixel_sizes_Ok (one_level_zattrs zyx_example) 0).
  exact extract_zyx_example.
Defined.

(** X8. The [except] clause of [extract_zyx_pixel_sizes]: every
    [KeyError] is raised anew with the message of the function, whatever
    key was missing; the function raises it exactly when the body raises
    a [KeyError]; exceptions of the other classes pass unchanged. A
    missing ["multiscales"], ["datasets"] or
    ["coordinateTransformations"] key gives this [KeyError]. *)
Theorem extract_zyx_pixel_sizes_KeyError :
  (∀ z level e, extract_zyx_pixel_sizes z level = Err e →
     class_of e = KeyError → e = failed_KeyError)
  ∧ (∀ z level, raises_class KeyError (extract_zyx_pixel_sizes_try z level) ↔
       extract_zyx_pixel_sizes z level = Err failed_KeyError)
  ∧ (∀ z level e, extract_zyx_pixel_sizes_try z level = Err e →
       class_of e ≠ KeyError → extract_zyx_pixel_sizes z level = Err e)
  ∧ (∀ z level, multiscales z = None →
       extract_zyx_pixel_sizes z level = Err failed_KeyError)
  ∧ (∀ z m level, multiscales z = Some [m] →
       ms_coordinateTransformations m = None → ms_datasets m = None →
       extract_zyx_pixel_sizes z level = Err failed_KeyError)
  ∧ (∀ z m datasets level ds, multiscales z = Some [m] →
       ms_coordinateTransformations m = None →
       ms_datasets m = Some datasets → getitem datasets level = Ok ds →
       ds !! coordT = None →
       extract_zyx_pixel_sizes z level = Err failed_KeyError).
Proof.
  split; [|split; [|split; [|split; [|split]]]].
  - intros z level e. unfold extract_zyx_pixel_sizes.
    destruct (extract_zyx_pixel_sizes_try z level) as [|[[] msg]]; cbn;
      intros [= <-]; done.
  - intros z level. unfold extract_zyx_pixel_sizes.
    destruct (extract_zyx_pixel_sizes_try z level) as [|[[] msg]]; cbn;
      split; done.
  - intros z level e. unfold extract_zyx_pixel_sizes. intros ->.
    destruct e as [[] msg]; done.
  - intros z level Hz. unfold extract_zyx_pixel_sizes,
      extract_zyx_pixel_sizes_try. by rewrite Hz.
  - intros z m level Hz Hg Hds. unfold extract_zyx_pixel_sizes,
      extract_zyx_pixel_sizes_try. rewrite Hz. cbn [getkey mbind result_bind].
    rewrite decide_False by (cbn; lia).
    change (getitem [m] 0) with (Ok m). cbn [mbind result_bind].
    rewrite decide_False by (rewrite Hg; by intros [? [=]]).
    cbn [mbind result_bind]. by rewrite Hds.
  - intros z m datasets level ds Hz Hg Hds Hlevel Hts.
    unfold extract_zyx_pixel_sizes, extract_zyx_pixel_sizes_try.
    rewrite Hz. cbn [getkey mbind result_bind].
    rewrite decide_False by (cbn; lia).
    change (getitem [m] 0) with (Ok m). cbn [mbind result_bind].
    rewrite decide_False by (rewrite Hg; by intros [? [=]]).
    cbn [mbind result_bind]. rewrite Hds. cbn [getkey mbind result_bind].
    rewrite Hlevel. cbn [mbind result_bind]. unfold getitem_dict.
    by rewrite Hts.
Qed.

Lemma extract_zyx_pixel_sizes_datasets z m datasets level :
  multiscales z = Some [m] → ms_coordinateTransformations m = None →
  ms_datasets m = Some datasets →
  extract_zyx_pixel_sizes z level =
    except_KeyError
      (ds ← getitem datasets level;
       transformations ← getitem_dict ds coordT;
       match transformations with
       | DTransformations ts => first_scale ts
       | DStr s =>
           if decide (s = "") then first_scale []
           else Err (Raise TypeError "string indices must be integers")
       end).
Proof.
  intros Hz Hg Hds. unfold extract_zyx_pixel_sizes,
    extract_zyx_pixel_sizes_try. rewrite Hz. cbn [getkey mbind result_bind].
  rewrite decide_False by (cbn; lia).
  change (getitem [m] 0) with (Ok m). cbn [mbind result_bind].
  rewrite decide_False by (rewrite Hg; by intros [? [=]]).
  cbn [mbind result_bind]. by rewrite Hds.
Qed.

(** X9. The [level] of [extract_zyx_pixel_sizes] is a Python list index:
    with [n] datasets, a level [n] or more, or below [-n], gives an
    [IndexError], which the [except] clause does not catch; a negative
    level down to [-n] selects the dataset [level + n]. *)
Theorem extract_zyx_pixel_sizes_level z m datasets level :
  multiscales z = Some [m] → ms_coordinateTransformations m = None →
  ms_datasets m = Some datasets →
  let n := Z.of_nat (length datasets) in
  (n ≤ level ∨ level < - n →
     extract_zyx_pixel_sizes z level
     = Err (Raise IndexError "list index out of range"))
  ∧ (- n ≤ level < 0 →
     extract_zyx_pixel_sizes z level = extract_zyx_pixel_sizes z (level + n)).
Proof.
  intros Hz Hg Hds n. split.
  - intros Hl. rewrite (extract_zyx_pixel_sizes_datasets z m datasets) by done.
    by rewrite getitem_IndexError.
  - intros Hl. rewrite !(extract_zyx_pixel_sizes_datasets z m datasets) by done.
    by rewrite getitem_wrap.
Qed.

Lemma extract_zyx_pixel_sizes_level_witness :
  extract_zyx_pixel_sizes (one_level_zattrs zyx_example) 1
  = Err (Raise IndexError "list index out of range")
  ∧ extract_zyx_pixel_sizes (one_level_zattrs zyx_example) (-1)
    = extract_zyx_pixel_sizes (one_level_zattrs zyx_example) (-1 + 1).
Proof.
  destruct (extract_zyx_pixel_sizes_level (one_level_zattrs zyx_example)
              _ [zyx_example] 1 eq_refl eq_refl eq_refl) as [H1 _].
  destruct (extract_zyx_pixel_sizes_level (one_level_zattrs zyx_example)
              _ [zyx_example] (-1) eq_refl eq_refl eq_refl) as [_ H2].
  split; [apply H1; cbn; lia|apply H2; cbn; lia].
Defined.
End ExtractZyx.

(** ** Pixel sizes read back from rescaled datasets *)
Section ExtractRescaled.
Import LibZattrsUtils.

Lemma transformation_rescaled_not_scale c L pre pre' :
  Forall not_scale pre → Forall2 (transformation_rescaled c L) pre pre' →
  pre' = pre.
Proof.
  intros Hns H. induction H as [|t t' pre pre' Ht _ IH]; [done|].
  apply Forall_cons in Hns as [(ty & Hty & Hne) Hns].
  rewrite (IH Hns). destruct Ht as [[_ ->]|[Hs _]]; [done|]. congruence.
Qed.

Lemma small_or_all_above (a b c : Qc) :
  (∃ v, v ∈ [a; b; c] ∧ (v < tiny)%Qc) ∨ Forall (λ v, tiny ≤ v)%Qc [a; b; c].
Proof.
  destruct (Qclt_le_dec a tiny) as [Ha|Ha];
    [left; exists a; split; [set_solver|done]|].
  destruct (Qclt_le_dec b tiny) as [Hb|Hb];
    [left; exists b; split; [set_solver|done]|].
  destruct (Qclt_le_dec c tiny) as [Hc|Hc];
    [left; exists c; split; [set_solver|done]|].
  right. by repeat constructor.
Qed.

(** X10. Reading back what [rescale_datasets] wrote: when
    [extract_zyx_pixel_sizes] returns [l] for a level of the image, [l]
    has at least three components [s0, s1, s2], and on the attributes
    built from the rescaled datasets the same level gives nothing but
    [[s0, s1 * p, s2 * p]] with [p = coarsening_xy ** reference_level];
    it gives it as soon as [s1 * p] and [s2 * p] are at least [1e-9]. *)
Theorem extract_zyx_pixel_sizes_rescaled z m datasets c L new_datasets level l :
  multiscales z = Some [m] → ms_datasets m = Some datasets →
  rescale_datasets datasets c L = Ok new_datasets →
  extract_zyx_pixel_sizes z level = Ok l →
  ∃ s0 s1 s2 rest p,
    l = s0 :: s1 :: s2 :: rest ∧ pow c L = Ok p
    ∧ (∀ l', extract_zyx_pixel_sizes (label_zattrs new_datasets) level = Ok l' →
         l' = [s0; (s1 * p)%Qc; (s2 * p)%Qc])
    ∧ ((tiny ≤ s1 * p)%Qc → (tiny ≤ s2 * p)%Qc →
       extract_zyx_pixel_sizes (label_zattrs new_datasets) level
       = Ok [s0; (s1 * p)%Qc; (s2 * p)%Qc]).
Proof.
  intros Hz Hds Hres Hl.
  apply extract_zyx_pixel_sizes_inv in Hl
    as (m0 & datasets0 & ds & pre & t & post & Hz0 & Hg & Hds0 & Hlevel
        & Hts & Hpre & Hty & Hvec & Hne & Hall).
  assert (m0 = m) as -> by congruence.
  assert (datasets0 = datasets) as -> by congruence.
  pose proof (for_each_length _ _ _ Hres) as Hlen.
  destruct (getitem_same_length datasets new_datasets level ds Hlevel Hlen)
    as (j & Hj & Hnew).
  destruct (rescale_datasets_Forall2 _ _ _ _ _ _ _ Hres Hj Hts)
    as (new_ds & new_ts & Hj' & Hts' & HF).
  specialize (Hnew new_ds Hj').
  apply Forall2_app_inv_l in HF as (pre' & rest' & Hpre' & Hrest' & ->).
  apply Forall2_cons_inv_l in Hrest' as (t' & post' & Ht' & _ & ->).
  rewrite (transformation_rescaled_not_scale c L pre pre' Hpre Hpre') in Hts'.
  destruct Ht' as [[Hns _]|[_ (s0 & s1 & s2 & rest & p & Hv & Hp & ->)]];
    [done|].
  assert (l = s0 :: s1 :: s2 :: rest) as -> by congruence.
  exists s0, s1, s2, rest, p. split; [done|]. split; [done|].
  destruct (extract_zyx_pixel_sizes_floor (label_zattrs new_datasets)
              (Multiscale None (Some new_datasets)) new_datasets level new_ds
              pre (scale_dict [s0; (s1 * p)%Qc; (s2 * p)%Qc]) post'
              [s0; (s1 * p)%Qc; (s2 * p)%Qc]
              eq_refl eq_refl eq_refl Hnew Hts' Hpre eq_refl
              (scale_dict_lookup _)) as [Hsmall Hok].
  split.
  - intros l' Hl'.
    destruct (small_or_all_above s0 (s1 * p)%Qc (s2 * p)%Qc) as [Hs|Ha].
    + rewrite (Hsmall Hs) in Hl'. done.
    + rewrite (Hok ltac:(done) Ha) in Hl'. congruence.
  - intros H1 H2. apply Hok; [done|].
    apply Forall_cons in Hall as [H0 _]. by repeat constructor.
Qed.

Lemma extract_zyx_pixel_sizes_rescaled_witness :
  ∃ s0 s1 s2 rest p,
    [1%Qc; Q2Qc (1625 # 10000); Q2Qc (1625 # 10000)] = s0 :: s1 :: s2 :: rest
    ∧ pow 2 1 = Ok p
    ∧ (∀ l', extract_zyx_pixel_sizes
               (label_zattrs [rescaled_dataset (Qc_of_Z 2) zyx_example]) 0
             = Ok l' →
         l' = [s0; (s1 * p)%Qc; (s2 * p)%Qc])
    ∧ ((tiny ≤ s1 * p)%Qc → (tiny ≤ s2 * p)%Qc →
       extract_zyx_pixel_sizes
         (label_zattrs [rescaled_dataset (Qc_of_Z 2) zyx_example]) 0
       = Ok [s0; (s1 * p)%Qc; (s2 * p)%Qc]).
Proof.
  apply (extract_zyx_pixel_sizes_rescaled (one_level_zattrs zyx_example)
           (Multiscale None (Some [zyx_example])) [zyx_example] 2 1
           [rescaled_dataset (Qc_of_Z 2) zyx_example] 0).
  - reflexivity.
  - reflexivity.
  - apply (rescale_datasets_rescaled 2 1 (Qc_of_Z 2) [zyx_example]);
      [reflexivity|].
    eapply Forall_impl; [exact zyx_example_zyx|apply zyx_well_formed].
  - exact extract_zyx_example.
Defined.
End ExtractRescaled.

(** ** [NgffImageMeta.pixel_sizes_zyx]: what the entries are *)
Section PixelSizesLevels.
Import LibNgff.
Import NgffImageMeta.

Lemma index_Ok l x i : index l x = Ok i → 0 ≤ i ∧ l !! Z.to_nat i = Some x.
Proof.
  revert i. induction l as [|y l IH]; intros i; cbn; [done|].
  case_decide as Hy; [intros [= <-]; by subst|].
  destruct (index l x) as [j|] eqn:Hj; [|done]. cbn. intros [= <-].
  destruct (IH j eq_refl) as [Hj0 Hl]. split; [lia|].
  replace (Z.to_nat (j + 1)) with (S (Z.to_nat j)) by lia. done.
Qed.

Lemma index_raises l x : x ∉ l ↔ raises_class ValueError (index l x).
Proof.
  induction l as [|y l IH]; cbn.
  - split; [done|]. intros _. apply not_elem_of_nil.
  - case_decide as Hy.
    + split; [|done]. intros H. exfalso. apply H. subst. by left.
    + rewrite not_elem_of_cons, IH. destruct (index l x); cbn; naive_solver.
Qed.

Lemma index_class l x : raises (index l x) → raises_class ValueError (index l x).
Proof.
  induction l as [|y l IH]; cbn; [done|]. case_decide; [done|].
  destruct (index l x); cbn; [done|]. exact IH.
Qed.

Lemma scale_transformation_Ok d st :
  Dataset.scale_transformation d = Ok st →
  ∃ s, st = ScaleCoordinateTransformation s.
Proof.
  unfold Dataset.scale_transformation. cbv zeta.
  case_decide; [done|]. case_decide; [done|]. intros Hg.
  apply getitem_elem_of, list_elem_of_filter in Hg as [Hty _].
  destruct st as [s|tr]; [by exists s|done].
Qed.

Lemma pixel_sizes_at_inv self xi yi zi level p :
  pixel_sizes_at self xi yi zi level = Ok p →
  ∃ ds d s,
    datasets self = Ok ds ∧ ds !! level = Some d
    ∧ Dataset.scale_transformation d = Ok (ScaleCoordinateTransformation s)
    ∧ getitem s xi = Ok (size_x p) ∧ getitem s yi = Ok (size_y p)
    ∧ match zi with
      | Some z => getitem s z = Ok (size_z p)
      | None => size_z p = 1%Qc
      end.
Proof.
  unfold pixel_sizes_at.
  destruct (datasets self) as [ds|] eqn:Hds; [|done]. cbn [mbind result_bind].
  destruct (getitem ds (Z.of_nat level)) as [d|] eqn:Hd; [|done].
  cbn [mbind result_bind].
  destruct (Dataset.scale_transformation d) as [st|] eqn:Hst; [|done].
  cbn [mbind result_bind].
  destruct (scale_transformation_Ok d st Hst) as [s ->]. cbn [scale mbind result_bind].
  destruct (getitem s xi) as [px|] eqn:Hx; [|done]. cbn [mbind result_bind].
  destruct (getitem s yi) as [py|] eqn:Hy; [|done]. cbn [mbind result_bind].
  intros H. exists ds, d, s. split; [done|].
  apply getitem_Ok_lookup in Hd; [|lia]. rewrite Nat2Z.id in Hd.
  split; [done|]. split; [done|].
  destruct zi as [z|].
  - destruct (getitem s z) as [pz|] eqn:Hz; [|done]. cbn [mbind result_bind] in H.
    destruct (min_list _) as [m|]; [|done]. cbn [mbind result_bind] in H.
    case_decide; [done|]. injection H as <-. done.
  - cbn [mbind result_bind] in H.
    destruct (min_list _) as [m|]; [|done]. cbn [mbind result_bind] in H.
    case_decide; [done|]. injection H as <-. done.
Qed.

Lemma z_index_of_None self ms :
  multiscale self = Ok ms →
  ∀ zi, z_index_of self = Ok zi →
    (zi = None ↔ "z" ∉ Axis.name <$> Multiscale.axes ms).
Proof.
  intros Hms zi. unfold z_index_of, axes. rewrite Hms. cbn [mbind result_bind].
  rewrite index_raises.
  destruct (index _ "z") as [i|[[] msg]]; cbn; try done.
  - intros [= <-]. done.
  - intros [= <-]. done.
Qed.

Lemma pixel_sizes_zyx_inv self ps :
  pixel_sizes_zyx self = Ok ps →
  ∃ ms xi yi zi,
    multiscale self = Ok ms
    ∧ index (Axis.name <$> Multiscale.axes ms) "x" = Ok xi
    ∧ index (Axis.name <$> Multiscale.axes ms) "y" = Ok yi
    ∧ z_index_of self = Ok zi
    ∧ for_each (pixel_sizes_at self xi yi zi)
        (seq 0 (length (Multiscale.datasets ms))) = Ok ps.
Proof.
  unfold pixel_sizes_zyx, num_levels, datasets, axes.
  destruct (multiscale self) as [ms|] eqn:Hms; [|done].
  cbn [mbind result_bind].
  destruct (index _ "x") as [xi|] eqn:Hx; [|done]. cbn [mbind result_bind].
  destruct (index _ "y") as [yi|] eqn:Hy; [|done]. cbn [mbind result_bind].
  destruct (z_index_of self) as [zi|] eqn:Hz; [|done]. cbn [mbind result_bind].
  intros H. by exists ms, xi, yi, zi.
Qed.

(** X11. When [pixel_sizes_zyx] returns, there is a single multiscale
    with an "x" and a "y" axis, the list has one entry per dataset, and
    the entry of a level holds the components of the unique scale of that
    dataset at the positions of the "z", "y" and "x" axes; without a "z"
    axis the Z pixel size is 1. *)
Theorem pixel_sizes_zyx_levels self ps :
  pixel_sizes_zyx self = Ok ps →
  ∃ ms xi yi zi,
    multiscale self = Ok ms
    ∧ index (Axis.name <$> Multiscale.axes ms) "x" = Ok xi
    ∧ index (Axis.name <$> Multiscale.axes ms) "y" = Ok yi
    ∧ z_index_of self = Ok zi
    ∧ (zi = None ↔ "z" ∉ Axis.name <$> Multiscale.axes ms)
    ∧ length ps = length (Multiscale.datasets ms)
    ∧ ∀ level d p,
        Multiscale.datasets ms !! level = Some d → ps !! level = Some p →
        ∃ s, Dataset.scale_transformation d
             = Ok (ScaleCoordinateTransformation s)
           ∧ getitem s xi = Ok (size_x p) ∧ getitem s yi = Ok (size_y p)
           ∧ match zi with
             | Some z => getitem s z = Ok (size_z p)
             | None => size_z p = 1%Qc
             end.
Proof.
  intros H. apply pixel_sizes_zyx_inv in H
    as (ms & xi & yi & zi & Hms & Hx & Hy & Hz & Hfe).
  exists ms, xi, yi, zi. repeat (split; [done|]).
  split; [exact (z_index_of_None self ms Hms zi Hz)|].
  split; [apply for_each_length in Hfe; by rewrite Hfe, length_seq|].
  intros level d p Hd Hp. apply for_each_Forall2 in Hfe.
  destruct (Forall2_lookup_r _ _ _ _ _ Hfe Hp) as (lv & Hlv & Hat).
  apply lookup_seq in Hlv as [-> _]. cbn in Hat.
  apply pixel_sizes_at_inv in Hat as (ds & d' & s & Hds & Hd' & Hrest).
  unfold datasets in Hds. rewrite Hms in Hds. cbn in Hds.
  assert (ds = Multiscale.datasets ms) as -> by congruence.
  assert (d' = d) as -> by congruence.
  by exists s.
Qed.

Lemma pixel_sizes_zyx_levels_witness :
  ∃ ms xi yi zi,
    multiscale two_level_example = Ok ms
    ∧ index (Axis.name <$> Multiscale.axes ms) "x" = Ok xi
    ∧ index (Axis.name <$> Multiscale.axes ms) "y" = Ok yi
    ∧ z_index_of two_level_example = Ok zi
    ∧ (zi = None ↔ "z" ∉ Axis.name <$> Multiscale.axes ms)
    ∧ length two_level_pixel_sizes = length (Multiscale.datasets ms)
    ∧ ∀ level d p,
        Multiscale.datasets ms !! level = Some d →
        two_level_pixel_sizes !! level = Some p →
        ∃ s, Dataset.scale_transformation d
             = Ok (ScaleCoordinateTransformation s)
           ∧ getitem s xi = Ok (size_x p) ∧ getitem s yi = Ok (size_y p)
           ∧ match zi with
             | Some z => getitem s z = Ok (size_z p)
             | None => size_z p = 1%Qc
             end.
Proof.
  apply (pixel_sizes_zyx_levels two_level_example two_level_pixel_sizes).
  reflexivity.
Defined.

Lemma bind_raises_class {A B} c (r : result A) (f : A → result B) :
  raises_class c r → raises_class c (r ≫= f).
Proof. by destruct r. Qed.

(** X12. Without an axis named "x", or without an axis named "y",
    [pixel_sizes_zyx] and [get_pixel_sizes_zyx] raise a [ValueError], and
    so does [coarsening_xy] when there are at least two levels. *)
Theorem pixel_sizes_zyx_missing_axis self ms :
  multiscales self = [ms] →
  "x" ∉ Axis.name <$> Multiscale.axes ms
  ∨ "y" ∉ Axis.name <$> Multiscale.axes ms →
  raises_class ValueError (pixel_sizes_zyx self)
  ∧ (∀ level, raises_class ValueError (get_pixel_sizes_zyx self level))
  ∧ ((2 ≤ length (Multiscale.datasets ms))%nat →
     raises_class ValueError (coarsening_xy self)).
Proof.
  intros Hms Hax. pose proof (multiscale_single self ms Hms) as Hm.
  assert (raises_class ValueError (pixel_sizes_zyx self)) as Hps.
  { unfold pixel_sizes_zyx, axes. rewrite Hm. cbn [mbind result_bind].
    destruct Hax as [Hx|Hy].
    - apply index_raises in Hx. by apply bind_raises_class.
    - apply index_raises in Hy.
      destruct (index _ "x") as [xi|e] eqn:Ex.
      + cbn [mbind result_bind]. by apply bind_raises_class.
      + pose proof (index_class (Axis.name <$> Multiscale.axes ms) "x") as Hc.
        rewrite Ex in Hc. exact (Hc I). }
  split; [done|]. split.
  - intros level. unfold get_pixel_sizes_zyx. by apply bind_raises_class.
  - intros Hlen. unfold coarsening_xy, num_levels, datasets. rewrite Hm.
    cbn [mbind result_bind].
    destruct (length (Multiscale.datasets ms)) as [|[|n]] eqn:Hn; [lia|lia|].
    cbn [Nat.sub seq coarsening_loop].
    apply bind_raises_class. unfold ratio. apply bind_raises_class.
    unfold pixel_size. by apply bind_raises_class.
Qed.

Lemma pixel_sizes_zyx_missing_axis_witness :
  raises_class ValueError (pixel_sizes_zyx yx_only_example)
  ∧ (∀ level, raises_class ValueError (get_pixel_sizes_zyx yx_only_example level))
  ∧ ((2 ≤ 2)%nat → raises_class ValueError (coarsening_xy yx_only_example)).
Proof.
  apply (pixel_sizes_zyx_missing_axis yx_only_example
           (Multiscale.Build None
              [Dataset.Build "0" [ScaleCoordinateTransformation [1%Qc; 1%Qc]];
               Dataset.Build "1" [ScaleCoordinateTransformation [2%Qc; 2%Qc]]]
              None
              [Axis.Build "c" (Some "channel"); Axis.Build "y" (Some "space")]
              None)); [reflexivity|].
  left. cbn. set_solver.
Defined.
End PixelSizesLevels.

(** ** [lib_ngff]: the exceptions of the image properties *)
Section NgffExceptions.
Import LibNgff.
Import NgffImageMeta.

Ltac in_classes := unfold ngff_classes; cbn; set_solver.

Lemma within_bind {A B} cs (r : result A) (f : A → result B) :
  raises_within cs r → (∀ a, r = Ok a → raises_within cs (f a)) →
  raises_within cs (r ≫= f).
Proof. destruct r; cbn; [|done]. intros _ H. by apply H. Qed.

Lemma within_for_each {A B} cs (f : A → result B) l :
  (∀ a, raises_within cs (f a)) → raises_within cs (for_each f l).
Proof.
  intros Hf. induction l as [|x l IH]; cbn [for_each]; [done|].
  apply within_bind; [apply Hf|intros y _].
  apply within_bind; [exact IH|done].
Qed.

Lemma within_getitem {A} (l : list A) i : raises_within ngff_classes (getitem l i).
Proof.
  unfold getitem. cbv zeta. destruct (_ || _); [in_classes|].
  destruct (l !! _); [done|in_classes].
Qed.

Lemma within_index l x : raises_within ngff_classes (index l x).
Proof.
  pose proof (index_class l x) as H. destruct (index l x) as [|e]; [done|].
  cbn in *. rewrite (H I). in_classes.
Qed.

Lemma within_multiscale self : raises_within ngff_classes (multiscale self).
Proof. unfold multiscale. case_decide; [in_classes|apply within_getitem]. Qed.

Lemma within_scale_transformation d :
  raises_within ngff_classes (Dataset.scale_transformation d).
Proof.
  unfold Dataset.scale_transformation. cbv zeta.
  case_decide; [in_classes|]. case_decide; [in_classes|apply within_getitem].
Qed.

Lemma within_pixel_sizes_at self xi yi zi level :
  raises_within ngff_classes (pixel_sizes_at self xi yi zi level).
Proof.
  unfold pixel_sizes_at, datasets.
  apply within_bind.
  { apply within_bind; [apply within_multiscale|done]. }
  intros ds _. apply within_bind; [apply within_getitem|intros d _].
  apply within_bind; [apply within_scale_transformation|intros st Hst].
  destruct (scale_transformation_Ok d st Hst) as [s ->]. cbn [scale mbind result_bind].
  apply within_bind; [apply within_getitem|intros px _].
  apply within_bind; [apply within_getitem|intros py _].
  apply within_bind; [destruct zi; [apply within_getitem|done]|intros pz _].
  cbn [min_list mbind result_bind]. case_decide; [in_classes|done].
Qed.

Lemma within_pixel_sizes_zyx self :
  raises_within ngff_classes (pixel_sizes_zyx self).
Proof.
  unfold pixel_sizes_zyx, z_index_of, num_levels, datasets, axes.
  destruct (multiscale self) as [ms|e] eqn:Hms;
    [|pose proof (within_multiscale self) as H; by rewrite Hms in H].
  cbn [mbind result_bind].
  apply within_bind; [apply within_index|intros xi _].
  apply within_bind; [apply within_index|intros yi _].
  apply within_bind.
  { pose proof (within_index (Axis.name <$> Multiscale.axes ms) "z") as H.
    destruct (index _ "z") as [|[[] msg]]; done. }
  intros zi _. apply within_for_each. intros level.
  apply within_pixel_sizes_at.
Qed.

Lemma within_pixel_size self i k :
  raises_within ngff_classes (pixel_size self i k).
Proof.
  unfold pixel_size. apply within_bind; [apply within_pixel_sizes_zyx|].
  intros ps _. apply within_bind; [apply within_getitem|done].
Qed.

Lemma pixel_size_tiny self i k v :
  k = size_x ∨ k = size_y → pixel_size self i k = Ok v → (tiny ≤ v)%Qc.
Proof.
  intros Hk. unfold pixel_size.
  destruct (pixel_sizes_zyx self) as [ps|] eqn:Hps; [|done].
  cbn [mbind result_bind].
  destruct (getitem ps i) as [p|] eqn:Hp; [|done]. cbn [mbind result_bind].
  intros [= <-]. apply getitem_elem_of in Hp.
  destruct (pixel_sizes_zyx_Ok self ps Hps) as [_ Hall].
  destruct (proj1 (Forall_forall _ _) Hall p Hp) as (Hz & Hy & Hx).
  by destruct Hk as [-> | ->].
Qed.

Lemma round_nonneg (x : Qc) : (0 ≤ x)%Qc → 0 ≤ round x.
Proof.
  intros Hx. assert (0 ≤ Qfloor x) as Hf.
  { change 0 with (Qfloor 0). by apply Qfloor_resp_le. }
  unfold round. cbv zeta.
  destruct (_ ?= _)%Qc; [destruct (Z.even _)| |]; lia.
Qed.

Lemma Qcdiv_nonneg (a b : Qc) : (0 ≤ a)%Qc → (0 ≤ b)%Qc → (0 ≤ a / b)%Qc.
Proof.
  unfold Qcle. intros Ha Hb. rewrite this_div. cbn [this Q2Qc] in *.
  unfold Qdiv. apply Qmult_le_0_compat; [done|by apply Qinv_le_0_compat].
Qed.

Lemma within_weaken {A} cs cs' (r : result A) :
  cs ⊆ cs' → raises_within cs r → raises_within cs' r.
Proof. intros Hsub. destruct r as [|e]; [done|]. cbn. apply Hsub. Qed.

Lemma this_mult (x y : Qc) : (this (x * y)%Qc == this x * this y)%Q.
Proof. unfold Qcmult, Q2Qc. cbn [this]. apply Qred_correct. Qed.

Lemma this_inv (x : Qc) : (this (/ x)%Qc == / this x)%Q.
Proof. unfold Qcinv, Q2Qc. cbn [this]. apply Qred_correct. Qed.

Lemma this_of_Z (z : Z) : (this (Qc_of_Z z) == inject_Z z)%Q.
Proof. reflexivity. Qed.

Lemma Qc_of_Z_nonneg (z : Z) : 0 ≤ z → (0 ≤ Qc_of_Z z)%Qc.
Proof.
  intros Hz. unfold Qcle. rewrite this_of_Z. cbn [this Q2Qc].
  change (Qred 0) with (inject_Z 0). by rewrite <- Zle_Qle.
Qed.

Lemma pow2_nonneg (e : Z) : (0 ≤ pow2 e)%Qc.
Proof.
  unfold pow2. destruct (0 <=? e).
  - apply Qc_of_Z_nonneg. by apply Z.pow_nonneg.
  - pose proof (Qc_of_Z_nonneg (2 ^ (- e)) ltac:(by apply Z.pow_nonneg)) as H.
    unfold Qcle in *. rewrite this_inv. cbn [this Q2Qc] in *.
    by apply Qinv_le_0_compat.
Qed.

Lemma Qcmult_nonneg (a b : Qc) : (0 ≤ a)%Qc → (0 ≤ b)%Qc → (0 ≤ a * b)%Qc.
Proof.
  unfold Qcle. intros Ha Hb. rewrite this_mult. cbn [this Q2Qc] in *.
  by apply Qmult_le_0_compat.
Qed.

(** A quotient that is not negative is rounded to a [float] that is not
    negative. *)
Lemma binary64_nonneg (q v : Qc) : (0 ≤ q)%Qc → binary64 q = Some v → (0 ≤ v)%Qc.
Proof.
  intros Hq. unfold binary64. cbv zeta.
  case_decide as H0; [intros [= <-]; apply Qcle_refl|].
  rewrite !(decide_False (P := (q < 0)%Qc)) by (by apply Qcle_not_lt).
  case_decide; [done|]. intros [= <-].
  apply Qcmult_nonneg; [|apply pow2_nonneg].
  apply Qc_of_Z_nonneg, round_nonneg, Qcdiv_nonneg; [done|apply pow2_nonneg].
Qed.

(** The classes of the exceptions of [coarsening_xy]: those of the pixel
    sizes and the [OverflowError] of [round]. *)
Lemma ratio_classes self i k r :
  k = size_x ∨ k = size_y →
  raises_within (OverflowError :: ngff_classes) (ratio self i k)
  ∧ (ratio self i k = Ok r → 0 ≤ r).
Proof.
  intros Hk. unfold ratio.
  destruct (pixel_size self i k) as [a|e] eqn:Ha.
  2:{ pose proof (within_pixel_size self i k) as H. rewrite Ha in H.
      split; [|done]. cbn in *. by right. }
  cbn [mbind result_bind].
  destruct (pixel_size self (i - 1) k) as [b|e] eqn:Hb.
  2:{ pose proof (within_pixel_size self (i - 1) k) as H. rewrite Hb in H.
      split; [|done]. cbn in *. by right. }
  cbn [mbind result_bind].
  apply (pixel_size_tiny self i k a Hk) in Ha.
  apply (pixel_size_tiny self (i - 1) k b Hk) in Hb.
  assert (0 < a)%Qc as Ha0 by (eapply Qclt_le_trans; [apply tiny_pos|done]).
  assert (0 < b)%Qc as Hb0 by (eapply Qclt_le_trans; [apply tiny_pos|done]).
  unfold float_div. rewrite decide_False.
  - cbn [mbind result_bind].
    destruct (binary64 (a / b)) as [v|] eqn:Hv; cbn [round_float].
    + split; [done|]. intros [= <-]. apply round_nonneg.
      apply (binary64_nonneg (a / b)); [|done].
      apply Qcdiv_nonneg; by apply Qclt_le_weak.
    + split; [|done]. cbn. by left.
  - intros ->. exact (Qclt_not_le _ _ Hb0 (Qcle_refl _)).
Qed.

Lemma coarsening_loop_classes self inds cur :
  (∀ r, cur = Some r → 0 ≤ r) →
  raises_within (OverflowError :: ngff_classes) (coarsening_loop self inds cur)
  ∧ (∀ c, coarsening_loop self inds cur = Ok (Some c) → 0 ≤ c).
Proof.
  revert cur. induction inds as [|ind inds IH]; intros cur Hcur.
  { cbn. split; [done|]. intros c [= ->]. by apply Hcur. }
  cbn [coarsening_loop].
  destruct (ratio self (Z.of_nat ind) size_x) as [rx|e] eqn:Hx.
  2:{ destruct (ratio_classes self (Z.of_nat ind) size_x 0 (or_introl eq_refl))
        as [Hw _]. rewrite Hx in Hw. done. }
  cbn [mbind result_bind].
  destruct (ratio self (Z.of_nat ind) size_y) as [ry|e] eqn:Hy.
  2:{ destruct (ratio_classes self (Z.of_nat ind) size_y 0 (or_intror eq_refl))
        as [Hw _]. rewrite Hy in Hw. done. }
  cbn [mbind result_bind].
  destruct (ratio_classes self (Z.of_nat ind) size_x rx (or_introl eq_refl))
    as [_ Hrx]. specialize (Hrx Hx).
  case_decide; [split; [in_classes|done]|].
  destruct cur as [r|].
  - case_decide; [split; [in_classes|done]|]. by apply IH.
  - apply IH. by intros r [= <-].
Qed.

(** X13. [pixel_sizes_zyx] and [get_pixel_sizes_zyx] raise nothing but
    [NotImplementedError], [IndexError] and [ValueError]; [coarsening_xy]
    raises nothing but these and the [OverflowError] of [round] on an
    infinite quotient.  The divisions of [coarsening_xy] never raise a
    [ZeroDivisionError], since every pixel size that is divided by is at
    least [1e-9]. *)
Theorem ngff_image_exceptions self :
  raises_within ngff_classes (pixel_sizes_zyx self)
  ∧ (∀ level, raises_within ngff_classes (get_pixel_sizes_zyx self level))
  ∧ raises_within (OverflowError :: ngff_classes) (coarsening_xy self)
  ∧ ¬ raises_class ZeroDivisionError (coarsening_xy self).
Proof.
  assert (raises_within (OverflowError :: ngff_classes) (coarsening_xy self))
    as Hc.
  { unfold coarsening_xy, num_levels, datasets.
    apply within_bind.
    { apply within_bind; [|done].
      apply within_bind; [|done].
      apply (within_weaken ngff_classes); [set_solver|apply within_multiscale]. }
    intros n _. by apply coarsening_loop_classes. }
  split; [apply within_pixel_sizes_zyx|]. split; [|split; [exact Hc|]].
  - intros level. unfold get_pixel_sizes_zyx.
    apply within_bind; [apply within_pixel_sizes_zyx|intros ps _].
    apply within_getitem.
  - intros Hz. destruct (coarsening_xy self) as [|e]; cbn in Hz, Hc; [done|].
    rewrite Hz in Hc. revert Hc. in_classes.
Qed.

(** X14. The coarsening factor that [coarsening_xy] returns is never
    negative. *)
Theorem coarsening_xy_nonneg self c :
  coarsening_xy self = Ok (Some c) → 0 ≤ c.
Proof.
  unfold coarsening_xy. destruct (num_levels self) as [n|]; [|done].
  cbn [mbind result_bind]. by apply coarsening_loop_classes.
Qed.

Lemma coarsening_xy_nonneg_witness : 0 ≤ 2.
Proof.
  apply (coarsening_xy_nonneg two_level_example 2).
  assert (pixel_sizes_zyx two_level_example = Ok two_level_pixel_sizes) as Hps
    by reflexivity.
  apply (coarsening_xy_Ok two_level_example two_level_pixel_sizes Hps 2 (le_n 2)).
  intros i Hi. assert (i = 1%nat) as -> by (cbn in Hi; lia).
  split; reflexivity.
Defined.
End NgffExceptions.

(** ** [load_NgffImageMeta]: when the attributes are accepted *)
Section LoadImageMeta.
Import LibNgff.
Import NgffImageMeta.

Lemma validate_multiscales_true l :
  validate_multiscales l = Ok true ↔ Forall accepted_multiscale l.
Proof.
  induction l as [|m l IH]; cbn [validate_multiscales]; [done|].
  rewrite Forall_cons. unfold accepted_multiscale at 1.
  destruct (Multiscale.CoordinateTransformations m) as [v|].
  - split; [|by intros [[? _] _]].
    destruct (forallb valid_transformation v); cbn; [done|].
    destruct (validate_multiscales l); done.
  - cbn. destruct (Multiscale.valid_fields m); cbn.
    + destruct (validate_multiscales l) as [[]|]; cbn.
      * split; [|done]. intros _. split; [done|]. by apply IH.
      * split; [done|]. intros [_ H]. by apply IH in H.
      * split; [done|]. intros [_ H]. by apply IH in H.
    + split; [|by intros [[_ ?] _]].
      destruct (validate_multiscales l); done.
Qed.

Lemma accepted_multiscale_sized ms :
  accepted_multiscale ms → sized_multiscale ms.
Proof.
  intros [Hnone Hv]. unfold Multiscale.valid_fields in Hv.
  rewrite !andb_true_iff, !bool_decide_eq_true in Hv.
  destruct Hv as [[[Hlen Hds] Hax] _].
  split; [done|]. split; [done|]. split; [|done].
  intros d Hd. rewrite forallb_forall in Hds.
  apply list_elem_of_In, Hds in Hd. unfold Dataset.valid in Hd.
  rewrite andb_true_iff, bool_decide_eq_true, forallb_forall in Hd.
  destruct Hd as [Hlen' Hts]. split; [done|].
  intros t Ht. apply list_elem_of_In, Hts in Ht.
  destruct t; cbn in *; by apply bool_decide_eq_true in Ht.
Qed.

(** X15. When [load_NgffImageMeta] returns, it returns the attributes it
    was given, and these hold at least one multiscale; every multiscale
    has no global [CoordinateTransformations], at least one dataset and
    two to five axes, every dataset has at least one transformation, and
    every transformation has at least two components. *)
Theorem load_NgffImageMeta_returns attrs meta :
  load_NgffImageMeta attrs = Ok meta →
  meta = attrs
  ∧ (1 ≤ length (multiscales meta))%nat
  ∧ Forall sized_multiscale (multiscales meta).
Proof.
  unfold load_NgffImageMeta, validate.
  destruct (validate_multiscales (multiscales attrs)) as [ok|e] eqn:Hv;
    cbn [mbind result_bind]; [|done].
  destruct ok; [|done]. rewrite andb_true_l.
  destruct (bool_decide (1 ≤ length (multiscales attrs))%nat) eqn:H1;
    [|done].
  destruct (bool_decide (NoDup (multiscales attrs))); [|done]. cbn.
  intros Heq. assert (meta = attrs) as -> by congruence.
  split; [done|]. split; [by apply bool_decide_eq_true in H1|].
  apply validate_multiscales_true in Hv.
  eapply Forall_impl; [exact Hv|]. apply accepted_multiscale_sized.
Qed.

Lemma load_NgffImageMeta_returns_witness :
  (1 ≤ length (multiscales two_level_example))%nat
  ∧ Forall sized_multiscale (multiscales two_level_example).
Proof.
  apply (load_NgffImageMeta_returns two_level_example two_level_example).
  reflexivity.
Defined.
End LoadImageMeta.

(** ** [NgffWellMeta.get_acquisition_paths] *)
Section AcquisitionPaths.
Import LibNgffWell.
Import NgffWellMeta.

Lemma acquisition_loop_Ok images d0 d :
  acquisition_loop images d0 = Ok d →
  Forall (λ image, is_Some (Image.acquisition image)) images
  ∧ NoDup (acquisitions images)
  ∧ (∀ a, a ∈ acquisitions images → d0 !! a = None)
  ∧ size d = (size d0 + length images)%nat
  ∧ ∀ a p, d !! a = Some p ↔
      d0 !! a = Some p
      ∨ ∃ image, image ∈ images ∧ Image.acquisition image = Some a
                 ∧ Image.path image = p.
Proof.
  revert d0. induction images as [|image images IH]; intros d0; cbn.
  - intros Heq. assert (d0 = d) as -> by congruence.
    split; [done|]. split; [constructor|]. split; [by intros a Ha%elem_of_nil|].
    split; [lia|]. intros a p. split; [by left|].
    intros [H|(im & Him%elem_of_nil & _)]; done.
  - unfold acquisitions. cbn [omap list_omap].
    destruct (Image.acquisition image) as [a0|] eqn:Ha0; [|done].
    case_decide as Hin; [done|]. intros H.
    assert (d0 !! a0 = None) as Hnone.
    { destruct (d0 !! a0) eqn:E; [|done]. exfalso. apply Hin. by eexists. }
    destruct (IH _ H) as (Hall & Hnd & Hfresh & Hsize & Hlook).
    split; [constructor; [by eexists|done]|].
    split.
    { constructor; [|done]. intros Hdup. specialize (Hfresh a0 Hdup).
      by rewrite lookup_insert_eq in Hfresh. }
    split.
    { intros a [->|Ha]%elem_of_cons; [done|].
      specialize (Hfresh a Ha). apply lookup_insert_None in Hfresh. tauto. }
    split.
    { rewrite Hsize, map_size_insert_None by done. lia. }
    intros a p. rewrite Hlook, lookup_insert_Some. split.
    + intros [[[<- <-]|[_ Hd0]]|(im & Him & Ha & Hp)].
      * right. exists image. split; [by left|done].
      * by left.
      * right. exists im. split; [by right|done].
    + intros [Hd0|(im & [->|Him]%elem_of_cons & Ha & Hp)].
      * left. right. split; [congruence|done].
      * left. left. split; congruence.
      * right. by exists im.
Qed.

Lemma acquisition_loop_returns images d0 :
  Forall (λ image, is_Some (Image.acquisition image)) images →
  NoDup (acquisitions images) →
  (∀ a, a ∈ acquisitions images → d0 !! a = None) →
  ∃ d, acquisition_loop images d0 = Ok d.
Proof.
  revert d0. induction images as [|image images IH]; intros d0; cbn.
  - intros _ _ _. by eexists.
  - unfold acquisitions. cbn [omap list_omap].
    intros [[a0 Ha0] Hall]%Forall_cons. rewrite Ha0. cbn.
    intros [Hnin Hnd]%NoDup_cons Hfresh.
    rewrite decide_False.
    2:{ rewrite (Hfresh a0) by (by left). by intros [? [=]]. }
    apply IH; [done|done|]. intros a Ha.
    rewrite lookup_insert_ne by (intros ->; done).
    apply Hfresh. by right.
Qed.

(** X16. [get_acquisition_paths] returns a dict exactly for a well whose
    images all have an acquisition, no two of them the same. The dict has
    one key per image, and maps [a] to [p] exactly when some image has
    acquisition [a] and path [p]. *)
Theorem get_acquisition_paths_Ok self :
  (∀ d, get_acquisition_paths self = Ok d →
     ∃ w, well self = Some w
          ∧ Forall (λ image, is_Some (Image.acquisition image)) (Well.images w)
          ∧ NoDup (acquisitions (Well.images w))
          ∧ size d = length (Well.images w)
          ∧ ∀ a p, d !! a = Some p ↔
              ∃ image, image ∈ Well.images w
                       ∧ Image.acquisition image = Some a
                       ∧ Image.path image = p)
  ∧ (∀ w, well self = Some w →
       Forall (λ image, is_Some (Image.acquisition image)) (Well.images w) →
       NoDup (acquisitions (Well.images w)) →
       ∃ d, get_acquisition_paths self = Ok d).
Proof.
  unfold get_acquisition_paths. split.
  - intros d. destruct (well self) as [w|]; [|done]. intros H.
    apply acquisition_loop_Ok in H as (Hall & Hnd & _ & Hsize & Hlook).
    exists w. split; [done|]. split; [done|]. split; [done|].
    split; [by rewrite Hsize, map_size_empty|].
    intros a p. rewrite Hlook, lookup_empty. naive_solver.
  - intros w -> Hall Hnd. by apply acquisition_loop_returns.
Qed.

Lemma acquisition_loop_missing pre image post d0 :
  Forall (λ image, is_Some (Image.acquisition image)) pre →
  NoDup (acquisitions pre) →
  (∀ a, a ∈ acquisitions pre → d0 !! a = None) →
  Image.acquisition image = None →
  missing_acquisition (acquisition_loop (pre ++ image :: post)%list d0).
Proof.
  revert d0. induction pre as [|im pre IH]; intros d0; cbn.
  - intros _ _ _ ->. done.
  - unfold acquisitions. cbn [omap list_omap].
    intros [[a0 Ha0] Hall]%Forall_cons. rewrite Ha0. cbn.
    intros [Hnin Hnd]%NoDup_cons Hfresh Hnone.
    rewrite decide_False.
    2:{ rewrite (Hfresh a0) by (by left). by intros [? [=]]. }
    apply IH; [done|done| |done]. intros a Ha.
    rewrite lookup_insert_ne by (intros ->; done).
    apply Hfresh. by right.
Qed.

Lemma acquisition_loop_known pre image post d0 a :
  Forall (λ image, is_Some (Image.acquisition image)) pre →
  NoDup (acquisitions pre) →
  (∀ a, a ∈ acquisitions pre → d0 !! a = None) →
  Image.acquisition image = Some a →
  a ∈ acquisitions pre ∨ is_Some (d0 !! a) →
  repeated_acquisition (acquisition_loop (pre ++ image :: post)%list d0).
Proof.
  revert d0. induction pre as [|im pre IH]; intros d0; cbn.
  - intros _ _ _ -> [Hin%elem_of_nil|Hd0]; [done|]. by rewrite decide_True.
  - unfold acquisitions. cbn [omap list_omap].
    intros [[a0 Ha0] Hall]%Forall_cons. rewrite Ha0. cbn.
    intros [Hnin Hnd]%NoDup_cons Hfresh Ha Hrep.
    rewrite decide_False.
    2:{ rewrite (Hfresh a0) by (by left). by intros [? [=]]. }
    apply (IH _ Hall Hnd); [|done|].
    + intros a' Ha'. rewrite lookup_insert_ne by (intros ->; done).
      apply Hfresh. by right.
    + destruct Hrep as [[->|Hin]%elem_of_cons|Hd0].
      * right. rewrite lookup_insert_eq. by eexists.
      * by left.
      * right. destruct (decide (a0 = a)) as [->|Hne].
        -- rewrite lookup_insert_eq. by eexists.
        -- by rewrite lookup_insert_ne.
Qed.

(** X17. [get_acquisition_paths] raises an [AttributeError] when there
    is no well. Otherwise the first image that has no acquisition, or the
    acquisition of an earlier image, decides: the former gives the
    [ValueError], the latter the [NotImplementedError]. *)
Theorem get_acquisition_paths_raises self :
  (well self = None → raises_class AttributeError (get_acquisition_paths self))
  ∧ (∀ w pre image post,
       well self = Some w → Well.images w = (pre ++ image :: post)%list →
       Forall (λ image, is_Some (Image.acquisition image)) pre →
       NoDup (acquisitions pre) →
       (Image.acquisition image = None →
          missing_acquisition (get_acquisition_paths self))
       ∧ (∀ a, Image.acquisition image = Some a → a ∈ acquisitions pre →
            repeated_acquisition (get_acquisition_paths self))).
Proof.
  unfold get_acquisition_paths. split; [by intros ->|].
  intros w pre image post -> -> Hall Hnd. split.
  - intros Hnone. by apply acquisition_loop_missing.
  - intros a Ha Hin. apply acquisition_loop_known with a; try done. by left.
Qed.
End AcquisitionPaths.

(** ** [measurement]: which shapes pass the checks *)
Section MeasurementShapes.
Import Measurement.

Lemma floordiv_Ok a b q : floordiv a b = Ok q → b ≠ 0%nat ∧ q = (a / b)%nat.
Proof. unfold floordiv. case_decide; [done|]. by intros [= <-]. Qed.

Lemma getitem_cons_1 {A} (a b : A) l : getitem (a :: b :: l) 1 = Ok b.
Proof. by apply getitem_lookup. Qed.

Lemma getitem_cons_2 {A} (a b c : A) l : getitem (a :: b :: c :: l) 2 = Ok c.
Proof. by apply getitem_lookup. Qed.

Lemma find_upscale_factor_passes z y x rest u :
  y ≠ 0%nat → x ≠ 0%nat →
  find_upscale_factor (z :: y * u :: x * u :: rest)%nat (z :: y :: x :: rest)
  = Ok u.
Proof.
  intros Hy Hx. unfold find_upscale_factor.
  rewrite !getitem_cons_0, !getitem_cons_1, !getitem_cons_2.
  cbn [mbind result_bind]. unfold floordiv. rewrite !decide_False by done.
  cbn [mbind result_bind].
  replace (y * u / y)%nat with u by (rewrite Nat.mul_comm; by rewrite Nat.div_mul).
  replace (x * u / x)%nat with u by (rewrite Nat.mul_comm; by rewrite Nat.div_mul).
  rewrite !bool_decide_eq_false_2 by (intros H; by apply H).
  cbn [mbind result_bind]. unfold repeat_shape. cbn.
  rewrite decide_False by (intros H; by apply H). done.
Qed.

Lemma find_upscale_factor_Ok img_shape label_shape u :
  find_upscale_factor img_shape label_shape = Ok u →
  ∃ z y x rest,
    label_shape = z :: y :: x :: rest ∧ y ≠ 0%nat ∧ x ≠ 0%nat
    ∧ img_shape = (z :: y * u :: x * u :: rest)%nat.
Proof.
  unfold find_upscale_factor.
  destruct (getitem img_shape 1) as [i1|] eqn:Hi1; [|done].
  destruct (getitem label_shape 1) as [l1|] eqn:Hl1; [|done].
  cbn [mbind result_bind].
  destruct (floordiv i1 l1) as [q|] eqn:Hq; [|done]. cbn [mbind result_bind].
  destruct (getitem img_shape 0) as [i0|] eqn:Hi0; [|done].
  destruct (getitem label_shape 0) as [l0|] eqn:Hl0; [|done].
  cbn [mbind result_bind].
  case_bool_decide as Hz; [done|]. try apply dec_stable in Hz. subst l0.
  case_bool_decide as Hy; [done|]. try apply dec_stable in Hy.
  cbn [mbind result_bind].
  destruct (getitem img_shape 2) as [i2|] eqn:Hi2; [|done].
  destruct (getitem label_shape 2) as [l2|] eqn:Hl2; [|done].
  cbn [mbind result_bind].
  destruct (floordiv i2 l2) as [q2|] eqn:Hq2; [|done]. cbn [mbind result_bind].
  case_bool_decide as Hx; [done|]. try apply dec_stable in Hx. subst q2.
  apply floordiv_Ok in Hq as [Hl1n _]. apply floordiv_Ok in Hq2 as [Hl2n _].
  apply getitem_Ok_lookup in Hl0; [|lia]. apply getitem_Ok_lookup in Hl1; [|lia].
  apply getitem_Ok_lookup in Hl2; [|lia].
  change (Z.to_nat 0) with 0%nat in Hl0. change (Z.to_nat 1) with 1%nat in Hl1.
  change (Z.to_nat 2) with 2%nat in Hl2.
  destruct label_shape as [|z [|y [|x rest]]]; try done.
  cbn in Hl0, Hl1, Hl2.
  assert (z = i0) as -> by congruence. assert (y = l1) as -> by congruence.
  assert (x = l2) as -> by congruence.
  unfold repeat_shape. cbn. case_decide as Hup; [done|].
  try apply dec_stable in Hup. intros [= <-].
  exists i0, l1, l2, rest. by rewrite <- Hup.
Qed.

(** X18. The shape checks of [measurement] pass, with upscale factor
    [u], exactly when the label array has shape [(z, y, x, ...)] with [y]
    and [x] not zero and the image has shape [(z, y * u, x * u, ...)],
    the further dimensions being the same: Y and X of the image are exact
    multiples of those of the labels, by the same factor. *)
Theorem find_upscale_factor_iff img_shape label_shape u :
  find_upscale_factor img_shape label_shape = Ok u ↔
  ∃ z y x rest,
    label_shape = z :: y :: x :: rest ∧ y ≠ 0%nat ∧ x ≠ 0%nat
    ∧ img_shape = (z :: y * u :: x * u :: rest)%nat.
Proof.
  split; [apply find_upscale_factor_Ok|].
  intros (z & y & x & rest & -> & Hy & Hx & ->).
  by apply find_upscale_factor_passes.
Qed.

(** X19. The check after upscaling is not redundant: when the X size of
    the image is [x * u + r] with [0 < r < x], the first two checks pass
    (the quotient [(x * u + r) // x] is [u]) and the check after upscaling
    raises. *)
Theorem find_upscale_factor_after_upscaling z y x u r :
  y ≠ 0%nat → (0 < r < x)%nat →
  find_upscale_factor [z; y * u; x * u + r]%nat [z; y; x]
  = Err (Raise Exception_ "Error in dapi/label array shapes (after upscaling)").
Proof.
  intros Hy Hr. unfold find_upscale_factor.
  rewrite !getitem_cons_0, !getitem_cons_1, !getitem_cons_2.
  cbn [mbind result_bind]. unfold floordiv.
  rewrite !decide_False by (done || lia). cbn [mbind result_bind].
  replace (y * u / y)%nat with u by (rewrite Nat.mul_comm; by rewrite Nat.div_mul).
  replace ((x * u + r) / x)%nat with u.
  2:{ rewrite (Nat.mul_comm x u), Nat.div_add_l by lia.
      rewrite (Nat.div_small r x) by lia. lia. }
  rewrite !bool_decide_eq_false_2 by (intros H; by apply H).
  cbn [mbind result_bind]. unfold repeat_shape. cbn.
  rewrite decide_True; [done|]. intros [= H]. lia.
Qed.

Lemma find_upscale_factor_after_upscaling_witness :
  find_upscale_factor [1; 4; 5]%nat [1; 2; 2]%nat
  = Err (Raise Exception_ "Error in dapi/label array shapes (after upscaling)").
Proof.
  apply (find_upscale_factor_after_upscaling 1 2 2 2 1); lia.
Defined.
End MeasurementShapes.

(** ** [napari_workflows_wrapper]: what passes the scope checks *)
Section ScopeChecks.
Import NapariWorkflowsScope.

Lemma set_is_true types ty :
  set_is types ty = true ↔ types ≠ [] ∧ Forall (λ t, t = ty) types.
Proof.
  unfold set_is. rewrite bool_decide_eq_true. split.
  - intros H. split.
    + intros ->. cbn in H. set_solver.
    + apply Forall_forall. intros t Ht.
      assert (t ∈ (list_to_set types : gset string)) as Hin
        by (by apply elem_of_list_to_set).
      rewrite H in Hin. by apply elem_of_singleton in Hin.
  - intros [Hne Hall]. apply set_eq. intros t.
    rewrite elem_of_list_to_set, elem_of_singleton. split.
    + intros Ht. exact (proj1 (Forall_forall _ _) Hall t Ht).
    + intros ->. destruct types as [|t' types]; [done|].
      apply Forall_cons in Hall as [-> _]. by left.
Qed.

Lemma getitem_Err {A} (l : list A) i e :
  getitem l i = Err e → e = Raise IndexError "list index out of range".
Proof.
  unfold getitem. cbv zeta. destruct (_ || _); [by intros [= <-]|].
  destruct (l !! _); [done|by intros [= <-]].
Qed.

Lemma of_type_all specs ty :
  Forall (λ t, t = ty) (snd <$> specs) → of_type specs ty = specs.
Proof.
  unfold of_type. induction specs as [|item specs IH]; [done|].
  cbn [fmap list_fmap]. intros [Hty Hall]%Forall_cons.
  rewrite filter_cons_True by done. f_equal. by apply IH.
Qed.

Lemma of_type_other specs ty ty' :
  ty ≠ ty' → Forall (λ t, t = ty) (snd <$> specs) → of_type specs ty' = [].
Proof.
  unfold of_type. intros Hne. induction specs as [|item specs IH]; [done|].
  cbn [fmap list_fmap]. intros [Hty Hall]%Forall_cons.
  rewrite filter_cons_False by congruence. by apply IH.
Qed.

Section Task.
Context (roots : list string) (input_specs output_specs : list (string * string))
        (level : Z) (input_paths : list string)
        (load_metadata prepare_inputs reload_indices : result unit).

Local Abbreviation check_scope :=
  (check_scope roots input_specs output_specs level input_paths
     load_metadata prepare_inputs reload_indices).
Local Abbreviation prepare_label_outputs :=
  (prepare_label_outputs input_specs output_specs reload_indices).

Lemma check_scope_Ok relabeling r :
  check_scope relabeling = Ok r →
  list_to_set roots ⊆@{gset string} list_to_set (fst <$> input_specs)
  ∧ (0 < level →
       set_is (snd <$> input_specs) "image" = true
       ∧ set_is (snd <$> output_specs) "label" = true)
  ∧ r = (if set_is (snd <$> output_specs) "dataframe" && relabeling
         then false else relabeling)
  ∧ length input_paths = 1%nat
  ∧ load_metadata = Ok tt ∧ prepare_inputs = Ok tt
  ∧ prepare_label_outputs r = Ok tt.
Proof.
  unfold NapariWorkflowsScope.check_scope. cbv zeta.
  destruct (decide (list_to_set roots ⊆@{gset string}
                      list_to_set (fst <$> input_specs))) as [Hroots|Hroots].
  2:{ by rewrite (bool_decide_eq_true_2 _ Hroots). }
  rewrite (bool_decide_eq_false_2 (¬ _)) by (intros Hn; by apply Hn).
  destruct (bool_decide (0 < level) && negb _) eqn:Hlevel; [done|].
  destruct (bool_decide (1 < length input_paths)%nat) eqn:Hpaths; [done|].
  apply bool_decide_eq_false in Hpaths.
  destruct (getitem input_paths 0) as [p|] eqn:Hp; [|done].
  cbn [mbind result_bind].
  destruct load_metadata as [[]|]; [|done]. cbn [mbind result_bind].
  destruct prepare_inputs as [[]|]; [|done]. cbn [mbind result_bind].
  destruct (NapariWorkflowsScope.prepare_label_outputs _ _ _ _) as [[]|] eqn:Hout;
    [|done].
  cbn [mbind result_bind]. intros [= <-].
  split; [done|]. split.
  { intros Hl. rewrite bool_decide_eq_true_2 in Hlevel by done.
    cbn in Hlevel. apply negb_false_iff, andb_true_iff in Hlevel. done. }
  split; [done|]. split; [|done].
  apply getitem_elem_of in Hp. destruct input_paths as [|? [|? ?]]; cbn in *;
    [by apply elem_of_nil in Hp|done|lia].
Qed.

Lemma prepare_label_outputs_Ok relabeling :
  prepare_label_outputs relabeling = Ok tt →
  (length (of_type output_specs "label") ≤ 1)%nat
  ∧ (of_type output_specs "label" ≠ [] →
     of_type input_specs "image" ≠ []
     ∨ (of_type input_specs "label" ≠ [] ∧ reload_indices = Ok tt)).
Proof.
  unfold NapariWorkflowsScope.prepare_label_outputs. cbv zeta.
  destruct (decide (of_type output_specs "label" ≠ [])) as [Hne|Hne].
  - rewrite (bool_decide_eq_true_2 _ Hne).
    destruct (decide (1 < length (of_type output_specs "label"))%nat)
      as [Hlen|Hlen].
    { by rewrite (bool_decide_eq_true_2 _ Hlen). }
    rewrite !(bool_decide_eq_false_2 _ Hlen). cbn.
    destruct (decide (of_type input_specs "image" ≠ [])) as [Himg|Himg].
    + rewrite (bool_decide_eq_true_2 _ Himg).
      intros _. split; [lia|]. intros _. by left.
    + rewrite (bool_decide_eq_false_2 _ Himg).
      destruct (decide (of_type input_specs "label" ≠ [])) as [Hlab|Hlab].
      * rewrite (bool_decide_eq_true_2 _ Hlab). intros Hre.
        split; [lia|]. intros _. right. done.
      * by rewrite (bool_decide_eq_false_2 _ Hlab).
  - rewrite (bool_decide_eq_false_2 _ Hne). intros _.
    apply dec_stable in Hne. rewrite Hne. cbn. split; [lia|done].
Qed.

(** X20. When the task passes its scope checks at a level above 0, it
  has at least one input, all its inputs are images, and it has exactly
  one output, a label. *)
Theorem check_scope_level relabeling r :
  check_scope relabeling = Ok r → 0 < level →
  input_specs ≠ [] ∧ Forall (λ item, item.2 = "image") input_specs
  ∧ ∃ name, output_specs = [(name, "label")].
Proof.
  intros H Hl. apply check_scope_Ok in H
    as (_ & Hlevel & _ & _ & _ & _ & Hout).
  destruct (Hlevel Hl) as [Hin Hlab].
  apply set_is_true in Hin as [Hin_ne Hin_all].
  apply set_is_true in Hlab as [Hout_ne Hout_all].
  split; [by destruct input_specs|].
  split; [by apply Forall_fmap in Hin_all|].
  apply prepare_label_outputs_Ok in Hout as [Hlen _].
  rewrite (of_type_all output_specs "label") in Hlen by done.
  destruct output_specs as [|[name ty] [|? ?]]; cbn in *; [done| |lia].
  apply Forall_cons in Hout_all as [-> _]. by exists name.
Qed.

(** X21. The [relabeling] that the ROI loop uses is never switched on
  by the task: it is the argument, except that it is [False] when there
  are outputs and all of them are dataframes. *)
Theorem check_scope_relabeling relabeling r :
  check_scope relabeling = Ok r →
  (r = true → relabeling = true)
  ∧ (output_specs ≠ [] →
     Forall (λ item, item.2 = "dataframe") output_specs → r = false)
  ∧ ((∃ item, item ∈ output_specs ∧ item.2 ≠ "dataframe") → r = relabeling)
  ∧ (output_specs = [] → r = relabeling).
Proof.
  intros H. apply check_scope_Ok in H as (_ & _ & -> & _).
  destruct (set_is (snd <$> output_specs) "dataframe") eqn:Hdf.
  - apply set_is_true in Hdf as [Hne Hall]. cbn.
    split; [by destruct relabeling|]. split; [by destruct relabeling|].
    split.
    + intros (item & Hin & Hty). exfalso. apply Hty.
      apply Forall_fmap in Hall.
      exact (proj1 (Forall_forall _ _) Hall item Hin).
    + intros ->. done.
  - cbn. split; [done|]. split; [|done].
    intros Hne Hall. exfalso.
    assert (set_is (snd <$> output_specs) "dataframe" = true) as Ht.
    { apply set_is_true. split; [by destruct output_specs|].
      by apply Forall_fmap. }
    congruence.
Qed.

(** X22. When the task passes its scope checks, it has at most one
  label output, and if it has one, it has an image input or a label
  input. *)
Theorem check_scope_label_outputs relabeling r :
  check_scope relabeling = Ok r →
  (length (of_type output_specs "label") ≤ 1)%nat
  ∧ (of_type output_specs "label" ≠ [] →
     of_type input_specs "image" ≠ [] ∨ of_type input_specs "label" ≠ []).
Proof.
  intros H. apply check_scope_Ok in H as (_ & _ & _ & _ & _ & _ & Hout).
  apply prepare_label_outputs_Ok in Hout as [Hlen Hin].
  split; [done|]. intros Hne. destruct (Hin Hne) as [?|[? _]]; auto.
Qed.

(** X23. The second check on the number of label outputs cannot fire:
  the task raises the exception "Multiple label outputs would break
  relabeling" only if one of the steps between the checks raised that
  very exception. *)
Theorem check_scope_unreachable relabeling e :
  check_scope relabeling = Err e →
  e = OutOfTaskScopeError
        "Multiple label outputs would break relabeling in labeling+measurement workflows" →
  load_metadata = Err e ∨ prepare_inputs = Err e ∨ reload_indices = Err e.
Proof.
  unfold NapariWorkflowsScope.check_scope. cbv zeta. intros H ->.
  destruct (bool_decide (¬ _)); [done|].
  destruct (bool_decide (0 < level) && negb _); [done|].
  destruct (bool_decide (1 < length input_paths)%nat); [done|].
  destruct (getitem input_paths 0) as [p|] eqn:Hp.
  2:{ apply getitem_Err in Hp. subst. by cbn in H. }
  cbn [mbind result_bind] in H.
  destruct load_metadata as [[]|]; [|left; cbn in H; congruence].
  cbn [mbind result_bind] in H.
  destruct prepare_inputs as [[]|]; [|right; left; cbn in H; congruence].
  cbn [mbind result_bind] in H. right. right.
  unfold NapariWorkflowsScope.prepare_label_outputs in H. cbv zeta in H.
  destruct (bool_decide (of_type output_specs "label" ≠ [])); [|done].
  destruct (bool_decide (1 < length (of_type output_specs "label"))%nat);
    [done|].
  cbn in H.
  destruct (bool_decide (of_type input_specs "image" ≠ [])); [done|].
  destruct (bool_decide (of_type input_specs "label" ≠ [])); [|done].
  destruct reload_indices as [[]|]; [done|]. cbn in H. congruence.
Qed.
End Task.

Lemma set_is_singleton ty : set_is [ty] ty = true.
Proof. apply set_is_true. split; [done|]. by repeat constructor. Qed.

Lemma set_is_other ty ty' : ty ≠ ty' → set_is [ty] ty' = false.
Proof.
  intros Hne. destruct (set_is [ty] ty') eqn:E; [|done].
  apply set_is_true in E as [_ [H _]%Forall_cons]. done.
Qed.

(** A labeling workflow at level 1: one image input, one label output. *)
Lemma labeling_example_passes :
  check_scope ["in_1"] [("in_1", "image")] [("out_1", "label")] 1 ["/tmp"]
    (Ok tt) (Ok tt) (Ok tt) true
  = Ok true.
Proof.
  unfold check_scope. cbv zeta. cbn [fmap list_fmap fst snd].
  rewrite (bool_decide_eq_false_2 (¬ _)) by (intros Hn; by apply Hn).
  rewrite !set_is_singleton, (set_is_other "label" "dataframe") by done.
  reflexivity.
Qed.

Lemma check_scope_level_witness :
  [("in_1", "image")] ≠ []
  ∧ Forall (λ item : string * string, item.2 = "image") [("in_1", "image")]
  ∧ ∃ name, [("out_1", "label")] = [(name, "label")].
Proof.
  apply (check_scope_level ["in_1"] [("in_1", "image")] [("out_1", "label")]
           1 ["/tmp"] (Ok tt) (Ok tt) (Ok tt) true true).
  - exact labeling_example_passes.
  - lia.
Defined.

Lemma check_scope_relabeling_witness :
  (true = true → true = true)
  ∧ ([("out_1", "label")] ≠ [] →
     Forall (λ item : string * string, item.2 = "dataframe")
       [("out_1", "label")] → true = false)
  ∧ ((∃ item, item ∈ [("out_1", "label")] ∧ item.2 ≠ "dataframe") →
     true = true)
  ∧ ([("out_1", "label")] = [] → true = true).
Proof.
  apply (check_scope_relabeling ["in_1"] [("in_1", "image")]
           [("out_1", "label")] 1 ["/tmp"] (Ok tt) (Ok tt) (Ok tt) true true).
  exact labeling_example_passes.
Defined.

Lemma check_scope_label_outputs_witness :
  (length (of_type [("out_1", "label")] "label") ≤ 1)%nat
  ∧ (of_type [("out_1", "label")] "label" ≠ [] →
     of_type [("in_1", "image")] "image" ≠ []
     ∨ of_type [("in_1", "image")] "label" ≠ []).
Proof.
  apply (check_scope_label_outputs ["in_1"] [("in_1", "image")]
           [("out_1", "label")] 1 ["/tmp"] (Ok tt) (Ok tt) (Ok tt) true true).
  exact labeling_example_passes.
Defined.

Lemma check_scope_unreachable_witness :
  let e := OutOfTaskScopeError
             "Multiple label outputs would break relabeling in labeling+measurement workflows" in
  @Err unit e = Err e ∨ Ok tt = Err e ∨ Ok tt = Err e.
Proof.
  apply (check_scope_unreachable ["in_1"] [("in_1", "image")]
           [("out_1", "label")] 1 ["/tmp"] _ (Ok tt) (Ok tt) true);
    [|reflexivity].
  unfold check_scope. cbv zeta. cbn [fmap list_fmap fst snd].
  rewrite (bool_decide_eq_false_2 (¬ _)) by (intros Hn; by apply Hn).
  rewrite !set_is_singleton, (set_is_other "label" "dataframe") by done.
  reflexivity.
Defined.
End ScopeChecks.

(** ** [napari_workflows_wrapper]: the offsets of the relabeling *)
Section RelabelingOffsets.
Import Roi.
Import NapariWorkflowsScope.
Import NapariWorkflowsRelabeling.

Section Task.
Context (list_outputs : list (string * string)) (expected_dimensions : Z)
        (dataframe_labels : nat → string → list Z)
        (label_mask : nat → string → mask)
        (iadd_label iadd_positive : nat → string → Z → result (list Z))
        (name : string).

Local Abbreviation offset := (roi_offset label_mask name).

Lemma dataframe_outputs_relabeled i M outputs w :
  w ∈ (dataframe_outputs true dataframe_labels iadd_label i M outputs).1 →
  ∃ output_name labels,
    w = append_dataframe i output_name labels
    ∧ iadd_label i output_name M = Ok labels.
Proof.
  induction outputs as [|[out ty] outputs IH]; cbn;
    [by intros ?%elem_of_nil|].
  case_decide; [done|].
  destruct (iadd_label i out M) as [labels|e] eqn:Hadd;
    [|by intros ?%elem_of_nil].
  destruct (dataframe_outputs _ _ _ _ _ outputs) as [ws r]. cbn in *.
  intros [->|Hw]%elem_of_cons; [by eexists _, _|by apply IH].
Qed.

Lemma label_outputs_none relabeling i region M outputs :
  of_type outputs "label" = [] →
  label_outputs relabeling expected_dimensions label_mask iadd_positive
    i region M outputs
  = ([], Ok M).
Proof.
  unfold of_type. induction outputs as [|[out ty] outputs IH];
    cbn [label_outputs]; [done|].
  destruct (decide (ty = "label")) as [->|Hne].
  - by rewrite filter_cons_True.
  - rewrite filter_cons_False by done. rewrite decide_True by done. exact IH.
Qed.

Lemma label_outputs_single i region M outputs :
  of_type outputs "label" = [(name, "label")] →
  (∃ e, label_outputs true expected_dimensions label_mask iadd_positive
          i region M outputs
        = ([], Err e))
  ∨ ∃ new_values,
      iadd_positive i name M = Ok new_values
      ∧ values (label_mask i name) ≠ []
      ∧ label_outputs true expected_dimensions label_mask iadd_positive
          i region M outputs
        = ([to_zarr i name region new_values],
           Ok (M + num_labels label_mask name i)).
Proof.
  unfold of_type. induction outputs as [|[out ty] outputs IH];
    cbn [label_outputs]; [done|].
  destruct (decide (ty = "label")) as [->|Hne].
  - rewrite filter_cons_True by done. intros Heq.
    assert (out = name) as -> by congruence.
    assert (of_type outputs "label" = []) as Hnone
      by (unfold of_type; congruence).
    rewrite decide_False by (intros Hn; by apply Hn).
    case_decide; [left; by eexists|].
    destruct (np_min _) eqn:Hmin; [|left; by eexists].
    unfold num_labels.
    destruct (np_max _) as [mx|]; [|left; by eexists].
    destruct (iadd_positive i name M) as [new_values|e];
      [|left; by eexists].
    rewrite (label_outputs_none _ _ _ _ _ Hnone). right.
    exists new_values. split; [done|]. split; [|done].
    intros Hnil. by rewrite Hnil in Hmin.
  - rewrite filter_cons_False by done. rewrite decide_True by done. exact IH.
Qed.

Lemma roi_loop_relabeled i list_indices :
  of_type list_outputs "label" = [(name, "label")] →
  ∀ w, w ∈ (roi_loop list_outputs true expected_dimensions dataframe_labels
              label_mask iadd_label iadd_positive i list_indices
              (offset i)).1 →
    relabeled_by iadd_label iadd_positive offset w
    ∧ (∀ i' out region values, w = to_zarr i' out region values → out = name)
    ∧ ∃ k region, list_indices !! k = Some region
                  ∧ in_roi (i + k) region w.
Proof.
  intros Hsingle. revert i.
  induction list_indices as [|region rest IH]; intros i w; cbn;
    [by intros ?%elem_of_nil|].
  pose proof (dataframe_outputs_relabeled i (offset i) list_outputs) as Hd.
  destruct (dataframe_outputs _ _ _ _ _ list_outputs) as [dfs rd].
  cbn in Hd.
  assert (∀ w, w ∈ dfs →
            relabeled_by iadd_label iadd_positive offset w
            ∧ (∀ i' out region values,
                 w = to_zarr i' out region values → out = name)
            ∧ ∃ k region', (region :: rest) !! k = Some region'
                           ∧ in_roi (i + k) region' w) as Hdfs.
  { intros w' Hw'. apply Hd in Hw' as (out & labels & -> & Hadd).
    split; [done|]. split; [done|]. exists 0%nat, region.
    split; [done|]. cbn. lia. }
  destruct rd as [[]|e]; [|apply Hdfs].
  destruct (label_outputs_single i region (offset i) list_outputs Hsingle)
    as [[e ->]|(new_values & Hadd & _ & ->)].
  - cbn. rewrite app_nil_r. apply Hdfs.
  - specialize (IH (S i)). cbn [roi_offset] in IH.
    destruct (roi_loop _ _ _ _ _ _ _ _ _ _) as [ws' r']. cbn in IH |- *.
    intros [Hw|[->|Hw]%elem_of_cons]%elem_of_app.
    + by apply Hdfs.
    + split; [done|]. split; [by intros ? ? ? ? [= _ <- _ _]|].
      exists 0%nat, region. split; [done|]. cbn. split; [lia|done].
    + destruct (IH w Hw) as (Hrel & Hname & k & region' & Hk & Hin).
      split; [done|]. split; [done|]. exists (S k), region'.
      split; [done|]. by replace (i + S k)%nat with (S i + k)%nat by lia.
Qed.

Lemma dataframe_outputs_unchanged i M outputs :
  Forall (not_relabeled dataframe_labels label_mask)
    (dataframe_outputs false dataframe_labels iadd_label i M outputs).1.
Proof.
  induction outputs as [|[out ty] outputs IH]; cbn; [done|].
  case_decide; [done|].
  destruct (dataframe_outputs _ _ _ _ _ outputs) as [ws r]. cbn in *.
  by constructor.
Qed.

Lemma label_outputs_unchanged i region M outputs :
  let '(ws, r) :=
    label_outputs false expected_dimensions label_mask iadd_positive
      i region M outputs in
  Forall (not_relabeled dataframe_labels label_mask) ws
  ∧ ∀ M', r = Ok M' → M' = M.
Proof.
  induction outputs as [|[out ty] outputs IH]; cbn.
  { split; [done|]. by intros M' [= <-]. }
  case_decide; [done|]. case_decide; [done|].
  destruct (np_min _); [|done]. destruct (np_max _); [|done].
  destruct (label_outputs _ _ _ _ _ _ _ _) as [ws r].
  destruct IH as [Hall Hres]. split; [|done]. by constructor.
Qed.

Lemma roi_loop_unchanged i list_indices M :
  let '(ws, r) :=
    roi_loop list_outputs false expected_dimensions dataframe_labels
      label_mask iadd_label iadd_positive i list_indices M in
  Forall (not_relabeled dataframe_labels label_mask) ws
  ∧ ∀ M', r = Ok M' → M' = M.
Proof.
  revert i. induction list_indices as [|region rest IH]; intros i; cbn.
  { split; [done|]. by intros M' [= <-]. }
  pose proof (dataframe_outputs_unchanged i M list_outputs) as Hdfs.
  destruct (dataframe_outputs _ _ _ _ _ list_outputs) as [dfs rd].
  cbn in Hdfs. destruct rd as [[]|e]; [|done].
  pose proof (label_outputs_unchanged i region M list_outputs) as Hl.
  destruct (label_outputs _ _ _ _ _ _ _ _) as [ws r].
  destruct Hl as [Hall Hres].
  destruct r as [M'|e].
  - rewrite (Hres M' eq_refl). specialize (IH (S i)).
    destruct (roi_loop _ _ _ _ _ _ _ _ _ _) as [ws' r'].
    destruct IH as [Hall' Hres']. split; [|done].
    apply Forall_app. split; [done|]. by apply Forall_app.
  - split; [|done]. by apply Forall_app.
Qed.
End Task.

(** X25. With relabeling and a single label output [name], the number
    handed to the two additions in the ROI number [i] is the sum of
    [int(np.max(mask))] over the label arrays of the ROIs before it, taken
    as the workflow returned them: every dataframe that the loop appends
    for that ROI is the result of adding that sum to its ["label"] column,
    and the array that it hands to [to_zarr], for the region number [i] of
    the list, is the result of adding that sum to the positive values of
    the label array. *)
Theorem roi_loop_offsets list_outputs expected_dimensions dataframe_labels
    label_mask iadd_label iadd_positive list_indices name w :
  of_type list_outputs "label" = [(name, "label")] →
  w ∈ (roi_loop list_outputs true expected_dimensions dataframe_labels
         label_mask iadd_label iadd_positive 0 list_indices 0).1 →
  match w with
  | append_dataframe i output_name labels =>
      (i < length list_indices)%nat
      ∧ iadd_label i output_name (roi_offset label_mask name i) = Ok labels
  | to_zarr i output_name region new_values =>
      output_name = name ∧ list_indices !! i = Some region
      ∧ iadd_positive i name (roi_offset label_mask name i) = Ok new_values
  end.
Proof.
  intros Hsingle Hw.
  destruct (roi_loop_relabeled list_outputs expected_dimensions
              dataframe_labels label_mask iadd_label iadd_positive name 0
              list_indices Hsingle w Hw)
    as (Hrel & Hname & k & region & Hk & Hin).
  destruct w as [i out labels|i out region' new_values]; cbn in *.
  - subst i. split; [by apply lookup_lt_Some in Hk|done].
  - destruct Hin as [-> ->]. rewrite (Hname _ _ _ _ eq_refl) in *. done.
Qed.

(** X26. Without relabeling the ROI loop hands over the dataframes and
    the label arrays as the workflow returned them, and
    [max_label_for_relabeling] stays as it is. *)
Theorem roi_loop_without_relabeling list_outputs expected_dimensions
    dataframe_labels label_mask iadd_label iadd_positive i list_indices M :
  Forall (not_relabeled dataframe_labels label_mask)
    (roi_loop list_outputs false expected_dimensions dataframe_labels
       label_mask iadd_label iadd_positive i list_indices M).1
  ∧ ∀ M', (roi_loop list_outputs false expected_dimensions dataframe_labels
             label_mask iadd_label iadd_positive i list_indices M).2 = Ok M'
          → M' = M.
Proof.
  pose proof (roi_loop_unchanged list_outputs expected_dimensions
                dataframe_labels label_mask iadd_label iadd_positive
                i list_indices M) as H.
  by destruct (roi_loop _ _ _ _ _ _ _ _ _ _).
Qed.
End RelabelingOffsets.

(** ** [napari_workflows_wrapper]: the labels after relabeling *)
Section Relabeling.
Import Roi.
Import NapariWorkflowsScope.
Import NapariWorkflowsRelabeling.

Lemma separated_app ws1 ws2 M :
  separated ws1 → separated ws2 → labels_upto M ws1 → labels_above M ws2 →
  separated (ws1 ++ ws2).
Proof.
  intros H1 H2 Hup Hab i j w1 w2 v1 v2 Hij Hi Hj Hv1 Hv2.
  apply lookup_app_Some in Hi as [Hi|[Hi1 Hi]];
    apply lookup_app_Some in Hj as [Hj|[Hj1 Hj]].
  - by eapply (H1 i j).
  - apply list_elem_of_lookup_2 in Hi, Hj.
    specialize (Hup _ _ Hi Hv1). specialize (Hab _ _ Hj Hv2). lia.
  - apply lookup_lt_Some in Hj. lia.
  - eapply (H2 (i - length ws1)%nat (j - length ws1)%nat); eauto. lia.
Qed.

Lemma separated_nil : separated [].
Proof. intros i j w1 w2 v1 v2 _ Hi. by rewrite lookup_nil in Hi. Qed.

Lemma separated_singleton w : separated [w].
Proof.
  intros i j w1 w2 v1 v2 Hij Hi Hj. apply lookup_lt_Some in Hj. cbn in Hj. lia.
Qed.

Lemma labels_above_app lo ws1 ws2 :
  labels_above lo ws1 → labels_above lo ws2 → labels_above lo (ws1 ++ ws2).
Proof. intros H1 H2 w v [Hw|Hw]%elem_of_app; eauto. Qed.

Lemma labels_above_weaken lo lo' ws :
  lo' ≤ lo → labels_above lo ws → labels_above lo' ws.
Proof. intros Hle H w v Hw Hv. specialize (H w v Hw Hv). lia. Qed.

Lemma foldl_max_spec (a : list Z) (x : Z) :
  foldl Z.max x a ∈ x :: a ∧ Forall (λ v, v ≤ foldl Z.max x a) (x :: a).
Proof.
  revert x. induction a as [|y a IH]; intros x; cbn.
  - split; [by left|]. by repeat constructor.
  - destruct (IH (Z.max x y)) as [Hin Hall].
    apply Forall_cons in Hall as [Hacc Hall]. split.
    + apply elem_of_cons in Hin as [Hin|Hin]; [|by do 2 right].
      rewrite Hin. destruct (Z.max_spec x y) as [[_ ->]|[_ ->]];
        [right; by left|by left].
    + constructor; [lia|]. constructor; [lia|done].
Qed.

Lemma np_max_spec a m : np_max a = Ok m → m ∈ a ∧ Forall (λ v, v ≤ m) a.
Proof. destruct a as [|x a]; [done|]. intros [= <-]. apply foldl_max_spec. Qed.

Lemma add_to_positive_labels M a v :
  v ∈ filter (λ v, 0 < v) (add_to_positive M a) →
  ∃ v0, v0 ∈ a ∧ (0 < v0 ∧ v = v0 + M ∨ v0 ≤ 0 ∧ v = v0).
Proof.
  intros [_ Hin]%list_elem_of_filter. unfold add_to_positive in Hin.
  apply list_elem_of_fmap in Hin as (v0 & -> & Hv0). exists v0. split; [done|].
  case_decide; [left|right]; split; (done || lia).
Qed.

Section Task.
Context (list_outputs : list (string * string)) (expected_dimensions : Z)
        (dataframe_labels : nat → string → list Z)
        (label_mask : nat → string → mask)
        (iadd_label iadd_positive : nat → string → Z → result (list Z))
        (name : string).
Hypothesis single : of_type list_outputs "label" = [(name, "label")].
Hypothesis nonneg : ∀ i, Forall (λ v, 0 ≤ v) (values (label_mask i name)).

Local Abbreviation offset := (roi_offset label_mask name).

Lemma num_labels_bounds i :
  0 ≤ num_labels label_mask name i
  ∧ Forall (λ v, v ≤ num_labels label_mask name i)
      (values (label_mask i name)).
Proof using nonneg.
  unfold num_labels. destruct (np_max _) as [mx|] eqn:Hmx.
  - apply np_max_spec in Hmx as [Hin Hall]. split; [|done].
    exact (proj1 (Forall_forall _ _) (nonneg i) mx Hin).
  - split; [done|]. by destruct (values (label_mask i name)).
Qed.

Lemma roi_loop_separated i list_indices :
  (∀ k new_values, (k < length list_indices)%nat →
     iadd_positive (i + k) name (offset (i + k)) = Ok new_values →
     new_values = add_to_positive (offset (i + k))
                    (values (label_mask (i + k)%nat name))) →
  let '(ws, r) :=
    roi_loop list_outputs true expected_dimensions dataframe_labels
      label_mask iadd_label iadd_positive i list_indices (offset i) in
  labels_above (offset i) ws ∧ separated ws.
Proof using single nonneg.
  revert i. induction list_indices as [|region rest IH]; intros i Hexact; cbn.
  { split; [by intros w v ?%elem_of_nil|apply separated_nil]. }
  pose proof (dataframe_outputs_relabeled dataframe_labels iadd_label
                i (offset i) list_outputs) as Hd.
  destruct (dataframe_outputs _ _ _ _ _ list_outputs) as [dfs rd].
  cbn in Hd.
  assert (∀ w v, w ∈ dfs → v ∈ positive_labels w → False) as Hnone.
  { intros w v Hw Hv. apply Hd in Hw as (out & labels & -> & _).
    by apply elem_of_nil in Hv. }
  assert (∀ M, labels_above M dfs) as Hdab
    by (intros M w v Hw Hv; by destruct (Hnone w v Hw Hv)).
  assert (∀ M, labels_upto M dfs) as Hdup
    by (intros M w v Hw Hv; by destruct (Hnone w v Hw Hv)).
  assert (separated dfs) as Hdsep.
  { intros a b w1 w2 v1 v2 _ Ha _ Hv1 _.
    apply list_elem_of_lookup_2 in Ha. by destruct (Hnone w1 v1 Ha Hv1). }
  destruct rd as [[]|e]; [|by split].
  destruct (label_outputs_single expected_dimensions label_mask
              iadd_positive name i region (offset i) list_outputs single)
    as [[e ->]|(new_values & Hadd & _ & ->)].
  { rewrite app_nil_r. by split. }
  assert (new_values
          = add_to_positive (offset i) (values (label_mask i name))) as ->.
  { specialize (Hexact 0%nat new_values). rewrite Nat.add_0_r in Hexact.
    apply Hexact; [cbn; lia|done]. }
  destruct (num_labels_bounds i) as [Hnum Hall].
  set (w0 := to_zarr i name region _).
  assert (labels_above (offset i) [w0]
          ∧ labels_upto (offset (S i)) [w0]) as [Hab0 Hup0].
  { split; intros w v ->%list_elem_of_singleton Hv; cbn in Hv;
      pose proof (proj1 (list_elem_of_filter _ _ _) Hv) as [Hpos _];
      apply add_to_positive_labels in Hv as (v0 & Hv0 & Hcase);
      pose proof (proj1 (Forall_forall _ _) Hall v0 Hv0) as Hle;
      cbn beta in Hle; cbn [roi_offset];
      destruct Hcase as [[? ->]|[? ->]]; lia. }
  specialize (IH (S i)). cbn [roi_offset] in IH.
  destruct (roi_loop _ _ _ _ _ _ _ _ _ _) as [ws' r'].
  destruct IH as [Hab' Hsep'].
  { intros k new_values Hk.
    replace (S i + k)%nat with (i + S k)%nat by lia.
    apply Hexact. cbn. lia. }
  assert (labels_above (offset i) ws') as Hab''
    by (apply labels_above_weaken with (offset (S i)); [cbn; lia|done]).
  split.
  - apply labels_above_app; [done|]. by apply (labels_above_app _ [w0]).
  - apply (separated_app dfs _ (offset i)); [done| |done|].
    + by apply (separated_app [w0] ws' (offset (S i)));
        [apply separated_singleton| | |].
    + by apply (labels_above_app _ [w0]).
Qed.
End Task.

(** X24. With relabeling, a single label output [name] and label arrays
    without negative values: when the addition to the label array of each
    ROI gives the sums as integers (no sum leaves the dtype of the array),
    the positive labels of the array handed to [to_zarr] for one ROI are
    all smaller than the positive labels of the array of any later ROI, so
    that no label is used in two ROIs.  This holds for the arrays handed
    over before an exception as well. *)
Theorem roi_loop_labels_separated list_outputs expected_dimensions
    dataframe_labels label_mask iadd_label iadd_positive list_indices name :
  of_type list_outputs "label" = [(name, "label")] →
  (∀ i, Forall (λ v, 0 ≤ v) (values (label_mask i name))) →
  (∀ i new_values, (i < length list_indices)%nat →
     iadd_positive i name (roi_offset label_mask name i) = Ok new_values →
     new_values = add_to_positive (roi_offset label_mask name i)
                    (values (label_mask i name))) →
  separated
    (roi_loop list_outputs true expected_dimensions dataframe_labels
       label_mask iadd_label iadd_positive 0 list_indices 0).1.
Proof.
  intros Hsingle Hnn Hexact.
  pose proof (roi_loop_separated list_outputs expected_dimensions
                dataframe_labels label_mask iadd_label iadd_positive name
                Hsingle Hnn 0 list_indices Hexact) as H.
  cbn [roi_offset] in H.
  destruct (roi_loop _ _ _ _ _ _ _ _ _ _) as [ws r]. by destruct H.
Qed.
End Relabeling.

(** ** Relabeling at work on two ROIs *)
Section RelabelingExample.
Import Roi.
Import NapariWorkflowsScope.
Import NapariWorkflowsRelabeling.

Lemma roi_loop_labels_separated_witness :
  separated
    (roi_loop example_outputs true 3 example_dataframe example_mask
       (exact_iadd_label example_dataframe)
       (exact_iadd_positive example_mask) 0
       [example_region; example_region] 0).1.
Proof.
  apply (roi_loop_labels_separated example_outputs 3 example_dataframe
           example_mask (exact_iadd_label example_dataframe)
           (exact_iadd_positive example_mask)
           [example_region; example_region] "out_1").
  - reflexivity.
  - intros i. cbn. repeat constructor; lia.
  - intros i new_values _ Hadd. unfold exact_iadd_positive in Hadd.
    congruence.
Defined.

Lemma roi_loop_offsets_witness :
  "out_1" = "out_1"
  ∧ [example_region; example_region] !! 1%nat = Some example_region
  ∧ exact_iadd_positive example_mask 1 "out_1"
      (roi_offset example_mask "out_1" 1)
    = Ok [0; 2].
Proof.
  apply (roi_loop_offsets example_outputs 3 example_dataframe example_mask
           (exact_iadd_label example_dataframe)
           (exact_iadd_positive example_mask)
           [example_region; example_region] "out_1"
           (to_zarr 1 "out_1" example_region [0; 2])).
  - reflexivity.
  - apply (list_elem_of_lookup_2 _ 3). reflexivity.
Defined.

(** The second ROI: the dataframe label and the array label are both 2. *)
Example relabeling_two_rois :
  roi_loop example_outputs true 3 example_dataframe example_mask
    (exact_iadd_label example_dataframe) (exact_iadd_positive example_mask)
    0 [example_region; example_region] 0
  = ([append_dataframe 0 "out_2" [1];
      to_zarr 0 "out_1" example_region [0; 1];
      append_dataframe 1 "out_2" [2];
      to_zarr 1 "out_1" example_region [0; 2]],
     Ok 2).
Proof. reflexivity. Qed.

(** Label arrays of dtype [uint8] with the label 200 in each ROI: the
    counter is 200 after the first ROI, the sum [200 + 200] is taken
    modulo 256 in the second, and its label 144 is below the label 200 of
    the first. *)
Example relabeling_uint8_wraps :
  roi_loop example_outputs true 3 example_dataframe example_mask_200
    (exact_iadd_label example_dataframe)
    (uint8_iadd_positive example_mask_200)
    0 [example_region; example_region] 0
  = ([append_dataframe 0 "out_2" [1];
      to_zarr 0 "out_1" example_region [0; 200];
      append_dataframe 1 "out_2" [201];
      to_zarr 1 "out_1" example_region [0; 144]],
     Ok 400).
Proof. reflexivity. Qed.
End RelabelingExample.

(** ** [napari_workflows_wrapper]: the writes of the ROI loop *)
Section RoiLoopWrites.
Import Roi.
Import NapariWorkflowsRelabeling.

Section Task.
Context (list_outputs : list (string * string)) (expected_dimensions : Z)
        (dataframe_labels : nat → string → list Z)
        (label_mask : nat → string → mask)
        (iadd_label iadd_positive : nat → string → Z → result (list Z)).

Local Abbreviation passes :=
  (label_outputs_pass label_mask expected_dimensions).

Lemma dataframe_outputs_plain i M outputs :
  dataframe_outputs false dataframe_labels iadd_label i M outputs
  = (plain_dataframes dataframe_labels i outputs, Ok tt).
Proof.
  unfold plain_dataframes.
  induction outputs as [|[out ty] outputs IH]; cbn; [done|].
  destruct (decide (ty = "dataframe")) as [->|Hne].
  - rewrite decide_False by (intros Hn; by apply Hn). by rewrite IH.
  - by rewrite decide_True.
Qed.

Lemma passes_cons i out ty outputs :
  passes i ((out, ty) :: outputs) → passes i outputs.
Proof. intros H n Hn. apply H. by right. Qed.

Lemma label_outputs_plain i region M outputs :
  passes i outputs →
  label_outputs false expected_dimensions label_mask iadd_positive
    i region M outputs
  = (plain_labels label_mask i region outputs, Ok M).
Proof.
  unfold plain_labels.
  induction outputs as [|[out ty] outputs IH]; intros Hgood; cbn; [done|].
  specialize (IH (passes_cons _ _ _ _ Hgood)).
  destruct (decide (ty = "label")) as [->|Hne].
  - rewrite decide_False by (intros Hn; by apply Hn).
    destruct (Hgood out ltac:(by left)) as [Hdim Hvals].
    rewrite decide_False by (intros Hn; by apply Hn).
    destruct (values (label_mask i out)) as [|v vs] eqn:Hv; [done|].
    cbn. by rewrite IH.
  - by rewrite decide_True.
Qed.

Lemma label_outputs_stops i region M before out after :
  passes i before →
  ¬ passes_checks label_mask expected_dimensions i out →
  ∃ e, class_of e = ValueError
    ∧ label_outputs false expected_dimensions label_mask iadd_positive
        i region M (before ++ (out, "label") :: after)%list
      = (plain_labels label_mask i region before, Err e).
Proof.
  unfold plain_labels. intros Hgood Hbad.
  induction before as [|[out' ty] before IH]; cbn.
  - rewrite decide_False by (intros Hn; by apply Hn).
    destruct (decide (Z.of_nat (length (shape (label_mask i out)))
                      ≠ expected_dimensions)) as [Hdim|Hdim];
      [eexists; split; [|reflexivity]; reflexivity|].
    destruct (values (label_mask i out)) as [|v vs] eqn:Hv;
      [eexists; split; [|reflexivity]; reflexivity|].
    destruct Hbad. split; [|by rewrite Hv].
    by destruct (decide (Z.of_nat (length (shape (label_mask i out)))
                         = expected_dimensions)).
  - destruct (IH (passes_cons _ _ _ _ Hgood)) as (e & He & Heq).
    exists e. split; [done|].
    destruct (decide (ty = "label")) as [->|Hne].
    + rewrite decide_False by (intros Hn; by apply Hn).
      destruct (Hgood out' ltac:(by left)) as [Hdim Hvals].
      rewrite decide_False by (intros Hn; by apply Hn).
      destruct (values (label_mask i out')) as [|v vs] eqn:Hv; [done|].
      cbn. by rewrite Heq.
    + by rewrite decide_True.
Qed.

Lemma roi_loop_plain i list_indices M :
  (∀ k, (k < length list_indices)%nat → passes (i + k) list_outputs) →
  roi_loop list_outputs false expected_dimensions dataframe_labels
    label_mask iadd_label iadd_positive i list_indices M
  = (plain_writes dataframe_labels label_mask list_outputs i list_indices,
     Ok M).
Proof.
  revert i. induction list_indices as [|region rest IH]; intros i Hgood;
    [done|].
  cbn [roi_loop plain_writes]. rewrite dataframe_outputs_plain.
  rewrite label_outputs_plain.
  2:{ specialize (Hgood 0%nat). rewrite Nat.add_0_r in Hgood.
      apply Hgood. cbn. lia. }
  rewrite IH; [done|].
  intros k Hk. replace (S i + k)%nat with (i + S k)%nat by lia.
  apply Hgood. cbn. lia.
Qed.

Lemma roi_loop_stops i done region rest before out after M :
  (∀ k, (k < length done)%nat → passes (i + k) list_outputs) →
  list_outputs = (before ++ (out, "label") :: after)%list →
  passes (i + length done) before →
  ¬ passes_checks label_mask expected_dimensions (i + length done) out →
  ∃ e, class_of e = ValueError
    ∧ roi_loop list_outputs false expected_dimensions dataframe_labels
        label_mask iadd_label iadd_positive i (done ++ region :: rest)%list M
      = ((plain_writes dataframe_labels label_mask list_outputs i done
          ++ plain_dataframes dataframe_labels (i + length done) list_outputs
          ++ plain_labels label_mask (i + length done) region before)%list,
         Err e).
Proof.
  revert i. induction done as [|region' done IH];
    intros i Hgood Hspecs Hbefore Hbad.
  - cbn [length] in Hbefore, Hbad. rewrite Nat.add_0_r in Hbefore, Hbad.
    destruct (label_outputs_stops i region M before out after Hbefore Hbad)
      as (e & He & Heq).
    exists e. split; [done|]. rewrite <- Hspecs in Heq.
    cbn [app roi_loop plain_writes length]. rewrite Nat.add_0_r.
    rewrite dataframe_outputs_plain. by rewrite Heq.
  - cbn [length] in Hbefore, Hbad.
    destruct (IH (S i)) as (e & He & Heq).
    + intros k Hk. replace (S i + k)%nat with (i + S k)%nat by lia.
      apply Hgood. cbn. lia.
    + done.
    + by replace (S i + length done)%nat with (i + S (length done))%nat by lia.
    + by replace (S i + length done)%nat with (i + S (length done))%nat by lia.
    + exists e. split; [done|].
      cbn [app roi_loop plain_writes length].
      rewrite dataframe_outputs_plain. rewrite label_outputs_plain.
      2:{ specialize (Hgood 0%nat). rewrite Nat.add_0_r in Hgood.
          apply Hgood. cbn. lia. }
      rewrite Heq.
      replace (S i + length done)%nat with (i + S (length done))%nat by lia.
      by rewrite <- !app_assoc.
Qed.
End Task.

(** X27. The writes of the ROI loop without relabeling, with a workflow
    and array writes that do not fail.  When in every ROI the array of
    every label output has the expected number of dimensions and is not
    empty, the loop returns and has handed over, ROI after ROI, the
    dataframe of every dataframe output and then the array of every label
    output.  When the array of a label output has another number of
    dimensions or is empty, the loop raises a [ValueError] there, and what
    was handed over before stays: all of the earlier ROIs, the dataframes
    of this ROI and the arrays of its earlier label outputs. *)
Theorem roi_loop_writes list_outputs expected_dimensions dataframe_labels
    label_mask iadd_label iadd_positive :
  (∀ list_indices M,
     (∀ k, (k < length list_indices)%nat →
        label_outputs_pass label_mask expected_dimensions k list_outputs) →
     roi_loop list_outputs false expected_dimensions dataframe_labels
       label_mask iadd_label iadd_positive 0 list_indices M
     = (plain_writes dataframe_labels label_mask list_outputs 0 list_indices,
        Ok M))
  ∧ (∀ done region rest before output_name after M,
       (∀ k, (k < length done)%nat →
          label_outputs_pass label_mask expected_dimensions k list_outputs) →
       list_outputs = (before ++ (output_name, "label") :: after)%list →
       label_outputs_pass label_mask expected_dimensions (length done) before →
       ¬ passes_checks label_mask expected_dimensions (length done)
           output_name →
       ∃ e, class_of e = ValueError
         ∧ roi_loop list_outputs false expected_dimensions dataframe_labels
             label_mask iadd_label iadd_positive 0
             (done ++ region :: rest)%list M
           = ((plain_writes dataframe_labels label_mask list_outputs 0 done
               ++ plain_dataframes dataframe_labels (length done) list_outputs
               ++ plain_labels label_mask (length done) region before)%list,
              Err e)).
Proof.
  split.
  - intros list_indices M Hgood.
    by apply (roi_loop_plain list_outputs expected_dimensions
                dataframe_labels label_mask iadd_label iadd_positive 0).
  - intros done region rest before output_name after M Hgood Hspecs Hb Hbad.
    by apply (roi_loop_stops list_outputs expected_dimensions
                dataframe_labels label_mask iadd_label iadd_positive 0 done
                region rest before output_name after M).
Qed.

(** An empty array in the second ROI: the first ROI and the dataframe of
    the second are handed over, then [np.min] raises. *)
Example roi_loop_empty_mask :
  roi_loop example_outputs false 3 example_dataframe
    (λ i name, if decide (i = 1%nat) then Mask [1; 1; 0]%nat []
               else example_mask i name)
    (exact_iadd_label example_dataframe) (exact_iadd_positive example_mask)
    0 [example_region; example_region] 0
  = ([append_dataframe 0 "out_2" [1];
      to_zarr 0 "out_1" example_region [0; 1];
      append_dataframe 1 "out_2" [1]],
     Err (Raise ValueError
            "zero-size array to reduction operation minimum which has no identity")).
Proof. reflexivity. Qed.
End RoiLoopWrites.

